(** * Model construction of the solar-plus-storage sizing problem

    A shallow embedding of [optimization/StorageSelectionProblem.py] and
    [optimization/ProblemConfiguration.py].

    - Python integers are [Z]; numpy floats and solver coefficients are
      idealised as rationals [Q] (no rounding).
    - The OR-tools solver object is a record holding the declared
      variables, the added constraints and the objective; a variable handle is
      the index the solver allocated for it.
    - [np.random] is the process-wide generator: an infinite stream of
      standard normal variates with a cursor. [np.random.normal loc scale]
      returns [loc + scale * z] for the next variates [z].
    - Methods live in a state-and-exception monad over the solver and the
      generator; the state survives a raised exception, so that what was
      declared before a failure stays observable. *)

From Stdlib Require Import ZArith QArith Qminmax Lqa Lia List String.
From stdpp Require Import gmap.

Local Open Scope Z_scope.

(** ** Data model *)

Inductive PyError : Type :=
| KeyError
| IndexError
| ValueError
| ZeroDivisionError.

Inductive Outcome (A : Type) : Type :=
| Ok (a : A)
| Raise (e : PyError).
Arguments Ok {A} a.
Arguments Raise {A} e.

(** [ProblemConfiguration]: the two counts are handed to [range], hence
    integers; every other attribute only enters arithmetic. *)
Record ProblemConfiguration : Type := {
  max_watts_per_module : Q;
  area_per_module_in_m2 : Q;
  price_per_module_in_euro : Q;
  max_number_of_modules : Q;
  min_number_of_modules : Q;
  storage_price_per_kwh_in_euro : Q;
  min_storage_size_in_kwh : Q;
  max_storage_size_in_kwh : Q;
  number_of_scenarios : Z;
  number_of_days : Z
}.

(** [ProblemConfiguration.__init__] *)
Definition default_configuration : ProblemConfiguration := {|
  max_watts_per_module := 800;
  area_per_module_in_m2 := 12 # 10;
  price_per_module_in_euro := 670;
  max_number_of_modules := 100;
  min_number_of_modules := 0;
  storage_price_per_kwh_in_euro := 1400;
  min_storage_size_in_kwh := 0;
  max_storage_size_in_kwh := 1000;
  number_of_scenarios := 10;
  number_of_days := 365
|}.

(** A bound of a solver variable: a number or [solver.Infinity()]. *)
Inductive Bound : Type :=
| Fin (q : Q)
| Infinity.

(** The name handed to the solver: a literal, or
    [f'{timeslot_name}_<field>'] with [timeslot_name = f'timeslotNr_{t}'].
    The scenario is not part of the name. *)
Inductive VarName : Type :=
| Literal (s : string)
| TimeslotField (timeslot : Z) (field : string).

Record VarDecl : Type := {
  var_integer : bool;
  var_lb : Bound;
  var_ub : Bound;
  var_name : VarName
}.

(** [LPSolving.Variable]: a handle on a declared variable, its index. *)
Definition MPVariable : Type := nat.

(** Linear expressions as the overloaded operators build them. *)
Inductive LinearExpr : Type :=
| Var (v : MPVariable)
| Const (c : Q)
| CMul (c : Q) (e : LinearExpr)     (* c * e *)
| MulC (e : LinearExpr) (c : Q)     (* e * c *)
| DivC (e : LinearExpr) (c : Q)     (* e / c *)
| Plus (a b : LinearExpr)
| Minus (a b : LinearExpr).

Inductive Constraint : Type :=
| CEq (lhs rhs : LinearExpr)        (* lhs == rhs *)
| CLe (lhs rhs : LinearExpr).       (* lhs <= rhs *)

Record Solver : Type := {
  variables : list VarDecl;
  constraints : list Constraint;
  objective : option LinearExpr
}.

(** [LPSolving.Solver.CreateSolver('SCIP')] *)
Definition CreateSolver : Solver :=
  {| variables := []; constraints := []; objective := None |}.

Record RandomState : Type := {
  stream : nat -> Q;
  cursor : nat
}.

Record World : Type := {
  solver : Solver;
  random : RandomState
}.

(** ** The construction monad *)

Definition Build (A : Type) : Type := World -> Outcome A * World.

Definition ret {A} (a : A) : Build A := fun w => (Ok a, w).

Definition raise {A} (e : PyError) : Build A := fun w => (Raise e, w).

Definition bind {A B} (m : Build A) (k : A -> Build B) : Build B :=
  fun w => match m w with
           | (Ok a, w') => k a w'
           | (Raise e, w') => (Raise e, w')
           end.

Notation "x <- m ;; k" := (bind m (fun x => k))
  (at level 100, m at next level, right associativity).
Notation "m ;;; k" := (bind m (fun _ => k))
  (at level 100, right associativity).

(** [acc = a0; for x in l: acc = body(acc, x)] *)
Fixpoint foldM {A X} (body : A -> X -> Build A) (l : list X) (a : A) : Build A :=
  match l with
  | [] => ret a
  | x :: r => a' <- body a x ;; foldM body r a'
  end.

(** [for x in l: body(x)] *)
Definition for_ {X} (l : list X) (body : X -> Build unit) : Build unit :=
  foldM (fun _ x => body x) l tt.

(** [range(n)]: empty when [n <= 0]. *)
Definition range (n : Z) : list Z := map Z.of_nat (seq 0 (Z.to_nat n)).

(** [d[k]] on a dict. *)
Definition getitem {V} (d : gmap Z V) (k : Z) : Build V :=
  match d !! k with
  | Some v => ret v
  | None => raise KeyError
  end.

(** ** The solver interface *)

Definition MakeVar (integer : bool) (lb ub : Bound) (name : VarName) : Build MPVariable :=
  fun w =>
    let s := solver w in
    (Ok (length (variables s)),
     {| solver := {| variables := variables s ++
                       [{| var_integer := integer; var_lb := lb;
                           var_ub := ub; var_name := name |}];
                     constraints := constraints s;
                     objective := objective s |};
        random := random w |}).

Definition IntVar (lb ub : Q) (name : VarName) : Build MPVariable :=
  MakeVar true (Fin lb) (Fin ub) name.

Definition NumVar (lb ub : Bound) (name : VarName) : Build MPVariable :=
  MakeVar false lb ub name.

Definition Add (c : Constraint) : Build unit :=
  fun w =>
    let s := solver w in
    (Ok tt,
     {| solver := {| variables := variables s;
                     constraints := constraints s ++ [c];
                     objective := objective s |};
        random := random w |}).

Definition Minimize (e : LinearExpr) : Build unit :=
  fun w =>
    let s := solver w in
    (Ok tt,
     {| solver := {| variables := variables s;
                     constraints := constraints s;
                     objective := Some e |};
        random := random w |}).

Definition NumVariables (s : Solver) : nat := length (variables s).
Definition NumConstraints (s : Solver) : nat := length (constraints s).

(** ** numpy *)

(** [np.random.normal(loc, scale, size)]: a negative size is refused,
    otherwise the next [size] variates are consumed. *)
Definition np_random_normal (loc scale : Q) (size : Z) : Build (list Q) :=
  fun w =>
    if size <? 0 then (Raise ValueError, w)
    else
      let r := random w in
      let n := Z.to_nat size in
      (Ok (map (fun i => (loc + scale * stream r (cursor r + i)%nat)%Q) (seq 0 n)),
       {| solver := solver w;
          random := {| stream := stream r; cursor := (cursor r + n)%nat |} |}).

Definition np_maximum (a : list Q) (c : Q) : list Q := map (fun x => Qmax x c) a.
Definition np_minimum (a : list Q) (c : Q) : list Q := map (fun x => Qmin x c) a.
Definition np_times (a : list Q) (c : Q) : list Q := map (fun x => (x * c)%Q) a.

(** [a[i]] on an array: negative indices count from the end. *)
Definition np_getitem (a : list Q) (i : Z) : Build Q :=
  let n := Z.of_nat (length a) in
  let j := if i <? 0 then i + n else i in
  if (0 <=? j) && (j <? n) then
    match nth_error a (Z.to_nat j) with
    | Some x => ret x
    | None => raise IndexError
    end
  else raise IndexError.

(** ** [StorageSelectionProblem] *)

(** The dict returned by [_buildBaseVariables]. *)
Record BaseVariables : Type := {
  numberOfModules : MPVariable;
  sizeOfStorageInKwh : MPVariable
}.

(** The innermost dict of [_buildScenarioVariablesForScenario]. *)
Record TimeslotVariables : Type := {
  storageLevel : MPVariable;
  storageEnergyDelta : MPVariable;
  producedEnergy : MPVariable;
  consumedEnergy : MPVariable;
  boughtEnergy : MPVariable;
  soldEnergy : MPVariable
}.

(** The dicts keyed by [f'timeslotNr_{t}'] and [f'scenarioNr_{s}'] are
    keyed by the formatted integer. *)
Abbreviation ScenarioDict := (gmap Z TimeslotVariables).
Abbreviation ScenariosDict := (gmap Z (gmap Z TimeslotVariables)).

Section Methods.

Variable problem_configuration : ProblemConfiguration.
Local Abbreviation cfg := problem_configuration.

Definition _buildBaseVariables : Build BaseVariables :=
  numberOfModules <- IntVar (min_number_of_modules cfg)
                            (max_number_of_modules cfg)
                            (Literal "numberOfModules") ;;
  sizeOfStorageInKwh <- NumVar (Fin (min_storage_size_in_kwh cfg))
                               (Fin (max_storage_size_in_kwh cfg))
                               (Literal "sizeOfStorageInKwh") ;;
  ret {| numberOfModules := numberOfModules;
         sizeOfStorageInKwh := sizeOfStorageInKwh |}.

Definition _buildScenarioVariablesForScenario (scenario : Z) : Build ScenarioDict :=
  foldM (fun (variables : ScenarioDict) timeslot =>
           let cap := (max_storage_size_in_kwh cfg * 1000)%Q in
           let ncap := (- max_storage_size_in_kwh cfg * 1000)%Q in
           v1 <- NumVar (Fin 0) (Fin cap) (TimeslotField timeslot "storagLevel") ;;
           v2 <- NumVar (Fin ncap) (Fin cap) (TimeslotField timeslot "storageEnergyDelta") ;;
           v3 <- NumVar (Fin 0) Infinity (TimeslotField timeslot "producedEnergy") ;;
           v4 <- NumVar (Fin 0) Infinity (TimeslotField timeslot "consumedEnergy") ;;
           v5 <- NumVar (Fin 0) Infinity (TimeslotField timeslot "boughtEnergy") ;;
           v6 <- NumVar (Fin 0) Infinity (TimeslotField timeslot "soldEnergy") ;;
           ret (<[timeslot := {| storageLevel := v1;
                                 storageEnergyDelta := v2;
                                 producedEnergy := v3;
                                 consumedEnergy := v4;
                                 boughtEnergy := v5;
                                 soldEnergy := v6 |}]> variables))
        (range (number_of_days cfg * 24)) ∅.

Definition _buildScenarioVariables : Build ScenariosDict :=
  foldM (fun (variables : ScenariosDict) scenario =>
           d <- _buildScenarioVariablesForScenario scenario ;;
           ret (<[scenario := d]> variables))
        (range (number_of_scenarios cfg)) ∅.

Definition _buildScenarioConstraints (base_variables : BaseVariables)
    (current_scenario_variables : ScenarioDict) : Build unit :=
  scenario_watt_production <- np_random_normal 500 200 (number_of_days cfg * 24) ;;
  let scenario_watt_production := np_maximum scenario_watt_production 0 in
  let scenario_watt_production_per_module :=
    np_times scenario_watt_production (area_per_module_in_m2 cfg) in
  let scenario_watt_production_per_module :=
    np_minimum scenario_watt_production_per_module (max_watts_per_module cfg) in
  scenario_watt_usage <- np_random_normal 10000 2000 (number_of_days cfg * 24) ;;
  let scenario_watt_usage := np_maximum scenario_watt_usage 0 in
  for_ (range (number_of_days cfg * 24)) (fun timeslot =>
    let timeslot_name := timeslot in
    let last_timeslot_name := timeslot - 1 in
    this <- getitem current_scenario_variables timeslot_name ;;
    let produced_energy := Var (producedEnergy this) in
    coefficient <- np_getitem scenario_watt_production_per_module timeslot ;;
    Add (CEq produced_energy
             (CMul coefficient (Var (numberOfModules base_variables)))) ;;;
    let consumed_energy := Var (consumedEnergy this) in
    usage <- np_getitem scenario_watt_usage timeslot ;;
    Add (CEq consumed_energy (Const usage)) ;;;
    let energy_delta := Minus produced_energy consumed_energy in
    let store_energy_delta := Var (storageEnergyDelta this) in
    let bought_energy := Var (boughtEnergy this) in
    let sold_energy := Var (soldEnergy this) in
    Add (CEq energy_delta
             (Minus (Plus sold_energy store_energy_delta) bought_energy)) ;;;
    let storage_level := Var (storageLevel this) in
    (if timeslot =? 0 then Add (CEq storage_level (Const 0)) else ret tt) ;;;
    (if negb (timeslot =? 0) then
       last <- getitem current_scenario_variables last_timeslot_name ;;
       Add (CEq storage_level
                (Plus (Var (storageLevel last)) (Var (storageEnergyDelta last))))
     else ret tt) ;;;
    Add (CLe storage_level
             (MulC (Var (sizeOfStorageInKwh base_variables)) 1000))).

Definition _buildConstraints (base_variables : BaseVariables)
    (scenario_variables : ScenariosDict) : Build unit :=
  for_ (range (number_of_scenarios cfg)) (fun scenario =>
    let scenario_name := scenario in
    current_scenario_variables <- getitem scenario_variables scenario_name ;;
    _buildScenarioConstraints base_variables current_scenario_variables).

(** The running [costs] starts as the number [0]. *)
Definition _calculate_scenario_costs (current_scenario_variables : ScenarioDict)
    (energy_purchase_prices energy_selling_prices : list Q) : Build LinearExpr :=
  foldM (fun costs timeslot =>
           purchase <- np_getitem energy_purchase_prices timeslot ;;
           this <- getitem current_scenario_variables timeslot ;;
           let costs := Plus costs (CMul purchase (DivC (Var (boughtEnergy this)) 1000)) in
           selling <- np_getitem energy_selling_prices timeslot ;;
           this <- getitem current_scenario_variables timeslot ;;
           ret (Minus costs (CMul selling (DivC (Var (soldEnergy this)) 1000))))
        (range (number_of_days cfg * 24)) (Const 0).

(** [x /= n] with an integer [n]. *)
Definition truediv (x : LinearExpr) (n : Z) : Build LinearExpr :=
  if n =? 0 then raise ZeroDivisionError else ret (DivC x (inject_Z n)).

Definition _buildObjective (base_variables : BaseVariables)
    (scenario_variables : ScenariosDict) : Build unit :=
  energy_purchase_prices <- np_random_normal (5 # 10) 0 (number_of_days cfg * 24) ;;
  energy_selling_prices <- np_random_normal (12 # 100) 0 (number_of_days cfg * 24) ;;
  let investment :=
    Plus (MulC (Var (numberOfModules base_variables)) (price_per_module_in_euro cfg))
         (MulC (Var (sizeOfStorageInKwh base_variables))
               (storage_price_per_kwh_in_euro cfg)) in
  scenario_costs <-
    foldM (fun scenario_costs scenario =>
             current_scenario_variables <- getitem scenario_variables scenario ;;
             c <- _calculate_scenario_costs current_scenario_variables
                    energy_purchase_prices energy_selling_prices ;;
             ret (scenario_costs ++ [c]))
          (range (number_of_scenarios cfg)) [] ;;
  let estimated_costs_during_optimization_period :=
    fold_left Plus scenario_costs (Const 0) in
  estimated_costs_during_optimization_period <-
    truediv estimated_costs_during_optimization_period (number_of_scenarios cfg) ;;
  Minimize (Plus investment estimated_costs_during_optimization_period).

(** [buildModel]; the result stands for the two attributes it sets. *)
Definition buildModel : Build (BaseVariables * ScenariosDict) :=
  variables <- _buildBaseVariables ;;
  scenario_variables <- _buildScenarioVariables ;;
  _buildConstraints variables scenario_variables ;;;
  _buildObjective variables scenario_variables ;;;
  ret (variables, scenario_variables).

End Methods.

(** A fresh [StorageSelectionProblem] in a process whose generator is [r]. *)
Definition fresh (r : RandomState) : World :=
  {| solver := CreateSolver; random := r |}.

(** ** Semantics of expressions and constraints *)

Definition Assignment : Type := MPVariable -> Q.

Fixpoint eval (a : Assignment) (e : LinearExpr) : Q :=
  match e with
  | Var v => a v
  | Const c => c
  | CMul c e => c * eval a e
  | MulC e c => eval a e * c
  | DivC e c => eval a e / c
  | Plus x y => eval a x + eval a y
  | Minus x y => eval a x - eval a y
  end%Q.

Definition satisfies (a : Assignment) (c : Constraint) : Prop :=
  match c with
  | CEq l r => (eval a l == eval a r)%Q
  | CLe l r => (eval a l <= eval a r)%Q
  end.

(** The coefficient of variable [x] in an expression, and its constant
    term. *)
Fixpoint coeff (e : LinearExpr) (x : MPVariable) : Q :=
  match e with
  | Var v => if Nat.eqb v x then 1 else 0
  | Const _ => 0
  | CMul c e => c * coeff e x
  | MulC e c => coeff e x * c
  | DivC e c => coeff e x / c
  | Plus a b => coeff a x + coeff b x
  | Minus a b => coeff a x - coeff b x
  end%Q.

Fixpoint offset (e : LinearExpr) : Q :=
  match e with
  | Var _ => 0
  | Const c => c
  | CMul c e => c * offset e
  | MulC e c => offset e * c
  | DivC e c => offset e / c
  | Plus a b => offset a + offset b
  | Minus a b => offset a - offset b
  end%Q.

(** A constraint [lhs ~ rhs] is stored as [lhs - rhs ~ 0]: the coefficient
    of [x] in the constraint row, and the constant moved to the right. *)
Definition constraint_coeff (c : Constraint) (x : MPVariable) : Q :=
  match c with
  | CEq l r | CLe l r => (coeff l x - coeff r x)%Q
  end.

Definition constraint_rhs (c : Constraint) : Q :=
  match c with
  | CEq l r | CLe l r => (offset r - offset l)%Q
  end.

(** Variables occurring in an expression or a constraint. *)
Fixpoint expr_vars (e : LinearExpr) : list MPVariable :=
  match e with
  | Var v => [v]
  | Const _ => []
  | CMul _ e | MulC e _ | DivC e _ => expr_vars e
  | Plus a b | Minus a b => expr_vars a ++ expr_vars b
  end.

Definition constraint_vars (c : Constraint) : list MPVariable :=
  match c with
  | CEq l r | CLe l r => expr_vars l ++ expr_vars r
  end.

Definition mentions (x : MPVariable) (c : Constraint) : bool :=
  existsb (Nat.eqb x) (constraint_vars c).

(** Is [c] an equality whose left-hand side is the variable [x]? *)
Definition defines (x : MPVariable) (c : Constraint) : bool :=
  match c with
  | CEq (Var v) _ => Nat.eqb v x
  | _ => false
  end.

Fixpoint count {A} (p : A -> bool) (l : list A) : nat :=
  match l with
  | [] => 0
  | x :: r => ((if p x then 1 else 0) + count p r)%nat
  end.

(** Declared bounds and integrality of the variables. *)
Definition within (lb ub : Bound) (q : Q) : Prop :=
  match lb with Fin l => (l <= q)%Q | Infinity => False end /\
  match ub with Fin u => (q <= u)%Q | Infinity => True end.

Definition respects (a : Assignment) (v : MPVariable) (d : VarDecl) : Prop :=
  within (var_lb d) (var_ub d) (a v) /\
  (var_integer d = true -> exists z : Z, (a v == inject_Z z)%Q).

(** ** Closed forms of what the methods produce *)

(** The world after declaring [dv], adding [dc] and drawing [dn] variates. *)
Definition extend (w : World) (dv : list VarDecl) (dc : list Constraint) (dn : nat) : World :=
  {| solver := {| variables := variables (solver w) ++ dv;
                  constraints := constraints (solver w) ++ dc;
                  objective := objective (solver w) |};
     random := {| stream := stream (random w);
                  cursor := (cursor (random w) + dn)%nat |} |}.

Definition advance (r : RandomState) (n : nat) : RandomState :=
  {| stream := stream r; cursor := (cursor r + n)%nat |}.

Section ClosedForms.

Variable cfg : ProblemConfiguration.

Definition timeslotCount : Z := number_of_days cfg * 24.
Definition slots : nat := Z.to_nat timeslotCount.
Definition scenarios : nat := Z.to_nat (number_of_scenarios cfg).

Definition baseDecls : list VarDecl :=
  [ {| var_integer := true;
       var_lb := Fin (min_number_of_modules cfg);
       var_ub := Fin (max_number_of_modules cfg);
       var_name := Literal "numberOfModules" |};
    {| var_integer := false;
       var_lb := Fin (min_storage_size_in_kwh cfg);
       var_ub := Fin (max_storage_size_in_kwh cfg);
       var_name := Literal "sizeOfStorageInKwh" |} ].

Definition timeslotDecls (t : nat) : list VarDecl :=
  let cap := (max_storage_size_in_kwh cfg * 1000)%Q in
  let ncap := (- max_storage_size_in_kwh cfg * 1000)%Q in
  [ {| var_integer := false; var_lb := Fin 0; var_ub := Fin cap;
       var_name := TimeslotField (Z.of_nat t) "storagLevel" |};
    {| var_integer := false; var_lb := Fin ncap; var_ub := Fin cap;
       var_name := TimeslotField (Z.of_nat t) "storageEnergyDelta" |};
    {| var_integer := false; var_lb := Fin 0; var_ub := Infinity;
       var_name := TimeslotField (Z.of_nat t) "producedEnergy" |};
    {| var_integer := false; var_lb := Fin 0; var_ub := Infinity;
       var_name := TimeslotField (Z.of_nat t) "consumedEnergy" |};
    {| var_integer := false; var_lb := Fin 0; var_ub := Infinity;
       var_name := TimeslotField (Z.of_nat t) "boughtEnergy" |};
    {| var_integer := false; var_lb := Fin 0; var_ub := Infinity;
       var_name := TimeslotField (Z.of_nat t) "soldEnergy" |} ].

Definition scenarioDecls : list VarDecl := flat_map timeslotDecls (seq 0 slots).

(** The handles of the six variables of timeslot [t] when the scenario's
    first variable has index [base]. *)
Definition timeslotVars (base t : nat) : TimeslotVariables :=
  {| storageLevel := base + 6 * t;
     storageEnergyDelta := base + 6 * t + 1;
     producedEnergy := base + 6 * t + 2;
     consumedEnergy := base + 6 * t + 3;
     boughtEnergy := base + 6 * t + 4;
     soldEnergy := base + 6 * t + 5 |}%nat.

Definition scenarioDict (base n : nat) : gmap Z TimeslotVariables :=
  fold_left (fun d t => <[Z.of_nat t := timeslotVars base t]> d) (seq 0 n) ∅.

Definition scenarioBase (first s : nat) : nat := (first + 6 * slots * s)%nat.

Definition scenariosDict (first n : nat) : gmap Z (gmap Z TimeslotVariables) :=
  fold_left (fun d s => <[Z.of_nat s := scenarioDict (scenarioBase first s) slots]> d)
            (seq 0 n) ∅.

(** The sampled profiles of a scenario whose sampling starts at [r]. *)
Definition solarCoefficient (r : RandomState) (t : nat) : Q :=
  Qmin (Qmax (500 + 200 * stream r (cursor r + t)%nat) 0 * area_per_module_in_m2 cfg)
       (max_watts_per_module cfg).

Definition usageLoad (r : RandomState) (t : nat) : Q :=
  Qmax (10000 + 2000 * stream r (cursor r + slots + t)%nat) 0.

(** The constraints emitted for one timeslot, in emission order. *)
Definition productionLink (bv : BaseVariables) (base : nat) (r : RandomState) (t : nat) :=
  CEq (Var (producedEnergy (timeslotVars base t)))
      (CMul (solarCoefficient r t) (Var (numberOfModules bv))).

Definition consumptionLink (base : nat) (r : RandomState) (t : nat) :=
  CEq (Var (consumedEnergy (timeslotVars base t))) (Const (usageLoad r t)).

Definition energyBalance (base t : nat) :=
  let this := timeslotVars base t in
  CEq (Minus (Var (producedEnergy this)) (Var (consumedEnergy this)))
      (Minus (Plus (Var (soldEnergy this)) (Var (storageEnergyDelta this)))
             (Var (boughtEnergy this))).

Definition initialCondition (base : nat) :=
  CEq (Var (storageLevel (timeslotVars base 0))) (Const 0).

Definition levelRecursion (base t : nat) :=
  CEq (Var (storageLevel (timeslotVars base t)))
      (Plus (Var (storageLevel (timeslotVars base (t - 1))))
            (Var (storageEnergyDelta (timeslotVars base (t - 1))))).

Definition levelConstraint (base t : nat) :=
  match t with
  | O => initialCondition base
  | _ => levelRecursion base t
  end.

Definition capacityBound (bv : BaseVariables) (base t : nat) :=
  CLe (Var (storageLevel (timeslotVars base t)))
      (MulC (Var (sizeOfStorageInKwh bv)) 1000).

Definition timeslotConstraints (bv : BaseVariables) (base : nat) (r : RandomState)
    (t : nat) : list Constraint :=
  [ productionLink bv base r t;
    consumptionLink base r t;
    energyBalance base t;
    levelConstraint base t;
    capacityBound bv base t ].

Definition scenarioConstraints (bv : BaseVariables) (base : nat) (r : RandomState)
    : list Constraint :=
  flat_map (timeslotConstraints bv base r) (seq 0 slots).

(** Scenario [s] of the whole model: its variables start after the two
    base variables, its sampling after the profiles of the scenarios
    before it. *)
Definition theBase : BaseVariables :=
  {| numberOfModules := 0%nat; sizeOfStorageInKwh := 1%nat |}.

Definition scenarioRandom (r : RandomState) (s : nat) : RandomState :=
  advance r (2 * slots * s).

Definition modelConstraints (first : nat) (bv : BaseVariables) (r : RandomState)
    (n : nat) : list Constraint :=
  flat_map (fun s => scenarioConstraints bv (scenarioBase first s) (scenarioRandom r s))
           (seq 0 n).

Definition modelDecls (n : nat) : list VarDecl :=
  flat_map (fun _ : nat => scenarioDecls) (seq 0 n).

(** The prices sampled by [_buildObjective] when it starts at [r]. *)
Definition purchasePrice (r : RandomState) (t : nat) : Q :=
  (5 # 10) + 0 * stream r (cursor r + t)%nat.

Definition sellPrice (r : RandomState) (t : nat) : Q :=
  (12 # 100) + 0 * stream r (cursor r + slots + t)%nat.

Definition costStep (base : nat) (r : RandomState) (costs : LinearExpr) (t : nat)
    : LinearExpr :=
  Minus (Plus costs (CMul (purchasePrice r t)
                          (DivC (Var (boughtEnergy (timeslotVars base t))) 1000)))
        (CMul (sellPrice r t) (DivC (Var (soldEnergy (timeslotVars base t))) 1000)).

Definition scenarioCosts (base : nat) (r : RandomState) : LinearExpr :=
  fold_left (costStep base r) (seq 0 slots) (Const 0).

Definition investmentExpr (bv : BaseVariables) : LinearExpr :=
  Plus (MulC (Var (numberOfModules bv)) (price_per_module_in_euro cfg))
       (MulC (Var (sizeOfStorageInKwh bv)) (storage_price_per_kwh_in_euro cfg)).

Definition objectiveExpr (first : nat) (bv : BaseVariables) (r : RandomState) : LinearExpr :=
  Plus (investmentExpr bv)
       (DivC (fold_left Plus
                (map (fun s => scenarioCosts (scenarioBase first s) r) (seq 0 scenarios))
                (Const 0))
             (inject_Z (number_of_scenarios cfg))).


End ClosedForms.

Section BuiltForms.

Variable cfg : ProblemConfiguration.

Definition withObjective (w : World) (e : LinearExpr) : World :=
  {| solver := {| variables := variables (solver w);
                  constraints := constraints (solver w);
                  objective := Some e |};
     random := random w |}.

(** The solver once [buildModel] has returned. *)
Definition builtSolver (r : RandomState) : Solver :=
  {| variables := baseDecls cfg ++ modelDecls cfg (scenarios cfg);
     constraints := modelConstraints cfg 2 theBase r (scenarios cfg);
     objective := Some (objectiveExpr cfg 2 theBase
                          (scenarioRandom cfg r (scenarios cfg))) |}.

(** The world when the declaration of variables has finished. *)
Definition declaredWorld (r : RandomState) : World :=
  {| solver := {| variables := baseDecls cfg ++ modelDecls cfg (scenarios cfg);
                  constraints := [];
                  objective := None |};
     random := r |}.

Definition constrainedWorld (r : RandomState) : World :=
  {| solver := {| variables := baseDecls cfg ++ modelDecls cfg (scenarios cfg);
                  constraints := modelConstraints cfg 2 theBase r (scenarios cfg);
                  objective := None |};
     random := advance r (2 * slots cfg * scenarios cfg + 2 * slots cfg) |}.

End BuiltForms.

(** The solver of a fresh problem after [buildModel], and what the call
    returned. *)
Definition model (cfg : ProblemConfiguration) (r : RandomState) : Solver :=
  solver (snd (buildModel cfg (fresh r))).

Definition outcome (cfg : ProblemConfiguration) (r : RandomState)
  : Outcome (BaseVariables * gmap Z (gmap Z TimeslotVariables)) :=
  fst (buildModel cfg (fresh r)).

(** [scenario_variables[f'scenarioNr_{s}'][f'timeslotNr_{t}']] *)
Definition lookupSlot (sv : gmap Z (gmap Z TimeslotVariables)) (s t : Z)
  : option TimeslotVariables :=
  match sv !! s with
  | Some d => d !! t
  | None => None
  end.

(** The [j]-th constraint added while timeslot [t] of scenario [s] was
    processed: 0 production link, 1 consumption link, 2 energy balance,
    3 storage level, 4 capacity bound. *)
Definition emitted (cfg : ProblemConfiguration) (r : RandomState) (s t j : nat)
  : option Constraint :=
  nth_error (constraints (model cfg r)) (5 * (slots cfg * s + t) + j).

(** The configurations the interface admits: consistent bound pairs, at
    least one scenario and one day. *)
Definition valid_configuration (cfg : ProblemConfiguration) : Prop :=
  (min_number_of_modules cfg <= max_number_of_modules cfg)%Q /\
  (min_storage_size_in_kwh cfg <= max_storage_size_in_kwh cfg)%Q /\
  1 <= number_of_scenarios cfg /\
  1 <= number_of_days cfg.

Definition sumQ (l : list Q) : Q := fold_right Qplus 0%Q l.

(** The objective as the specification writes it, for the prices sampled
    from generator state [rp]: the recourse cost of scenario [s] and the
    investment plus equally weighted recourse costs. *)
Definition spec_recourse_cost (cfg : ProblemConfiguration) (rp : RandomState)
    (a : Assignment) (s : nat) : Q :=
  sumQ (map (fun t =>
               let this := timeslotVars (scenarioBase cfg 2 s) t in
               purchasePrice rp t * (a (boughtEnergy this) / 1000)
               - sellPrice cfg rp t * (a (soldEnergy this) / 1000))%Q
            (seq 0 (slots cfg))).

Definition spec_objective (cfg : ProblemConfiguration) (rp : RandomState)
    (a : Assignment) : Q :=
  (a (numberOfModules theBase) * price_per_module_in_euro cfg
   + a (sizeOfStorageInKwh theBase) * storage_price_per_kwh_in_euro cfg
   + sumQ (map (fun s => (1 / inject_Z (number_of_scenarios cfg))
                         * spec_recourse_cost cfg rp a s)
               (seq 0 (scenarios cfg))))%Q.

(** A point of the model used to exhibit feasibility: no modules, no
    storage, empty storage throughout, a storage delta [x] in the last
    timeslot of every scenario and none before, the sampled load consumed,
    one unit (more when [x < 0]) sold and the rest bought. Variable [v] is
    decoded into its scenario, timeslot and field. *)
Definition exampleDelta (cfg : ProblemConfiguration) (x : Q) (t : nat) : Q :=
  if Nat.eqb (S t) (slots cfg) then x else 0%Q.

Definition exampleAssignment (cfg : ProblemConfiguration) (r : RandomState) (x : Q)
  : Assignment :=
  fun v =>
    if (v <? 2)%nat then 0%Q
    else
      let k := ((v - 2) / 6)%nat in
      let s := (k / slots cfg)%nat in
      let t := (k mod slots cfg)%nat in
      let delta := exampleDelta cfg x t in
      let usage := usageLoad cfg (scenarioRandom cfg r s) t in
      let sold := (1 + Qmax 0 (- delta))%Q in
      match ((v - 2) mod 6)%nat with
      | 0%nat => 0%Q
      | 1%nat => delta
      | 2%nat => 0%Q
      | 3%nat => usage
      | 4%nat => (usage + sold + delta)%Q
      | _ => sold
      end.

(** An expression and a constraint with every variable [v] replaced by
    [f v]. *)
Fixpoint rename (f : MPVariable -> MPVariable) (e : LinearExpr) : LinearExpr :=
  match e with
  | Var v => Var (f v)
  | Const c => Const c
  | CMul c e => CMul c (rename f e)
  | MulC e c => MulC (rename f e) c
  | DivC e c => DivC (rename f e) c
  | Plus a b => Plus (rename f a) (rename f b)
  | Minus a b => Minus (rename f a) (rename f b)
  end.

Definition rename_constraint (f : MPVariable -> MPVariable) (c : Constraint)
  : Constraint :=
  match c with
  | CEq l r => CEq (rename f l) (rename f r)
  | CLe l r => CLe (rename f l) (rename f r)
  end.

(** Is [v] one of the variables declared for scenario [s]? *)
Definition inScenario (cfg : ProblemConfiguration) (s : nat) (v : MPVariable) : bool :=
  (scenarioBase cfg 2 s <=? v)%nat && (v <? scenarioBase cfg 2 (S s))%nat.

(** The variables of scenarios [s] and [s'] exchanged, position by
    position; the two base variables and the variables of every other
    scenario stay where they are. *)
Definition exchange (cfg : ProblemConfiguration) (s s' : nat) (v : MPVariable)
  : MPVariable :=
  if inScenario cfg s v then (v - scenarioBase cfg 2 s + scenarioBase cfg 2 s')%nat
  else if inScenario cfg s' v then (v - scenarioBase cfg 2 s' + scenarioBase cfg 2 s)%nat
  else v.

(** The six handles of a timeslot, in declaration order. *)
Definition fields (tv : TimeslotVariables) : list MPVariable :=
  [ storageLevel tv; storageEnergyDelta tv; producedEnergy tv;
    consumedEnergy tv; boughtEnergy tv; soldEnergy tv ].

(** The number of variates one successful build consumes. *)
Definition variatesConsumed (cfg : ProblemConfiguration) : nat :=
  (2 * slots cfg * scenarios cfg + 2 * slots cfg)%nat.

(** The two generators deliver the same next [n] variates. *)
Definition same_variates (r1 r2 : RandomState) (n : nat) : Prop :=
  forall i, (i < n)%nat -> stream r1 (cursor r1 + i) = stream r2 (cursor r2 + i).

(** ** Concrete inputs *)

(** Two scenarios of one day under the default prices and bounds. *)
Definition small_configuration : ProblemConfiguration := {|
  max_watts_per_module := 800;
  area_per_module_in_m2 := 12 # 10;
  price_per_module_in_euro := 670;
  max_number_of_modules := 100;
  min_number_of_modules := 0;
  storage_price_per_kwh_in_euro := 1400;
  min_storage_size_in_kwh := 0;
  max_storage_size_in_kwh := 1000;
  number_of_scenarios := 2;
  number_of_days := 1
|}.

(** A configuration whose two bound pairs are inverted. *)
Definition inverted_configuration : ProblemConfiguration := {|
  max_watts_per_module := 800;
  area_per_module_in_m2 := 12 # 10;
  price_per_module_in_euro := 670;
  max_number_of_modules := 1;
  min_number_of_modules := 5;
  storage_price_per_kwh_in_euro := 1400;
  min_storage_size_in_kwh := 10;
  max_storage_size_in_kwh := 2;
  number_of_scenarios := 2;
  number_of_days := 1
|}.

(** A configuration with consistent bounds whose module area is negative. *)
Definition negative_area_configuration : ProblemConfiguration := {|
  max_watts_per_module := 800;
  area_per_module_in_m2 := -1;
  price_per_module_in_euro := 670;
  max_number_of_modules := 100;
  min_number_of_modules := 0;
  storage_price_per_kwh_in_euro := 1400;
  min_storage_size_in_kwh := 0;
  max_storage_size_in_kwh := 1000;
  number_of_scenarios := 2;
  number_of_days := 1
|}.

(** A generator whose [i]-th standard variate is [(i - 60) / 20]. *)
Definition ramp : RandomState :=
  {| stream := fun i => ((inject_Z (Z.of_nat i) - 60) / 20)%Q; cursor := 0 |}.

(** The generator [ramp] seen seven variates further into another stream
    that carries the same values from there on. *)
Definition shifted_ramp : RandomState :=
  {| stream := fun i => ((inject_Z (Z.of_nat (i - 7)) - 60) / 20)%Q; cursor := 7 |}.

(** ** Assignments of the built model *)

(** [a] with the value of variable [v] changed by [d]. *)
Definition bump (a : Assignment) (v : MPVariable) (d : Q) : Assignment :=
  fun x => if Nat.eqb x v then (a x + d)%Q else a x.

(** [a] meets every constraint added to the solver. *)
Definition meets_constraints (cfg : ProblemConfiguration) (r : RandomState)
    (a : Assignment) : Prop :=
  Forall (satisfies a) (constraints (model cfg r)).

(** [a] lies within the declared bounds of every variable, integrality
    included. *)
Definition within_bounds (cfg : ProblemConfiguration) (r : RandomState)
    (a : Assignment) : Prop :=
  forall v d, nth_error (variables (model cfg r)) v = Some d -> respects a v d.

(** The value of the objective handed to [Minimize]. *)
Definition objective_value (cfg : ProblemConfiguration) (r : RandomState)
    (a : Assignment) : Q :=
  match objective (model cfg r) with
  | Some e => eval a e
  | None => 0%Q
  end.

(** What timeslot [t] of a scenario whose variables start at [base]
    contributes to the coefficient of [v] in the objective. *)
Definition costTerm (cfg : ProblemConfiguration) (base : nat) (rp : RandomState)
    (v : MPVariable) (t : nat) : Q :=
  (purchasePrice rp t
   * ((if Nat.eqb (boughtEnergy (timeslotVars base t)) v then 1 else 0) / 1000)
   - sellPrice cfg rp t
     * ((if Nat.eqb (soldEnergy (timeslotVars base t)) v then 1 else 0) / 1000))%Q.

(** ** The driver *)

(** [configuration.number_of_scenarios = n] and
    [configuration.number_of_days = n] on a configuration. *)
Definition with_scenarios (cfg : ProblemConfiguration) (n : Z) : ProblemConfiguration := {|
  max_watts_per_module := max_watts_per_module cfg;
  area_per_module_in_m2 := area_per_module_in_m2 cfg;
  price_per_module_in_euro := price_per_module_in_euro cfg;
  max_number_of_modules := max_number_of_modules cfg;
  min_number_of_modules := min_number_of_modules cfg;
  storage_price_per_kwh_in_euro := storage_price_per_kwh_in_euro cfg;
  min_storage_size_in_kwh := min_storage_size_in_kwh cfg;
  max_storage_size_in_kwh := max_storage_size_in_kwh cfg;
  number_of_scenarios := n;
  number_of_days := number_of_days cfg
|}.

Definition with_days (cfg : ProblemConfiguration) (n : Z) : ProblemConfiguration := {|
  max_watts_per_module := max_watts_per_module cfg;
  area_per_module_in_m2 := area_per_module_in_m2 cfg;
  price_per_module_in_euro := price_per_module_in_euro cfg;
  max_number_of_modules := max_number_of_modules cfg;
  min_number_of_modules := min_number_of_modules cfg;
  storage_price_per_kwh_in_euro := storage_price_per_kwh_in_euro cfg;
  min_storage_size_in_kwh := min_storage_size_in_kwh cfg;
  max_storage_size_in_kwh := max_storage_size_in_kwh cfg;
  number_of_scenarios := number_of_scenarios cfg;
  number_of_days := n
|}.

(** The configuration [main.py] builds: the defaults of
    [ProblemConfiguration()] with the attributes it then assigns. *)
Definition main_configuration : ProblemConfiguration := {|
  max_watts_per_module := max_watts_per_module default_configuration;
  area_per_module_in_m2 := area_per_module_in_m2 default_configuration;
  price_per_module_in_euro := 850;
  max_number_of_modules := 200;
  min_number_of_modules := 0;
  storage_price_per_kwh_in_euro := 50;
  min_storage_size_in_kwh := 0;
  max_storage_size_in_kwh := 100;
  number_of_scenarios := 5;
  number_of_days := 365
|}.

(** What [main.py] prints after [problem.buildModel()]:
    [problem.solver.NumVariables()] and [problem.solver.NumConstraints()]. *)
Definition main_report (r : RandomState) : Z * Z :=
  (Z.of_nat (NumVariables (model main_configuration r)),
   Z.of_nat (NumConstraints (model main_configuration r))).

(** ** Reasoning principles *)

Lemma bind_ok {A B} (m : Build A) (k : A -> Build B) w a w' :
  m w = (Ok a, w') -> bind m k w = k a w'.
Proof. intros H. unfold bind. now rewrite H. Qed.

Lemma bind_raise {A B} (m : Build A) (k : A -> Build B) w e w' :
  m w = (Raise e, w') -> bind m k w = (Raise e, w').
Proof. intros H. unfold bind. now rewrite H. Qed.

Lemma extend_nil w : extend w [] [] 0 = w.
Proof.
  destruct w as [[v c o] [st cu]]. unfold extend. cbn.
  now rewrite !app_nil_r, Nat.add_0_r.
Qed.

Lemma extend_extend w dv dc dn dv' dc' dn' :
  extend (extend w dv dc dn) dv' dc' dn' = extend w (dv ++ dv') (dc ++ dc') (dn + dn').
Proof.
  unfold extend. cbn. now rewrite !app_assoc, Nat.add_assoc.
Qed.

Lemma extend_eq {A} (a : A) w dv dc dn dc' dn' :
  dc = dc' -> dn = dn' -> (Ok a, extend w dv dc dn) = (Ok a, extend w dv dc' dn').
Proof. now intros -> ->. Qed.

Lemma MakeVar_extend i lb ub name w :
  MakeVar i lb ub name w =
  (Ok (length (variables (solver w))),
   extend w [{| var_integer := i; var_lb := lb; var_ub := ub; var_name := name |}] [] 0).
Proof.
  unfold MakeVar, extend. destruct w as [[v c o] [st cu]]. cbn.
  now rewrite app_nil_r, Nat.add_0_r.
Qed.

Lemma Add_extend c w : Add c w = (Ok tt, extend w [] [c] 0).
Proof.
  unfold Add, extend. destruct w as [[v cs o] [st cu]]. cbn.
  now rewrite app_nil_r, Nat.add_0_r.
Qed.

Lemma np_random_normal_extend loc scale size w :
  0 <= size ->
  np_random_normal loc scale size w =
  (Ok (map (fun i => (loc + scale * stream (random w) (cursor (random w) + i)%nat)%Q)
           (seq 0 (Z.to_nat size))),
   extend w [] [] (Z.to_nat size)).
Proof.
  intros H. unfold np_random_normal, extend.
  destruct (Z.ltb_spec size 0); [lia |].
  destruct w as [[v cs o] [st cu]]. cbn. now rewrite !app_nil_r.
Qed.

Lemma np_random_normal_negative loc scale size w :
  size < 0 -> np_random_normal loc scale size w = (Raise ValueError, w).
Proof.
  intros H. unfold np_random_normal. destruct (Z.ltb_spec size 0); [reflexivity | lia].
Qed.

Lemma np_getitem_nth (a : list Q) (k : nat) x w :
  nth_error a k = Some x -> np_getitem a (Z.of_nat k) w = (Ok x, w).
Proof.
  intros H. unfold np_getitem.
  assert (k < length a)%nat by (apply nth_error_Some; congruence).
  destruct (Z.ltb_spec (Z.of_nat k) 0); [lia |].
  destruct (Z.leb_spec 0 (Z.of_nat k)); [| lia].
  destruct (Z.ltb_spec (Z.of_nat k) (Z.of_nat (length a))); [| lia].
  cbn. now rewrite Nat2Z.id, H.
Qed.

Lemma getitem_some {V} (d : gmap Z V) k v w :
  d !! k = Some v -> getitem d k w = (Ok v, w).
Proof. intros H. unfold getitem. now rewrite H. Qed.

(** A loop over [range n] whose [k]-th iteration takes accumulator [F k]
    and world [W k] to [F (k+1)] and [W (k+1)]. *)
Lemma foldM_range_from {A} (body : A -> Z -> Build A) (F : nat -> A) (W : nat -> World) :
  forall m i,
    (forall k, (i <= k < i + m)%nat ->
               body (F k) (Z.of_nat k) (W k) = (Ok (F (S k)), W (S k))) ->
    foldM body (map Z.of_nat (seq i m)) (F i) (W i) = (Ok (F (i + m)%nat), W (i + m)%nat).
Proof.
  induction m as [| m IH]; intros i Hstep.
  - cbn. now rewrite Nat.add_0_r.
  - cbn [seq map foldM].
    rewrite (bind_ok _ _ _ _ _ (Hstep i ltac:(lia))).
    rewrite IH by (intros; apply Hstep; lia).
    now replace (S i + m)%nat with (i + S m)%nat by lia.
Qed.

Lemma foldM_range {A} (body : A -> Z -> Build A) (F : nat -> A) (W : nat -> World) n :
  (forall k, (k < Z.to_nat n)%nat ->
             body (F k) (Z.of_nat k) (W k) = (Ok (F (S k)), W (S k))) ->
  foldM body (range n) (F 0%nat) (W 0%nat) = (Ok (F (Z.to_nat n)), W (Z.to_nat n)).
Proof.
  intros H. unfold range.
  apply (foldM_range_from body F W (Z.to_nat n) 0). intros; apply H; lia.
Qed.

Lemma for_range (body : Z -> Build unit) (W : nat -> World) n :
  (forall k, (k < Z.to_nat n)%nat -> body (Z.of_nat k) (W k) = (Ok tt, W (S k))) ->
  for_ (range n) body (W 0%nat) = (Ok tt, W (Z.to_nat n)).
Proof.
  intros H. unfold for_.
  apply (foldM_range (fun _ x => body x) (fun _ => tt) W n H).
Qed.

Lemma for_range_between (body : Z -> Build unit) (W : nat -> World) n w0 wn :
  w0 = W 0%nat -> wn = W (Z.to_nat n) ->
  (forall k, (k < Z.to_nat n)%nat -> body (Z.of_nat k) (W k) = (Ok tt, W (S k))) ->
  for_ (range n) body w0 = (Ok tt, wn).
Proof. intros -> ->. apply for_range. Qed.

Lemma range_nonpositive n : n <= 0 -> range n = [].
Proof. intros H. unfold range. now replace (Z.to_nat n) with 0%nat by lia. Qed.

Lemma range_positive n : 0 < n -> exists r, range n = 0 :: r.
Proof.
  intros H. unfold range. destruct (Z.to_nat n) eqn:E; [lia |].
  cbn. eauto.
Qed.

(** Counting over a concatenation of blocks. *)
Lemma count_app {A} (p : A -> bool) l1 l2 :
  count p (l1 ++ l2) = (count p l1 + count p l2)%nat.
Proof. induction l1 as [| x l1 IH]; cbn; [reflexivity | rewrite IH; lia]. Qed.

Lemma count_flat_map_zero {A B} (p : B -> bool) (f : A -> list B) l :
  (forall x, In x l -> count p (f x) = 0%nat) -> count p (flat_map f l) = 0%nat.
Proof.
  induction l as [| x l IH]; intros H; cbn; [reflexivity |].
  rewrite count_app.
  rewrite H by (left; reflexivity).
  rewrite IH by (intros; apply H; right; assumption).
  reflexivity.
Qed.

Lemma count_flat_map_single {A} (p : A -> bool) (f : nat -> list A) n k c :
  (k < n)%nat ->
  count p (f k) = c ->
  (forall i, (i < n)%nat -> i <> k -> count p (f i) = 0%nat) ->
  count p (flat_map f (seq 0 n)) = c.
Proof.
  intros Hk Hc Hz.
  replace n with (k + S (n - k - 1))%nat by lia.
  rewrite seq_app, flat_map_app, count_app. cbn [seq flat_map Nat.add].
  rewrite count_app.
  rewrite Hc.
  rewrite !count_flat_map_zero; [lia | |].
  - intros i Hi. apply in_seq in Hi. apply Hz; lia.
  - intros i Hi. apply in_seq in Hi. apply Hz; lia.
Qed.

Lemma length_flat_map_const {A B} (f : A -> list B) l n :
  (forall x, length (f x) = n) -> length (flat_map f l) = (n * length l)%nat.
Proof.
  intros H. induction l as [| x l IH]; cbn; [lia |].
  rewrite length_app, H, IH. lia.
Qed.

Lemma nth_error_flat_map_block {A} (f : nat -> list A) m n i j :
  (forall x, length (f x) = m) -> (i < n)%nat -> (j < m)%nat ->
  nth_error (flat_map f (seq 0 n)) (m * i + j) = nth_error (f i) j.
Proof.
  intros Hlen Hi Hj.
  replace n with (i + S (n - i - 1))%nat by lia.
  rewrite seq_app, flat_map_app. cbn [seq flat_map Nat.add].
  rewrite nth_error_app2; rewrite (length_flat_map_const f _ m Hlen), length_seq; [| lia].
  replace (m * i + j - m * i)%nat with j by lia.
  apply nth_error_app1. rewrite Hlen. exact Hj.
Qed.

(** ** What each method does *)

Section Runs.

Variable cfg : ProblemConfiguration.

Lemma scenarioDict_succ base n :
  scenarioDict base (S n) = <[Z.of_nat n := timeslotVars base n]> (scenarioDict base n).
Proof. unfold scenarioDict. now rewrite seq_S, fold_left_app. Qed.

Lemma scenarioDict_lookup base n t :
  (t < n)%nat -> scenarioDict base n !! Z.of_nat t = Some (timeslotVars base t).
Proof.
  induction n as [| n IH]; intros H; [lia |].
  rewrite scenarioDict_succ.
  destruct (Nat.eq_dec t n) as [-> | Hne].
  - apply lookup_insert_eq.
  - rewrite lookup_insert_ne by lia. apply IH. lia.
Qed.

Lemma scenariosDict_succ first n :
  scenariosDict cfg first (S n) =
  <[Z.of_nat n := scenarioDict (scenarioBase cfg first n) (slots cfg)]>
    (scenariosDict cfg first n).
Proof. unfold scenariosDict. now rewrite seq_S, fold_left_app. Qed.

Lemma scenariosDict_lookup first n s :
  (s < n)%nat ->
  scenariosDict cfg first n !! Z.of_nat s =
  Some (scenarioDict (scenarioBase cfg first s) (slots cfg)).
Proof.
  induction n as [| n IH]; intros H; [lia |].
  rewrite scenariosDict_succ.
  destruct (Nat.eq_dec s n) as [-> | Hne].
  - apply lookup_insert_eq.
  - rewrite lookup_insert_ne by lia. apply IH. lia.
Qed.

Lemma length_scenarioDecls_upto n :
  length (flat_map (timeslotDecls cfg) (seq 0 n)) = (6 * n)%nat.
Proof.
  rewrite (length_flat_map_const _ _ 6) by reflexivity. now rewrite length_seq.
Qed.

Lemma length_scenarioDecls : length (scenarioDecls cfg) = (6 * slots cfg)%nat.
Proof. apply length_scenarioDecls_upto. Qed.

Lemma length_modelDecls n : length (modelDecls cfg n) = (6 * slots cfg * n)%nat.
Proof.
  unfold modelDecls.
  rewrite (length_flat_map_const _ _ (6 * slots cfg)) by (intros; apply length_scenarioDecls).
  now rewrite length_seq.
Qed.

Lemma buildBaseVariables_run w :
  _buildBaseVariables cfg w =
  (Ok {| numberOfModules := length (variables (solver w));
         sizeOfStorageInKwh := S (length (variables (solver w))) |},
   extend w (baseDecls cfg) [] 0).
Proof.
  unfold _buildBaseVariables, IntVar, NumVar.
  rewrite (bind_ok _ _ _ _ _ (MakeVar_extend _ _ _ _ _)).
  rewrite (bind_ok _ _ _ _ _ (MakeVar_extend _ _ _ _ _)).
  rewrite extend_extend. unfold ret. cbn [extend solver variables].
  rewrite length_app. cbn [length app Nat.add].
  now replace (length (variables (solver w)) + 1)%nat
    with (S (length (variables (solver w)))) by lia.
Qed.

Lemma buildScenarioVariablesForScenario_run scenario w :
  _buildScenarioVariablesForScenario cfg scenario w =
  (Ok (scenarioDict (length (variables (solver w))) (slots cfg)),
   extend w (scenarioDecls cfg) [] 0).
Proof.
  unfold _buildScenarioVariablesForScenario.
  set (base := length (variables (solver w))).
  rewrite <- (extend_nil w) at 1.
  apply (foldM_range _ (fun k => scenarioDict base k)
           (fun k => extend w (flat_map (timeslotDecls cfg) (seq 0 k)) [] 0)).
  intros k Hk. unfold NumVar.
  repeat (rewrite (bind_ok _ _ _ _ _ (MakeVar_extend _ _ _ _ _)); rewrite extend_extend).
  unfold ret. rewrite scenarioDict_succ, seq_S, flat_map_app.
  cbn [extend solver variables flat_map Nat.add].
  rewrite !length_app, length_scenarioDecls_upto. cbn [length app Nat.add].
  fold base. unfold timeslotVars.
  rewrite <- !app_assoc, app_nil_r. cbn [app]. unfold timeslotDecls.
  f_equal. do 2 f_equal. f_equal; lia.
Qed.

Lemma buildScenarioVariables_run w :
  _buildScenarioVariables cfg w =
  (Ok (scenariosDict cfg (length (variables (solver w))) (scenarios cfg)),
   extend w (modelDecls cfg (scenarios cfg)) [] 0).
Proof.
  unfold _buildScenarioVariables.
  set (first := length (variables (solver w))).
  rewrite <- (extend_nil w) at 1.
  apply (foldM_range _ (fun k => scenariosDict cfg first k)
           (fun k => extend w (modelDecls cfg k) [] 0)).
  intros k Hk.
  rewrite (bind_ok _ _ _ _ _ (buildScenarioVariablesForScenario_run _ _)).
  unfold ret. rewrite extend_extend, scenariosDict_succ.
  cbn [extend solver variables Nat.add app].
  rewrite length_app, length_modelDecls. fold first.
  unfold modelDecls. rewrite seq_S, flat_map_app.
  cbn [flat_map]. rewrite app_nil_r.
  unfold scenarioBase. reflexivity.
Qed.

End Runs.

Section ConstraintRuns.

Variable cfg : ProblemConfiguration.

Lemma solar_profile_nth (r : RandomState) k :
  (k < slots cfg)%nat ->
  nth_error
    (np_minimum
       (np_times
          (np_maximum
             (map (fun i => (500 + 200 * stream r (cursor r + i)%nat)%Q)
                  (seq 0 (slots cfg))) 0)
          (area_per_module_in_m2 cfg))
       (max_watts_per_module cfg)) k
  = Some (solarCoefficient cfg r k).
Proof.
  intros H. unfold np_minimum, np_times, np_maximum.
  rewrite !nth_error_map, nth_error_seq.
  destruct (Nat.ltb_spec k (slots cfg)); [reflexivity | lia].
Qed.

Lemma usage_profile_nth (r : RandomState) k :
  (k < slots cfg)%nat ->
  nth_error
    (np_maximum
       (map (fun i => (10000 + 2000 * stream r (cursor r + slots cfg + i)%nat)%Q)
            (seq 0 (slots cfg))) 0) k
  = Some (usageLoad cfg r k).
Proof.
  intros H. unfold np_maximum.
  rewrite !nth_error_map, nth_error_seq.
  destruct (Nat.ltb_spec k (slots cfg)); [reflexivity | lia].
Qed.

Lemma buildScenarioConstraints_run bv base w :
  0 <= timeslotCount cfg ->
  _buildScenarioConstraints cfg bv (scenarioDict base (slots cfg)) w =
  (Ok tt, extend w [] (scenarioConstraints cfg bv base (random w)) (2 * slots cfg)).
Proof.
  intros HT. unfold _buildScenarioConstraints.
  fold (timeslotCount cfg).
  rewrite (bind_ok _ _ _ _ _ (np_random_normal_extend _ _ _ _ HT)).
  rewrite (bind_ok _ _ _ _ _ (np_random_normal_extend _ _ _ _ HT)).
  rewrite extend_extend. fold (slots cfg).
  cbn [extend random stream cursor app].
  set (r := random w).
  replace (slots cfg + slots cfg)%nat with (2 * slots cfg)%nat by lia.
  apply (for_range _
           (fun k => extend w []
                       (flat_map (timeslotConstraints cfg bv base r) (seq 0 k))
                       (2 * slots cfg))).
  fold (slots cfg). intros k Hk.
  rewrite (bind_ok _ _ _ _ _ (getitem_some _ _ _ _ (scenarioDict_lookup base _ k Hk))).
  rewrite (bind_ok _ _ _ _ _ (np_getitem_nth _ _ _ _ (solar_profile_nth r k Hk))).
  rewrite (bind_ok _ _ _ _ _ (Add_extend _ _)), extend_extend.
  rewrite (bind_ok _ _ _ _ _ (np_getitem_nth _ _ _ _ (usage_profile_nth r k Hk))).
  rewrite (bind_ok _ _ _ _ _ (Add_extend _ _)), extend_extend.
  rewrite (bind_ok _ _ _ _ _ (Add_extend _ _)), extend_extend.
  rewrite seq_S, flat_map_app. cbn [flat_map Nat.add app].
  rewrite app_nil_r.
  destruct k as [| k'].
  - change (Z.of_nat 0 =? 0) with true. cbn [negb].
    rewrite (bind_ok _ _ _ _ _ (Add_extend _ _)), extend_extend.
    unfold ret at 1. unfold bind at 1.
    rewrite Add_extend, extend_extend.
    apply extend_eq; [| lia].
    rewrite <- !app_assoc. reflexivity.
  - destruct (Z.eqb_spec (Z.of_nat (S k')) 0) as [E | _]; [lia |].
    cbn [negb]. unfold ret at 1. unfold bind at 1.
    replace (Z.of_nat (S k') - 1) with (Z.of_nat k') by lia.
    assert (Hrec : forall w0,
               (last <- getitem (scenarioDict base (slots cfg)) (Z.of_nat k') ;;
                Add (CEq (Var (storageLevel (timeslotVars base (S k'))))
                         (Plus (Var (storageLevel last))
                               (Var (storageEnergyDelta last))))) w0
               = (Ok tt, extend w0 [] [levelRecursion base (S k')] 0)).
    { intros w0.
      rewrite (bind_ok _ _ _ _ _
                 (getitem_some _ _ _ _
                    (scenarioDict_lookup base (slots cfg) k' ltac:(lia)))).
      rewrite Add_extend. unfold levelRecursion.
      now replace (S k' - 1)%nat with k' by lia. }
    rewrite (bind_ok _ _ _ _ _ (Hrec _)), extend_extend.
    rewrite Add_extend, extend_extend.
    apply extend_eq; [| lia].
    rewrite <- !app_assoc. reflexivity.
Qed.

Lemma buildConstraints_run bv first w :
  0 <= timeslotCount cfg ->
  _buildConstraints cfg bv (scenariosDict cfg first (scenarios cfg)) w =
  (Ok tt, extend w [] (modelConstraints cfg first bv (random w) (scenarios cfg))
                 (2 * slots cfg * scenarios cfg)).
Proof.
  intros HT. unfold _buildConstraints.
  apply (for_range_between _
           (fun k => extend w [] (modelConstraints cfg first bv (random w) k)
                       (2 * slots cfg * k))).
  { rewrite Nat.mul_0_r. symmetry. apply extend_nil. }
  { reflexivity. }
  fold (scenarios cfg). intros k Hk.
  rewrite (bind_ok _ _ _ _ _ (getitem_some _ _ _ _ (scenariosDict_lookup cfg first _ k Hk))).
  rewrite buildScenarioConstraints_run by exact HT.
  rewrite extend_extend. unfold modelConstraints.
  rewrite seq_S, flat_map_app. cbn [flat_map Nat.add app extend random].
  rewrite app_nil_r. unfold scenarioRandom, advance.
  do 2 f_equal. lia.
Qed.

End ConstraintRuns.

Section ObjectiveRuns.

Variable cfg : ProblemConfiguration.


Lemma purchase_prices_nth (r : RandomState) k :
  (k < slots cfg)%nat ->
  nth_error (map (fun i => ((5 # 10) + 0 * stream r (cursor r + i)%nat)%Q)
                 (seq 0 (slots cfg))) k
  = Some (purchasePrice r k).
Proof.
  intros H. rewrite nth_error_map, nth_error_seq.
  destruct (Nat.ltb_spec k (slots cfg)); [reflexivity | lia].
Qed.

Lemma selling_prices_nth (r : RandomState) k :
  (k < slots cfg)%nat ->
  nth_error (map (fun i => ((12 # 100) + 0 * stream r (cursor r + slots cfg + i)%nat)%Q)
                 (seq 0 (slots cfg))) k
  = Some (sellPrice cfg r k).
Proof.
  intros H. rewrite nth_error_map, nth_error_seq.
  destruct (Nat.ltb_spec k (slots cfg)); [reflexivity | lia].
Qed.

Lemma calculate_scenario_costs_run base (r : RandomState) w :
  _calculate_scenario_costs cfg (scenarioDict base (slots cfg))
    (map (fun i => ((5 # 10) + 0 * stream r (cursor r + i)%nat)%Q) (seq 0 (slots cfg)))
    (map (fun i => ((12 # 100) + 0 * stream r (cursor r + slots cfg + i)%nat)%Q)
         (seq 0 (slots cfg))) w
  = (Ok (scenarioCosts cfg base r), w).
Proof.
  unfold _calculate_scenario_costs, scenarioCosts.
  apply (foldM_range _ (fun k => fold_left (costStep cfg base r) (seq 0 k) (Const 0))
           (fun _ => w)).
  fold (timeslotCount cfg). fold (slots cfg). intros k Hk.
  rewrite (bind_ok _ _ _ _ _ (np_getitem_nth _ _ _ _ (purchase_prices_nth r k Hk))).
  rewrite (bind_ok _ _ _ _ _ (getitem_some _ _ _ _ (scenarioDict_lookup base _ k Hk))).
  rewrite (bind_ok _ _ _ _ _ (np_getitem_nth _ _ _ _ (selling_prices_nth r k Hk))).
  rewrite (bind_ok _ _ _ _ _ (getitem_some _ _ _ _ (scenarioDict_lookup base _ k Hk))).
  unfold ret. now rewrite seq_S, fold_left_app.
Qed.

(** Everything [_buildObjective] does before the division. *)
Lemma buildObjective_costs first (r : RandomState) w :
  foldM (fun scenario_costs scenario =>
           current_scenario_variables <-
             getitem (scenariosDict cfg first (scenarios cfg)) scenario ;;
           c <- _calculate_scenario_costs cfg current_scenario_variables
                  (map (fun i => ((5 # 10) + 0 * stream r (cursor r + i)%nat)%Q)
                       (seq 0 (slots cfg)))
                  (map (fun i => ((12 # 100) + 0 * stream r (cursor r + slots cfg + i)%nat)%Q)
                       (seq 0 (slots cfg))) ;;
           ret (scenario_costs ++ [c]))
        (range (number_of_scenarios cfg)) [] w
  = (Ok (map (fun s => scenarioCosts cfg (scenarioBase cfg first s) r)
             (seq 0 (scenarios cfg))), w).
Proof.
  apply (foldM_range _
           (fun k => map (fun s => scenarioCosts cfg (scenarioBase cfg first s) r) (seq 0 k))
           (fun _ => w)).
  fold (scenarios cfg). intros k Hk.
  rewrite (bind_ok _ _ _ _ _ (getitem_some _ _ _ _ (scenariosDict_lookup cfg first _ k Hk))).
  rewrite (bind_ok _ _ _ _ _ (calculate_scenario_costs_run _ _ _)).
  unfold ret. now rewrite seq_S, map_app.
Qed.

Lemma buildObjective_run bv first w :
  0 <= timeslotCount cfg ->
  _buildObjective cfg bv (scenariosDict cfg first (scenarios cfg)) w =
  if number_of_scenarios cfg =? 0
  then (Raise ZeroDivisionError, extend w [] [] (2 * slots cfg))
  else (Ok tt, withObjective (extend w [] [] (2 * slots cfg))
                             (objectiveExpr cfg first bv (random w))).
Proof.
  intros HT. unfold _buildObjective. fold (timeslotCount cfg).
  rewrite (bind_ok _ _ _ _ _ (np_random_normal_extend _ _ _ _ HT)).
  rewrite (bind_ok _ _ _ _ _ (np_random_normal_extend _ _ _ _ HT)).
  rewrite extend_extend. fold (slots cfg).
  cbn [extend random stream cursor app].
  replace (slots cfg + slots cfg)%nat with (2 * slots cfg)%nat by lia.
  rewrite (bind_ok _ _ _ _ _ (buildObjective_costs first (random w) _)).
  unfold truediv.
  destruct (number_of_scenarios cfg =? 0).
  - reflexivity.
  - reflexivity.
Qed.

Lemma buildObjective_negative bv sv w :
  timeslotCount cfg < 0 -> _buildObjective cfg bv sv w = (Raise ValueError, w).
Proof.
  intros HT. unfold _buildObjective. fold (timeslotCount cfg).
  now rewrite (bind_raise _ _ _ _ _ (np_random_normal_negative _ _ _ _ HT)).
Qed.

End ObjectiveRuns.

Section ModelRuns.

Variable cfg : ProblemConfiguration.

Lemma buildScenarioConstraints_negative bv d w :
  timeslotCount cfg < 0 ->
  _buildScenarioConstraints cfg bv d w = (Raise ValueError, w).
Proof.
  intros HT. unfold _buildScenarioConstraints. fold (timeslotCount cfg).
  now rewrite (bind_raise _ _ _ _ _ (np_random_normal_negative _ _ _ _ HT)).
Qed.

Lemma buildConstraints_negative bv first w :
  timeslotCount cfg < 0 ->
  _buildConstraints cfg bv (scenariosDict cfg first (scenarios cfg)) w =
  if 0 <? number_of_scenarios cfg then (Raise ValueError, w) else (Ok tt, w).
Proof.
  intros HT. unfold _buildConstraints.
  destruct (Z.ltb_spec 0 (number_of_scenarios cfg)) as [Hpos | Hneg].
  - destruct (range_positive _ Hpos) as [rest ->].
    unfold for_. cbn [foldM].
    assert (H0 : (0 < scenarios cfg)%nat) by (unfold scenarios; lia).
    pose proof (scenariosDict_lookup cfg first _ 0%nat H0) as Hl.
    change (Z.of_nat 0) with 0 in Hl.
    rewrite (bind_raise _ _ _ _ _
               (eq_trans (bind_ok _ _ _ _ _ (getitem_some _ _ _ _ Hl))
                         (buildScenarioConstraints_negative _ _ _ HT))).
    reflexivity.
  - now rewrite range_nonpositive by exact Hneg.
Qed.


(** The complete behaviour of [buildModel] on a fresh problem. *)
Lemma buildModel_run (r : RandomState) :
  buildModel cfg (fresh r) =
  if timeslotCount cfg <? 0 then (Raise ValueError, declaredWorld cfg r)
  else if number_of_scenarios cfg =? 0
       then (Raise ZeroDivisionError, constrainedWorld cfg r)
       else (Ok (theBase, scenariosDict cfg 2 (scenarios cfg)),
             {| solver := builtSolver cfg r;
                random := advance r (2 * slots cfg * scenarios cfg + 2 * slots cfg) |}).
Proof.
  unfold buildModel.
  rewrite (bind_ok _ _ _ _ _ (buildBaseVariables_run cfg _)).
  rewrite (bind_ok _ _ _ _ _ (buildScenarioVariables_run cfg _)).
  rewrite extend_extend.
  cbn [fresh extend solver CreateSolver variables length app Nat.add].
  change {| numberOfModules := 0%nat; sizeOfStorageInKwh := 1%nat |} with theBase.
  change (length (baseDecls cfg)) with 2%nat.
  destruct (Z.ltb_spec (timeslotCount cfg) 0) as [Hneg | Hpos].
  - unfold bind at 1. rewrite buildConstraints_negative by exact Hneg.
    destruct (0 <? number_of_scenarios cfg).
    + unfold declaredWorld, extend, fresh. destruct r as [st cu]. cbn.
      now rewrite Nat.add_0_r.
    + rewrite (bind_raise _ _ _ _ _ (buildObjective_negative cfg _ _ _ Hneg)).
      unfold declaredWorld, extend, fresh. destruct r as [st cu]. cbn.
      now rewrite Nat.add_0_r.
  - rewrite (bind_ok _ _ _ _ _ (buildConstraints_run cfg _ _ _ Hpos)).
    rewrite extend_extend.
    unfold bind at 1. rewrite (buildObjective_run cfg _ _ _ Hpos).
    destruct (number_of_scenarios cfg =? 0).
    + rewrite extend_extend.
      unfold constrainedWorld, advance, extend, fresh.
      destruct r as [st cu]. cbn. now rewrite !app_nil_r, !Nat.add_0_r.
    + unfold ret. rewrite extend_extend.
      unfold withObjective, builtSolver, scenarioRandom, advance, extend, fresh.
      destruct r as [st cu]. cbn. now rewrite !app_nil_r, !Nat.add_0_r.
Qed.

End ModelRuns.

(** ** The built model *)

Lemma scenarios_apart (n s s' : nat) :
  s <> s' -> (n * s + n <= n * s' \/ n * s' + n <= n * s)%nat.
Proof.
  intros H. destruct (Nat.lt_trichotomy s s') as [Hlt | [Heq | Hgt]]; [| contradiction |].
  - left. replace (n * s + n)%nat with (n * S s)%nat by lia.
    apply Nat.mul_le_mono_l. lia.
  - right. replace (n * s' + n)%nat with (n * S s')%nat by lia.
    apply Nat.mul_le_mono_l. lia.
Qed.

Section BuiltModel.

Variable cfg : ProblemConfiguration.

Lemma model_built (r : RandomState) :
  0 <= timeslotCount cfg -> number_of_scenarios cfg <> 0 ->
  model cfg r = builtSolver cfg r /\
  outcome cfg r = Ok (theBase, scenariosDict cfg 2 (scenarios cfg)).
Proof.
  intros HT HS. unfold model, outcome. rewrite buildModel_run.
  destruct (Z.ltb_spec (timeslotCount cfg) 0); [lia |].
  destruct (Z.eqb_spec (number_of_scenarios cfg) 0); [lia |].
  split; reflexivity.
Qed.

Lemma valid_runs : valid_configuration cfg ->
  0 <= timeslotCount cfg /\ number_of_scenarios cfg <> 0.
Proof. unfold valid_configuration, timeslotCount. lia. Qed.

Lemma indices_run (s t : nat) :
  (s < scenarios cfg)%nat -> (t < slots cfg)%nat ->
  0 <= timeslotCount cfg /\ number_of_scenarios cfg <> 0.
Proof. unfold scenarios, slots. lia. Qed.

Lemma lookupSlot_built (s t : nat) :
  (s < scenarios cfg)%nat -> (t < slots cfg)%nat ->
  lookupSlot (scenariosDict cfg 2 (scenarios cfg)) (Z.of_nat s) (Z.of_nat t)
  = Some (timeslotVars (scenarioBase cfg 2 s) t).
Proof.
  intros Hs Ht. unfold lookupSlot.
  rewrite (scenariosDict_lookup cfg 2 _ s Hs).
  now apply scenarioDict_lookup.
Qed.

Lemma length_scenarioConstraints bv base r :
  length (scenarioConstraints cfg bv base r) = (5 * slots cfg)%nat.
Proof.
  unfold scenarioConstraints.
  rewrite (length_flat_map_const _ _ 5) by reflexivity. now rewrite length_seq.
Qed.

Lemma length_modelConstraints first bv r n :
  length (modelConstraints cfg first bv r n) = (5 * slots cfg * n)%nat.
Proof.
  unfold modelConstraints.
  rewrite (length_flat_map_const _ _ (5 * slots cfg))
    by (intros; apply length_scenarioConstraints).
  now rewrite length_seq.
Qed.

Lemma emitted_built (r : RandomState) (s t j : nat) :
  (s < scenarios cfg)%nat -> (t < slots cfg)%nat -> (j < 5)%nat ->
  emitted cfg r s t j =
  nth_error (timeslotConstraints cfg theBase (scenarioBase cfg 2 s)
               (scenarioRandom cfg r s) t) j.
Proof.
  intros Hs Ht Hj. unfold emitted.
  destruct (indices_run s t Hs Ht) as [HT HS].
  rewrite (proj1 (model_built r HT HS)). cbn [builtSolver constraints].
  unfold modelConstraints.
  replace (5 * (slots cfg * s + t) + j)%nat
    with (5 * slots cfg * s + (5 * t + j))%nat by lia.
  rewrite (nth_error_flat_map_block _ (5 * slots cfg))
    by (try lia; intros; apply length_scenarioConstraints).
  unfold scenarioConstraints.
  now rewrite (nth_error_flat_map_block _ 5) by (try lia; reflexivity).
Qed.

Lemma nth_error_modelDecls (n s t j : nat) :
  (s < n)%nat -> (t < slots cfg)%nat -> (j < 6)%nat ->
  nth_error (modelDecls cfg n) (6 * slots cfg * s + 6 * t + j)
  = nth_error (timeslotDecls cfg t) j.
Proof.
  intros Hs Ht Hj. unfold modelDecls.
  replace (6 * slots cfg * s + 6 * t + j)%nat
    with (6 * slots cfg * s + (6 * t + j))%nat by lia.
  rewrite (nth_error_flat_map_block _ (6 * slots cfg))
    by (try lia; intros; apply length_scenarioDecls).
  unfold scenarioDecls.
  now rewrite (nth_error_flat_map_block _ 6) by (try lia; reflexivity).
Qed.

Lemma declared_fields (s t : nat) :
  (s < scenarios cfg)%nat -> (t < slots cfg)%nat ->
  map (nth_error (baseDecls cfg ++ modelDecls cfg (scenarios cfg)))
      (fields (timeslotVars (scenarioBase cfg 2 s) t))
  = map Some (timeslotDecls cfg t).
Proof.
  intros Hs Ht.
  assert (H : forall j, (j < 6)%nat ->
            nth_error (baseDecls cfg ++ modelDecls cfg (scenarios cfg))
                      (scenarioBase cfg 2 s + 6 * t + j)
            = nth_error (timeslotDecls cfg t) j).
  { intros j Hj. rewrite nth_error_app2 by (cbn [baseDecls length]; unfold scenarioBase; lia).
    cbn [baseDecls length]. unfold scenarioBase.
    replace (2 + 6 * slots cfg * s + 6 * t + j - 2)%nat
      with (6 * slots cfg * s + 6 * t + j)%nat by lia.
    now apply nth_error_modelDecls. }
  unfold fields, timeslotVars.
  cbn [map storageLevel storageEnergyDelta producedEnergy consumedEnergy
         boughtEnergy soldEnergy].
  rewrite <- (Nat.add_0_r (scenarioBase cfg 2 s + 6 * t)) at 1.
  rewrite !H by lia. reflexivity.
Qed.

Lemma fields_apart (s t s' t' : nat) (v : MPVariable) :
  (t < slots cfg)%nat -> (t' < slots cfg)%nat ->
  In v (fields (timeslotVars (scenarioBase cfg 2 s) t)) ->
  In v (fields (timeslotVars (scenarioBase cfg 2 s') t')) ->
  s = s' /\ t = t'.
Proof.
  intros Ht Ht' H H'. unfold fields, timeslotVars, scenarioBase in *.
  cbn [In storageLevel storageEnergyDelta producedEnergy consumedEnergy
         boughtEnergy soldEnergy] in *.
  destruct (Nat.eq_dec s s') as [-> | Hne].
  - split; [reflexivity |].
    destruct H as [<- | [<- | [<- | [<- | [<- | [<- | []]]]]]];
      destruct H' as [E | [E | [E | [E | [E | [E | []]]]]]]; lia.
  - exfalso. destruct (scenarios_apart (slots cfg) s s' Hne);
      destruct H as [<- | [<- | [<- | [<- | [<- | [<- | []]]]]]];
      destruct H' as [E | [E | [E | [E | [E | [E | []]]]]]]; lia.
Qed.

End BuiltModel.

(** ** Handles and counting *)

(** Settle every test [Nat.eqb a b] of the goal by linear arithmetic. *)
Ltac settle_eqb :=
  repeat match goal with
         | |- context [Nat.eqb ?a ?b] =>
           first [ replace (Nat.eqb a b) with false
                     by (symmetry; apply Nat.eqb_neq; lia)
                 | replace (Nat.eqb a b) with true
                     by (symmetry; apply Nat.eqb_eq; lia) ]
         end.

Section Counting.

Variable cfg : ProblemConfiguration.

(** A predicate met by [c] constraints of timeslot [t] of scenario [s] and
    by no other constraint is met by [c] constraints of the model. *)
Lemma count_model (p : Constraint -> bool) bv r s t c :
  (s < scenarios cfg)%nat -> (t < slots cfg)%nat ->
  (forall s' t', (s' < scenarios cfg)%nat -> (t' < slots cfg)%nat ->
     count p (timeslotConstraints cfg bv (scenarioBase cfg 2 s')
                (scenarioRandom cfg r s') t')
     = if Nat.eqb s' s && Nat.eqb t' t then c else 0%nat) ->
  count p (modelConstraints cfg 2 bv r (scenarios cfg)) = c.
Proof.
  intros Hs Ht H. unfold modelConstraints.
  apply (count_flat_map_single p _ _ s c Hs).
  - unfold scenarioConstraints.
    apply (count_flat_map_single p _ _ t c Ht).
    + rewrite H by assumption. now rewrite !Nat.eqb_refl.
    + intros t' Ht' Hne. rewrite H by assumption.
      destruct (Nat.eqb_spec t' t); [contradiction |].
      now rewrite andb_false_r.
  - intros s' Hs' Hne. unfold scenarioConstraints.
    apply count_flat_map_zero. intros t' Hin. apply in_seq in Hin.
    rewrite H by (assumption || lia).
    now destruct (Nat.eqb_spec s' s); [contradiction |].
Qed.

Lemma count_defines_level bv r s t s' t' :
  (t < slots cfg)%nat -> (t' < slots cfg)%nat ->
  count (defines (storageLevel (timeslotVars (scenarioBase cfg 2 s) t)))
        (timeslotConstraints cfg bv (scenarioBase cfg 2 s') (scenarioRandom cfg r s') t')
  = if Nat.eqb s' s && Nat.eqb t' t then 1%nat else 0%nat.
Proof.
  intros Ht Ht'.
  assert (Hlevel : forall base k, defines (storageLevel (timeslotVars (scenarioBase cfg 2 s) t))
                                          (levelConstraint base k)
                                  = Nat.eqb (base + 6 * k) (scenarioBase cfg 2 s + 6 * t))
    by (intros base [| k]; reflexivity).
  unfold timeslotConstraints. cbn [count]. rewrite Hlevel.
  unfold productionLink, consumptionLink, energyBalance, capacityBound, defines,
    timeslotVars, scenarioBase.
  cbn [storageLevel producedEnergy consumedEnergy].
  destruct (Nat.eqb_spec s' s) as [-> | Hs].
  - destruct (Nat.eqb_spec t' t) as [-> | Hneq]; cbn [andb]; settle_eqb; reflexivity.
  - cbn [andb]. destruct (scenarios_apart (slots cfg) s' s Hs); settle_eqb; reflexivity.
Qed.

End Counting.

(** ** Properties of the built model *)

(** C3: for every valid configuration the build succeeds and the solver
    then holds [2 + 6 * numberOfScenarios * numberOfDays * 24] variables:
    the integer [numberOfModules] and the continuous [sizeOfStorageInKwh],
    followed by six continuous variables per (scenario, timeslot) pair.
    The handles stored for a pair are those six declarations, and the
    handles of different pairs are different variables. *)
Theorem variable_count (cfg : ProblemConfiguration) (r : RandomState) :
  valid_configuration cfg ->
  exists bv sv,
    outcome cfg r = Ok (bv, sv) /\
    Z.of_nat (NumVariables (model cfg r))
      = 2 + 6 * number_of_scenarios cfg * number_of_days cfg * 24 /\
    variables (model cfg r)
      = baseDecls cfg ++
        flat_map (fun _ : nat => flat_map (timeslotDecls cfg) (seq 0 (slots cfg)))
                 (seq 0 (scenarios cfg)) /\
    map var_integer (baseDecls cfg) = [true; false] /\
    (forall t, map var_integer (timeslotDecls cfg t)
               = [false; false; false; false; false; false]) /\
    map (nth_error (variables (model cfg r)))
        [numberOfModules bv; sizeOfStorageInKwh bv]
      = map Some (baseDecls cfg) /\
    (forall s t, (s < scenarios cfg)%nat -> (t < slots cfg)%nat ->
       exists this,
         lookupSlot sv (Z.of_nat s) (Z.of_nat t) = Some this /\
         map (nth_error (variables (model cfg r))) (fields this)
           = map Some (timeslotDecls cfg t)) /\
    (forall s t s' t' this this' v,
       (s < scenarios cfg)%nat -> (t < slots cfg)%nat ->
       (s' < scenarios cfg)%nat -> (t' < slots cfg)%nat ->
       lookupSlot sv (Z.of_nat s) (Z.of_nat t) = Some this ->
       lookupSlot sv (Z.of_nat s') (Z.of_nat t') = Some this' ->
       In v (fields this) -> In v (fields this') ->
       s = s' /\ t = t').
Proof.
  intros Hv. destruct (valid_runs cfg Hv) as [HT HS].
  destruct (model_built cfg r HT HS) as [Hm Ho].
  exists theBase, (scenariosDict cfg 2 (scenarios cfg)).
  split; [exact Ho |].
  rewrite Hm. unfold NumVariables. cbn [builtSolver variables].
  split.
  { rewrite length_app, length_modelDecls. cbn [baseDecls length].
    unfold slots, scenarios, timeslotCount in *. destruct Hv as (_ & _ & H1 & H2).
    rewrite Nat2Z.inj_add, !Nat2Z.inj_mul, !Z2Nat.id by lia. cbn. lia. }
  split; [reflexivity |].
  split; [reflexivity |].
  split; [intros; reflexivity |].
  split; [reflexivity |].
  split.
  - intros s t Hs Ht. exists (timeslotVars (scenarioBase cfg 2 s) t).
    split; [now apply lookupSlot_built | now apply declared_fields].
  - intros s t s' t' this this' v Hs Ht Hs' Ht' Hl Hl' Hin Hin'.
    rewrite lookupSlot_built in Hl, Hl' by assumption.
    injection Hl as <-. injection Hl' as <-.
    exact (fields_apart cfg s t s' t' v Ht Ht' Hin Hin').
Qed.

Lemma variable_count_witness :
  valid_configuration small_configuration /\
  Z.of_nat (NumVariables (model small_configuration ramp)) = 290.
Proof.
  assert (Hv : valid_configuration small_configuration)
    by (repeat split; vm_compute; discriminate).
  split; [exact Hv |].
  destruct (variable_count small_configuration ramp Hv) as (bv & sv & _ & Hn & _).
  exact Hn.
Defined.

(** C4: for every valid configuration the build succeeds and the solver
    then holds [numberOfScenarios * numberOfDays * 24 * 5] constraints:
    for each (scenario, timeslot) pair, in this order, the production
    link, the consumption link, the energy balance, the initial condition
    or the level recursion, and the capacity bound; nothing else. *)
Theorem constraint_count (cfg : ProblemConfiguration) (r : RandomState) :
  valid_configuration cfg ->
  (exists built, outcome cfg r = Ok built) /\
  Z.of_nat (NumConstraints (model cfg r))
    = number_of_scenarios cfg * number_of_days cfg * 24 * 5 /\
  constraints (model cfg r)
    = flat_map (fun s =>
        flat_map (fun t =>
          let base := scenarioBase cfg 2 s in
          let rs := scenarioRandom cfg r s in
          [ productionLink cfg theBase base rs t;
            consumptionLink cfg base rs t;
            energyBalance base t;
            match t with
            | O => initialCondition base
            | _ => levelRecursion base t
            end;
            capacityBound theBase base t ])
          (seq 0 (slots cfg)))
        (seq 0 (scenarios cfg)).
Proof.
  intros Hv. destruct (valid_runs cfg Hv) as [HT HS].
  destruct (model_built cfg r HT HS) as [Hm Ho].
  split; [eexists; exact Ho |].
  rewrite Hm. unfold NumConstraints. cbn [builtSolver constraints].
  split; [| reflexivity].
  rewrite length_modelConstraints.
  unfold slots, scenarios, timeslotCount in *. destruct Hv as (_ & _ & H1 & H2).
  rewrite !Nat2Z.inj_mul, !Z2Nat.id by lia. cbn. lia.
Qed.

Lemma constraint_count_witness :
  valid_configuration small_configuration /\
  Z.of_nat (NumConstraints (model small_configuration ramp)) = 240.
Proof.
  assert (Hv : valid_configuration small_configuration)
    by (repeat split; vm_compute; discriminate).
  split; [exact Hv |].
  exact (proj1 (proj2 (constraint_count small_configuration ramp Hv))).
Defined.

(** C1: for every scenario [s] and timeslot [t] of the built model, the
    storage-level constraint emitted at [(s,t)] is [storageLevel[s,0] == 0]
    when [t = 0] and [storageLevel[s,t] == storageLevel[s,t-1] +
    storageEnergyDelta[s,t-1]] when [t > 0], both operands taken from the
    previous timeslot; it is the only equality of the whole model whose
    left-hand side is [storageLevel[s,t]]. *)
Theorem storage_level_recursion (cfg : ProblemConfiguration) (r : RandomState)
    (s t : nat) :
  (s < scenarios cfg)%nat -> (t < slots cfg)%nat ->
  exists bv sv this,
    outcome cfg r = Ok (bv, sv) /\
    lookupSlot sv (Z.of_nat s) (Z.of_nat t) = Some this /\
    (t = 0%nat ->
     emitted cfg r s t 3 = Some (CEq (Var (storageLevel this)) (Const 0))) /\
    ((0 < t)%nat ->
     exists last,
       lookupSlot sv (Z.of_nat s) (Z.of_nat t - 1) = Some last /\
       emitted cfg r s t 3
       = Some (CEq (Var (storageLevel this))
                   (Plus (Var (storageLevel last)) (Var (storageEnergyDelta last))))) /\
    count (defines (storageLevel this)) (constraints (model cfg r)) = 1%nat.
Proof.
  intros Hs Ht. destruct (indices_run cfg s t Hs Ht) as [HT HS].
  destruct (model_built cfg r HT HS) as [Hm Ho].
  exists theBase, (scenariosDict cfg 2 (scenarios cfg)),
    (timeslotVars (scenarioBase cfg 2 s) t).
  split; [exact Ho |].
  split; [now apply lookupSlot_built |].
  rewrite emitted_built by (assumption || lia).
  split; [| split].
  - intros ->. reflexivity.
  - intros Hpos. exists (timeslotVars (scenarioBase cfg 2 s) (t - 1)).
    split.
    + replace (Z.of_nat t - 1) with (Z.of_nat (t - 1)) by lia.
      apply lookupSlot_built; [assumption | lia].
    + destruct t as [| t']; [lia |]. reflexivity.
  - rewrite Hm. cbn [builtSolver constraints].
    apply (count_model cfg _ theBase r s t 1%nat Hs Ht).
    intros s' t' _ Ht'. now apply count_defines_level.
Qed.

Lemma storage_level_recursion_witness :
  (1 < scenarios small_configuration)%nat /\ (5 < slots small_configuration)%nat /\
  (0 < slots small_configuration)%nat /\
  emitted small_configuration ramp 1 5 3
  = Some (CEq (Var 176%nat) (Plus (Var 170%nat) (Var 171%nat))) /\
  emitted small_configuration ramp 1 0 3 = Some (CEq (Var 146%nat) (Const 0)).
Proof.
  assert (Hs : (1 < scenarios small_configuration)%nat) by (vm_compute; lia).
  assert (Ht : (5 < slots small_configuration)%nat) by (vm_compute; lia).
  assert (H0 : (0 < slots small_configuration)%nat) by (vm_compute; lia).
  assert (Hb : outcome small_configuration ramp
               = Ok (theBase, scenariosDict small_configuration 2
                                (scenarios small_configuration)))
    by (apply model_built; vm_compute; discriminate).
  split; [exact Hs | split; [exact Ht | split; [exact H0 |]]].
  split.
  - destruct (storage_level_recursion small_configuration ramp 1 5 Hs Ht)
      as (bv & sv & this & Ho & Hthis & _ & Hrec & _).
    destruct (Hrec ltac:(lia)) as (last & Hlast & Hem).
    rewrite Hem. f_equal.
    rewrite Hb in Ho. injection Ho as <- <-.
    rewrite (lookupSlot_built small_configuration 1 5 Hs Ht) in Hthis.
    replace (Z.of_nat 5 - 1) with (Z.of_nat 4) in Hlast by reflexivity.
    rewrite (lookupSlot_built small_configuration 1 4 Hs ltac:(vm_compute; lia)) in Hlast.
    injection Hthis as <-. injection Hlast as <-. reflexivity.
  - destruct (storage_level_recursion small_configuration ramp 1 0 Hs H0)
      as (bv & sv & this & Ho & Hthis & Hinit & _).
    rewrite (Hinit eq_refl). f_equal.
    rewrite Hb in Ho. injection Ho as <- <-.
    rewrite (lookupSlot_built small_configuration 1 0 Hs H0) in Hthis.
    injection Hthis as <-. reflexivity.
Defined.

(** C7, as the code has it: the coefficient of the production link of
    scenario [s], timeslot [t] is
    [min(max(raw, 0) * areaPerModuleM2, maxWattsPerModule)] for the draw
    [raw = 500 + 200 * z], the operations in this order. It never exceeds
    [maxWattsPerModule]. It is non-negative exactly when the cap is
    non-negative and either the area is non-negative or the draw is not
    positive; so it lies in [[0, maxWattsPerModule]] for every
    configuration with a non-negative area and cap. *)
Theorem solar_coefficient_clamped (cfg : ProblemConfiguration) (r : RandomState)
    (s t : nat) :
  (s < scenarios cfg)%nat -> (t < slots cfg)%nat ->
  let raw := (500 + 200 * stream r (cursor r + 2 * slots cfg * s + t)%nat)%Q in
  let coefficient :=
    Qmin (Qmax raw 0 * area_per_module_in_m2 cfg) (max_watts_per_module cfg) in
  exists bv sv this,
    outcome cfg r = Ok (bv, sv) /\
    lookupSlot sv (Z.of_nat s) (Z.of_nat t) = Some this /\
    emitted cfg r s t 0
    = Some (CEq (Var (producedEnergy this))
                (CMul coefficient (Var (numberOfModules bv)))) /\
    (coefficient <= max_watts_per_module cfg)%Q /\
    ((0 <= area_per_module_in_m2 cfg)%Q -> (0 <= max_watts_per_module cfg)%Q ->
     (0 <= coefficient)%Q) /\
    ((0 <= coefficient)%Q <->
     (0 <= max_watts_per_module cfg)%Q /\
     ((0 <= area_per_module_in_m2 cfg)%Q \/ (raw <= 0)%Q)).
Proof.
  intros Hs Ht raw coefficient.
  destruct (indices_run cfg s t Hs Ht) as [HT HS].
  destruct (model_built cfg r HT HS) as [Hm Ho].
  exists theBase, (scenariosDict cfg 2 (scenarios cfg)),
    (timeslotVars (scenarioBase cfg 2 s) t).
  split; [exact Ho |].
  split; [now apply lookupSlot_built |].
  split; [rewrite emitted_built by (assumption || lia); reflexivity |].
  split; [apply Q.le_min_r |].
  split.
  - intros Harea Hcap. apply Q.min_glb; [| exact Hcap].
    apply Qmult_le_0_compat; [apply Q.le_max_r | exact Harea].
  - unfold coefficient. rewrite Q.min_glb_iff. split.
    + intros [Hprod Hcap]. split; [exact Hcap |].
      destruct (Qlt_le_dec 0 raw) as [Hpos | Hneg]; [left | right; exact Hneg].
      rewrite (Q.max_l raw 0) in Hprod by (apply Qlt_le_weak; exact Hpos).
      destruct (Qlt_le_dec (area_per_module_in_m2 cfg) 0) as [Ha | Ha]; [| exact Ha].
      exfalso. nra.
    + intros [Hcap [Harea | Hraw]]; (split; [| exact Hcap]).
      * apply Qmult_le_0_compat; [apply Q.le_max_r | exact Harea].
      * rewrite (Q.max_r raw 0) by exact Hraw. lra.
Qed.

Lemma solar_coefficient_clamped_witness :
  (1 < scenarios small_configuration)%nat /\ (3 < slots small_configuration)%nat /\
  (0 <= area_per_module_in_m2 small_configuration)%Q /\
  (0 <= max_watts_per_module small_configuration)%Q /\
  (exists this,
     emitted small_configuration ramp 1 3 0
     = Some (CEq (Var this)
                 (CMul (Qmin (Qmax (500 + 200 * ((inject_Z 51 - 60) / 20)) 0 * (12 # 10)) 800)
                       (Var 0%nat)))) /\
  (0 <= Qmin (Qmax (500 + 200 * ((inject_Z 51 - 60) / 20)) 0 * (12 # 10)) 800 <= 800)%Q.
Proof.
  assert (Hs : (1 < scenarios small_configuration)%nat) by (vm_compute; lia).
  assert (Ht : (3 < slots small_configuration)%nat) by (vm_compute; lia).
  assert (Ha : (0 <= area_per_module_in_m2 small_configuration)%Q)
    by (vm_compute; discriminate).
  assert (Hc : (0 <= max_watts_per_module small_configuration)%Q)
    by (vm_compute; discriminate).
  split; [exact Hs | split; [exact Ht | split; [exact Ha | split; [exact Hc |]]]].
  destruct (solar_coefficient_clamped small_configuration ramp 1 3 Hs Ht)
    as (bv & sv & this & Ho & _ & Hem & Hup & Hlow & _).
  split.
  - exists (producedEnergy this). rewrite Hem.
    assert (Hb : outcome small_configuration ramp
                 = Ok (theBase, scenariosDict small_configuration 2
                                  (scenarios small_configuration)))
      by (apply model_built; vm_compute; discriminate).
    rewrite Hb in Ho. injection Ho as <- <-. reflexivity.
  - split; [exact (Hlow Ha Hc) | exact Hup].
Defined.

(** C7 fails as stated: nothing keeps the area or the cap non-negative.
    With consistent bounds and an area of -1, the draw 410 of scenario 1,
    timeslot 3 gives the production link the coefficient -410, outside
    [[0, maxWattsPerModule]]. *)
Lemma negative_area_gives_negative_coefficient :
  valid_configuration negative_area_configuration /\
  exists coefficient,
    emitted negative_area_configuration ramp 1 3 0
    = Some (CEq (Var 166%nat) (CMul coefficient (Var 0%nat))) /\
    (coefficient == -410)%Q /\
    ~ (0 <= coefficient)%Q.
Proof.
  split; [repeat split; vm_compute; discriminate |].
  assert (Hs : (1 < scenarios negative_area_configuration)%nat) by (vm_compute; lia).
  assert (Ht : (3 < slots negative_area_configuration)%nat) by (vm_compute; lia).
  eexists. split; [rewrite emitted_built by (assumption || lia); reflexivity |].
  split; vm_compute; [reflexivity | intros H; apply H; reflexivity].
Qed.

(** ** The objective *)

Lemma sumQ_ext {A} (f g : A -> Q) l :
  (forall x, (f x == g x)%Q) -> (sumQ (map f l) == sumQ (map g l))%Q.
Proof.
  intros H. unfold sumQ.
  induction l as [| x l IH]; cbn [map fold_right]; [reflexivity |].
  now rewrite H, IH.
Qed.

Lemma sumQ_scale {A} (f : A -> Q) (c : Q) l :
  (sumQ (map f l) / c == sumQ (map (fun x => (1 / c) * f x) l))%Q.
Proof.
  unfold sumQ. induction l as [| x l IH]; cbn [map fold_right].
  - unfold Qdiv. ring.
  - rewrite <- IH. unfold Qdiv. ring.
Qed.

Lemma eval_fold_Plus a l e0 :
  (eval a (fold_left Plus l e0) == eval a e0 + sumQ (map (eval a) l))%Q.
Proof.
  unfold sumQ.
  revert e0. induction l as [| e l IH]; intros e0; cbn [fold_left map fold_right].
  - ring.
  - rewrite IH. cbn [eval]. ring.
Qed.

Section Objective.

Variable cfg : ProblemConfiguration.

Lemma eval_costSteps a base rp l e0 :
  (eval a (fold_left (costStep cfg base rp) l e0)
   == eval a e0 +
      sumQ (map (fun t =>
                   purchasePrice rp t * (a (boughtEnergy (timeslotVars base t)) / 1000)
                   - sellPrice cfg rp t * (a (soldEnergy (timeslotVars base t)) / 1000))
                l))%Q.
Proof.
  unfold sumQ.
  revert e0. induction l as [| t l IH]; intros e0; cbn [fold_left map fold_right].
  - ring.
  - rewrite IH. unfold costStep. cbn [eval]. ring.
Qed.

Lemma eval_scenarioCosts a s rp :
  (eval a (scenarioCosts cfg (scenarioBase cfg 2 s) rp) == spec_recourse_cost cfg rp a s)%Q.
Proof.
  unfold scenarioCosts, spec_recourse_cost. rewrite eval_costSteps. cbn [eval]. ring.
Qed.

Lemma eval_objectiveExpr a rp :
  (eval a (objectiveExpr cfg 2 theBase rp) == spec_objective cfg rp a)%Q.
Proof.
  unfold objectiveExpr, spec_objective, investmentExpr. cbn [eval].
  rewrite eval_fold_Plus, map_map. cbn [eval].
  rewrite (sumQ_ext _ (spec_recourse_cost cfg rp a)) by (intros; apply eval_scenarioCosts).
  rewrite <- sumQ_scale. cbn [theBase numberOfModules sizeOfStorageInKwh].
  unfold Qdiv. ring.
Qed.

End Objective.

(** C2: the minimised objective evaluates, under every assignment, to
    [numberOfModules * pricePerModuleEuro + sizeOfStorageKwh *
    storagePricePerKwhEuro] plus the sum over the scenarios, each weighted
    [1 / numberOfScenarios], of the sum over the timeslots of
    [purchasePrice[t] * boughtEnergy[s,t] / 1000 - sellPrice[t] *
    soldEnergy[s,t] / 1000], the variables being those the build stored
    for [(s,t)]; the sampled prices are 0.5 and 0.12. *)
Theorem objective_expression (cfg : ProblemConfiguration) (r : RandomState) :
  valid_configuration cfg ->
  let rp := scenarioRandom cfg r (scenarios cfg) in
  exists sv e,
    outcome cfg r = Ok (theBase, sv) /\
    (forall s t, (s < scenarios cfg)%nat -> (t < slots cfg)%nat ->
       lookupSlot sv (Z.of_nat s) (Z.of_nat t)
       = Some (timeslotVars (scenarioBase cfg 2 s) t)) /\
    objective (model cfg r) = Some e /\
    (forall a : Assignment, (eval a e == spec_objective cfg rp a)%Q) /\
    (forall t, (purchasePrice rp t == 5 # 10)%Q /\ (sellPrice cfg rp t == 12 # 100)%Q).
Proof.
  intros Hv rp. destruct (valid_runs cfg Hv) as [HT HS].
  destruct (model_built cfg r HT HS) as [Hm Ho].
  exists (scenariosDict cfg 2 (scenarios cfg)), (objectiveExpr cfg 2 theBase rp).
  split; [exact Ho |].
  split; [intros s t Hs Ht; now apply lookupSlot_built |].
  split; [rewrite Hm; reflexivity |].
  split.
  - intros a. apply eval_objectiveExpr.
  - intros t. unfold purchasePrice, sellPrice. split; ring.
Qed.

Lemma objective_expression_witness :
  valid_configuration small_configuration /\
  exists e, objective (model small_configuration ramp) = Some e /\
            (eval (fun v => inject_Z (Z.of_nat v)) e == 8758361 # 6250)%Q.
Proof.
  assert (Hv : valid_configuration small_configuration)
    by (repeat split; vm_compute; discriminate).
  split; [exact Hv |].
  destruct (objective_expression small_configuration ramp Hv)
    as (sv & e & _ & _ & He & Hval & _).
  exists e. split; [exact He |].
  rewrite Hval. vm_compute. reflexivity.
Defined.

(** ** A feasible point *)

Section Feasibility.

Variable cfg : ProblemConfiguration.
Variable r : RandomState.
Variable x : Q.

Lemma decode_handle (n s t j v : nat) :
  (t < n)%nat -> (j < 6)%nat -> v = (2 + 6 * n * s + 6 * t + j)%nat ->
  (v <? 2)%nat = false /\
  ((v - 2) mod 6)%nat = j /\
  (((v - 2) / 6) / n)%nat = s /\
  (((v - 2) / 6) mod n)%nat = t.
Proof.
  intros Ht Hj ->.
  assert (Hq : ((2 + 6 * n * s + 6 * t + j - 2) / 6)%nat = (n * s + t)%nat)
    by (symmetry; apply (Nat.div_unique _ 6 _ j); lia).
  split; [apply Nat.ltb_ge; lia |].
  split; [symmetry; apply (Nat.mod_unique _ 6 (n * s + t)); lia |].
  rewrite Hq. split.
  - symmetry. apply (Nat.div_unique _ n _ t); lia.
  - symmetry. apply (Nat.mod_unique _ n s); lia.
Qed.

Lemma example_value (s t j v : nat) :
  (t < slots cfg)%nat -> (j < 6)%nat ->
  v = (2 + 6 * slots cfg * s + 6 * t + j)%nat ->
  exampleAssignment cfg r x v =
  match j with
  | 0%nat => 0%Q
  | 1%nat => exampleDelta cfg x t
  | 2%nat => 0%Q
  | 3%nat => usageLoad cfg (scenarioRandom cfg r s) t
  | 4%nat => (usageLoad cfg (scenarioRandom cfg r s) t
              + (1 + Qmax 0 (- exampleDelta cfg x t)) + exampleDelta cfg x t)%Q
  | _ => (1 + Qmax 0 (- exampleDelta cfg x t))%Q
  end.
Proof.
  intros Ht Hj Hv.
  destruct (decode_handle (slots cfg) s t j v Ht Hj Hv) as (H2 & Hm & Hs & Hk).
  unfold exampleAssignment. rewrite H2, Hm, Hs, Hk. reflexivity.
Qed.

Lemma example_base (v : nat) : (v < 2)%nat -> exampleAssignment cfg r x v = 0%Q.
Proof.
  intros H. unfold exampleAssignment.
  now destruct (Nat.ltb_spec v 2); [| lia].
Qed.

(** The value of field [j] of timeslot [t] of scenario [s]. *)
Ltac example_at s t j :=
  rewrite (example_value s t j) by (unfold scenarioBase; lia).

Lemma example_satisfies_timeslot (s t : nat) :
  (t < slots cfg)%nat ->
  Forall (satisfies (exampleAssignment cfg r x))
         (timeslotConstraints cfg theBase (scenarioBase cfg 2 s)
            (scenarioRandom cfg r s) t).
Proof.
  intros Ht. unfold timeslotConstraints.
  repeat match goal with |- Forall _ _ => constructor end.
  - unfold productionLink, timeslotVars. cbn [satisfies eval producedEnergy theBase
      numberOfModules].
    example_at s t 2%nat. rewrite (example_base 0) by lia. cbn beta iota. ring.
  - unfold consumptionLink, timeslotVars. cbn [satisfies eval consumedEnergy].
    example_at s t 3%nat. cbn beta iota. reflexivity.
  - unfold energyBalance, timeslotVars.
    cbn [satisfies eval producedEnergy consumedEnergy soldEnergy boughtEnergy
           storageEnergyDelta].
    example_at s t 2%nat. example_at s t 3%nat. example_at s t 5%nat.
    example_at s t 1%nat. example_at s t 4%nat. cbn beta iota. ring.
  - destruct t as [| t'].
    + unfold levelConstraint, initialCondition, timeslotVars.
      cbn [satisfies eval storageLevel].
      example_at s 0%nat 0%nat. cbn beta iota. reflexivity.
    + unfold levelConstraint, levelRecursion, timeslotVars.
      cbn [satisfies eval storageLevel storageEnergyDelta].
      example_at s (S t') 0%nat. example_at s t' 0%nat. example_at s t' 1%nat.
      cbn beta iota. unfold exampleDelta.
      destruct (Nat.eqb_spec (S t') (slots cfg)); [lia |]. ring.
  - unfold capacityBound, timeslotVars.
    cbn [satisfies eval storageLevel theBase sizeOfStorageInKwh].
    example_at s t 0%nat. rewrite (example_base 1) by lia. cbn beta iota.
    apply Qle_lteq. right. ring.
Qed.

Lemma example_satisfies_model n :
  Forall (satisfies (exampleAssignment cfg r x)) (modelConstraints cfg 2 theBase r n).
Proof.
  unfold modelConstraints. apply List.Forall_flat_map, List.Forall_forall. intros s _.
  unfold scenarioConstraints. apply List.Forall_flat_map, List.Forall_forall. intros t Hin.
  apply in_seq in Hin. apply example_satisfies_timeslot. lia.
Qed.

(** Every declared variable is some field of some timeslot of some
    scenario, or one of the two base variables. *)
Lemma declared_variable (n v : nat) (d : VarDecl) :
  nth_error (baseDecls cfg ++ modelDecls cfg n) v = Some d ->
  ((v < 2)%nat /\ nth_error (baseDecls cfg) v = Some d) \/
  exists s t j, (s < n)%nat /\ (t < slots cfg)%nat /\ (j < 6)%nat /\
                v = (2 + 6 * slots cfg * s + 6 * t + j)%nat /\
                nth_error (timeslotDecls cfg t) j = Some d.
Proof.
  intros H. destruct (Nat.lt_ge_cases v 2) as [Hlt | Hge].
  - left. split; [exact Hlt |]. now rewrite nth_error_app1 in H by exact Hlt.
  - right. rewrite nth_error_app2 in H by exact Hge. cbn [baseDecls length] in H.
    assert (Hlen : (v - 2 < 6 * slots cfg * n)%nat).
    { rewrite <- length_modelDecls. apply nth_error_Some. congruence. }
    assert (Hpos : (0 < slots cfg)%nat) by (destruct (slots cfg); lia).
    set (u := (v - 2)%nat) in *.
    pose proof (Nat.div_mod_eq u (6 * slots cfg)) as Hu.
    pose proof (Nat.mod_upper_bound u (6 * slots cfg) ltac:(lia)) as Hr.
    set (s := (u / (6 * slots cfg))%nat) in *.
    set (w := (u mod (6 * slots cfg))%nat) in *.
    pose proof (Nat.div_mod_eq w 6) as Hw.
    pose proof (Nat.mod_upper_bound w 6 ltac:(lia)) as Hj.
    set (t := (w / 6)%nat) in *. set (j := (w mod 6)%nat) in *.
    assert (Hs : (s < n)%nat).
    { destruct (Nat.lt_ge_cases s n) as [Hok | Hbad]; [exact Hok |].
      assert ((6 * slots cfg) * n <= (6 * slots cfg) * s)%nat
        by (apply Nat.mul_le_mono_l; exact Hbad).
      lia. }
    assert (Ht : (t < slots cfg)%nat) by lia.
    exists s, t, j. repeat split; try assumption; try lia.
    rewrite <- (nth_error_modelDecls cfg n s t j Hs Ht Hj).
    rewrite <- H. f_equal. lia.
Qed.

Lemma example_respects (n v : nat) (d : VarDecl) :
  (min_number_of_modules cfg <= 0 <= max_number_of_modules cfg)%Q ->
  (min_storage_size_in_kwh cfg <= 0 <= max_storage_size_in_kwh cfg)%Q ->
  (- max_storage_size_in_kwh cfg * 1000 <= x <= max_storage_size_in_kwh cfg * 1000)%Q ->
  nth_error (baseDecls cfg ++ modelDecls cfg n) v = Some d ->
  respects (exampleAssignment cfg r x) v d.
Proof.
  intros Hm Hst Hx H.
  destruct (declared_variable n v d H)
    as [[Hlt Hd] | (s & t & j & Hs & Ht & Hj & Hv & Hd)].
  - unfold respects. rewrite (example_base v Hlt).
    destruct v as [| [| v]]; [| | lia]; cbn in Hd; injection Hd as <-;
      cbn [var_lb var_ub var_integer within].
    + split; [exact Hm |]. intros _. exists 0. reflexivity.
    + split; [exact Hst | discriminate].
  - unfold respects. rewrite (example_value s t j v Ht Hj Hv).
    pose proof (Q.le_max_r (10000 + 2000 * stream (scenarioRandom cfg r s)
                                     (cursor (scenarioRandom cfg r s) + slots cfg + t)%nat)
                           0) as Hu.
    fold (usageLoad cfg (scenarioRandom cfg r s) t) in Hu.
    pose proof (Q.le_max_l 0 (- exampleDelta cfg x t)) as Hl.
    pose proof (Q.le_max_r 0 (- exampleDelta cfg x t)) as Hr.
    assert (Hdelta : (- max_storage_size_in_kwh cfg * 1000 <= exampleDelta cfg x t
                      <= max_storage_size_in_kwh cfg * 1000)%Q).
    { unfold exampleDelta. destruct Hst as [_ Hst].
      destruct (Nat.eqb (S t) (slots cfg)); [exact Hx | split; lra]. }
    destruct Hdelta as [Hd1 Hd2]. destruct Hst as [_ Hst].
    destruct j as [| [| [| [| [| [| j]]]]]]; [| | | | | | lia];
      cbn in Hd; injection Hd as <-;
      cbn [var_lb var_ub var_integer within];
      (split; [| discriminate]); split; try exact I; lra.
Qed.

End Feasibility.

(** C9: nothing emitted forbids buying and selling in the same timeslot.
    For every valid configuration and every sampled profile there is an
    assignment that satisfies all emitted constraints and has
    [boughtEnergy[s,t] > 0] and [soldEnergy[s,t] > 0] at every (and at
    least one) scenario and timeslot; when the bounds admit zero modules
    and zero storage it also respects every declared bound and the
    integrality of [numberOfModules]. *)
Theorem simultaneous_buy_and_sell (cfg : ProblemConfiguration) (r : RandomState) :
  valid_configuration cfg ->
  exists bv sv (a : Assignment),
    outcome cfg r = Ok (bv, sv) /\
    Forall (satisfies a) (constraints (model cfg r)) /\
    (0 < scenarios cfg)%nat /\ (0 < slots cfg)%nat /\
    (forall s t, (s < scenarios cfg)%nat -> (t < slots cfg)%nat ->
       exists this,
         lookupSlot sv (Z.of_nat s) (Z.of_nat t) = Some this /\
         (0 < a (boughtEnergy this))%Q /\ (0 < a (soldEnergy this))%Q) /\
    ((min_number_of_modules cfg <= 0 <= max_number_of_modules cfg)%Q ->
     (min_storage_size_in_kwh cfg <= 0 <= max_storage_size_in_kwh cfg)%Q ->
     forall v d, nth_error (variables (model cfg r)) v = Some d -> respects a v d).
Proof.
  intros Hv. destruct (valid_runs cfg Hv) as [HT HS].
  destruct (model_built cfg r HT HS) as [Hm Ho].
  exists theBase, (scenariosDict cfg 2 (scenarios cfg)), (exampleAssignment cfg r 0).
  split; [exact Ho |]. rewrite Hm. cbn [builtSolver constraints variables].
  split; [apply example_satisfies_model |].
  destruct Hv as (_ & _ & H1 & H2).
  split; [unfold scenarios; lia |].
  split; [unfold slots, timeslotCount; lia |].
  split.
  - intros s t Hs Ht. exists (timeslotVars (scenarioBase cfg 2 s) t).
    split; [now apply lookupSlot_built |].
    unfold timeslotVars. cbn [boughtEnergy soldEnergy].
    rewrite (example_value cfg r 0 s t 4) by (unfold scenarioBase; lia).
    rewrite (example_value cfg r 0 s t 5) by (unfold scenarioBase; lia).
    cbn beta iota.
    pose proof (Q.le_max_r (10000 + 2000 * stream (scenarioRandom cfg r s)
                                     (cursor (scenarioRandom cfg r s) + slots cfg + t)%nat)
                           0) as Hu.
    fold (usageLoad cfg (scenarioRandom cfg r s) t) in Hu.
    pose proof (Q.le_max_l 0 (- exampleDelta cfg 0 t)) as Hl.
    assert (Hz : (exampleDelta cfg 0 t == 0)%Q)
      by (unfold exampleDelta; destruct (Nat.eqb (S t) (slots cfg)); reflexivity).
    split; lra.
  - intros Hmod Hsto v d Hd.
    apply (example_respects cfg r 0 (scenarios cfg) v d Hmod Hsto); [| exact Hd].
    destruct Hsto as [_ Hsto]. split; lra.
Qed.

Lemma simultaneous_buy_and_sell_witness :
  valid_configuration small_configuration /\
  (min_number_of_modules small_configuration <= 0
   <= max_number_of_modules small_configuration)%Q /\
  (min_storage_size_in_kwh small_configuration <= 0
   <= max_storage_size_in_kwh small_configuration)%Q /\
  exists a : Assignment,
    Forall (satisfies a) (constraints (model small_configuration ramp)) /\
    (0 < a 6%nat)%Q /\ (0 < a 7%nat)%Q /\
    forall v d, nth_error (variables (model small_configuration ramp)) v = Some d ->
                respects a v d.
Proof.
  assert (Hv : valid_configuration small_configuration)
    by (repeat split; vm_compute; discriminate).
  assert (Hm : (min_number_of_modules small_configuration <= 0
                <= max_number_of_modules small_configuration)%Q)
    by (split; vm_compute; discriminate).
  assert (Hst : (min_storage_size_in_kwh small_configuration <= 0
                 <= max_storage_size_in_kwh small_configuration)%Q)
    by (split; vm_compute; discriminate).
  split; [exact Hv | split; [exact Hm | split; [exact Hst |]]].
  destruct (simultaneous_buy_and_sell small_configuration ramp Hv)
    as (bv & sv & a & Ho & Hsat & Hs & Ht & Hpos & Hbounds).
  exists a. split; [exact Hsat |].
  destruct (Hpos 0%nat 0%nat Hs Ht) as (this & Hthis & Hb & Hso).
  assert (Hb' : outcome small_configuration ramp
               = Ok (theBase, scenariosDict small_configuration 2
                                (scenarios small_configuration)))
    by (apply model_built; vm_compute; discriminate).
  rewrite Hb' in Ho. injection Ho as <- <-.
  rewrite (lookupSlot_built small_configuration 0 0 Hs Ht) in Hthis.
  injection Hthis as <-.
  split; [exact Hb | split; [exact Hso | exact (Hbounds Hm Hst)]].
Defined.

(** ** The storage delta of the last timeslot *)

Section FinalDelta.

Variable cfg : ProblemConfiguration.

Lemma count_mentions_final_delta r s s' t' :
  (0 < slots cfg)%nat -> (t' < slots cfg)%nat ->
  count (mentions (storageEnergyDelta (timeslotVars (scenarioBase cfg 2 s) (slots cfg - 1))))
        (timeslotConstraints cfg theBase (scenarioBase cfg 2 s') (scenarioRandom cfg r s') t')
  = if Nat.eqb s' s && Nat.eqb t' (slots cfg - 1) then 1%nat else 0%nat.
Proof.
  intros Hpos Ht'.
  unfold timeslotConstraints, productionLink, consumptionLink, energyBalance,
    capacityBound, levelConstraint, initialCondition, levelRecursion, mentions,
    theBase, timeslotVars, scenarioBase.
  destruct (Nat.eqb_spec s' s) as [-> | Hs].
  - destruct (Nat.eqb_spec t' (slots cfg - 1)) as [-> | Hneq]; cbn [andb].
    + destruct (slots cfg - 1)%nat as [| k] eqn:E;
        cbn [count constraint_vars expr_vars existsb app storageLevel storageEnergyDelta
               producedEnergy consumedEnergy boughtEnergy soldEnergy numberOfModules
               sizeOfStorageInKwh];
        settle_eqb; reflexivity.
    + destruct t' as [| k];
        cbn [count constraint_vars expr_vars existsb app storageLevel storageEnergyDelta
               producedEnergy consumedEnergy boughtEnergy soldEnergy numberOfModules
               sizeOfStorageInKwh];
        settle_eqb; reflexivity.
  - cbn [andb]. destruct (scenarios_apart (slots cfg) s' s Hs);
      destruct t' as [| k];
      cbn [count constraint_vars expr_vars existsb app storageLevel storageEnergyDelta
             producedEnergy consumedEnergy boughtEnergy soldEnergy numberOfModules
             sizeOfStorageInKwh];
      settle_eqb; reflexivity.
Qed.

Lemma level_constraint_ignores_final_delta s s' t' :
  (0 < slots cfg)%nat -> (t' < slots cfg)%nat ->
  mentions (storageEnergyDelta (timeslotVars (scenarioBase cfg 2 s) (slots cfg - 1)))
           (levelConstraint (scenarioBase cfg 2 s') t') = false.
Proof.
  intros Hpos Ht'.
  unfold levelConstraint, initialCondition, levelRecursion, mentions, timeslotVars,
    scenarioBase.
  destruct (Nat.eq_dec s' s) as [-> | Hs].
  - destruct t' as [| k];
      cbn [constraint_vars expr_vars existsb app storageLevel storageEnergyDelta];
      settle_eqb; reflexivity.
  - destruct (scenarios_apart (slots cfg) s' s Hs); destruct t' as [| k];
      cbn [constraint_vars expr_vars existsb app storageLevel storageEnergyDelta];
      settle_eqb; reflexivity.
Qed.

End FinalDelta.

(** C10: for every scenario [s], the variable
    [storageEnergyDelta[s, timeslotCount-1]] occurs in exactly one emitted
    constraint, the energy balance of that timeslot, and in no
    storage-level constraint; for every value [x] there is an assignment
    that satisfies all emitted constraints, gives this variable the value
    [x] and keeps every storage level at zero, and that also respects
    every declared bound when [x] lies within the bounds of the variable
    and the configuration admits zero modules and zero storage. *)
Theorem final_delta_only_in_balance (cfg : ProblemConfiguration) (r : RandomState)
    (s : nat) :
  (s < scenarios cfg)%nat -> (0 < slots cfg)%nat ->
  exists bv sv final,
    outcome cfg r = Ok (bv, sv) /\
    lookupSlot sv (Z.of_nat s) (timeslotCount cfg - 1) = Some final /\
    count (mentions (storageEnergyDelta final)) (constraints (model cfg r)) = 1%nat /\
    emitted cfg r s (slots cfg - 1) 2
    = Some (CEq (Minus (Var (producedEnergy final)) (Var (consumedEnergy final)))
                (Minus (Plus (Var (soldEnergy final)) (Var (storageEnergyDelta final)))
                       (Var (boughtEnergy final)))) /\
    (forall s' t' c, (s' < scenarios cfg)%nat -> (t' < slots cfg)%nat ->
       emitted cfg r s' t' 3 = Some c ->
       mentions (storageEnergyDelta final) c = false) /\
    (forall x : Q, exists a : Assignment,
       Forall (satisfies a) (constraints (model cfg r)) /\
       (a (storageEnergyDelta final) == x)%Q /\
       (forall s' t', (s' < scenarios cfg)%nat -> (t' < slots cfg)%nat ->
          exists this, lookupSlot sv (Z.of_nat s') (Z.of_nat t') = Some this /\
                       (a (storageLevel this) == 0)%Q) /\
       ((min_number_of_modules cfg <= 0 <= max_number_of_modules cfg)%Q ->
        (min_storage_size_in_kwh cfg <= 0 <= max_storage_size_in_kwh cfg)%Q ->
        (- max_storage_size_in_kwh cfg * 1000 <= x
         <= max_storage_size_in_kwh cfg * 1000)%Q ->
        forall v d, nth_error (variables (model cfg r)) v = Some d ->
                    respects a v d)).
Proof.
  intros Hs Hpos.
  assert (Hlast : (slots cfg - 1 < slots cfg)%nat) by lia.
  destruct (indices_run cfg s _ Hs Hlast) as [HT HS].
  destruct (model_built cfg r HT HS) as [Hm Ho].
  exists theBase, (scenariosDict cfg 2 (scenarios cfg)),
    (timeslotVars (scenarioBase cfg 2 s) (slots cfg - 1)).
  split; [exact Ho |].
  split.
  { replace (timeslotCount cfg - 1) with (Z.of_nat (slots cfg - 1))
      by (unfold slots in *; lia).
    now apply lookupSlot_built. }
  split.
  { rewrite Hm. cbn [builtSolver constraints].
    apply (count_model cfg _ theBase r s (slots cfg - 1) 1%nat Hs Hlast).
    intros s' t' _ Ht'. now apply count_mentions_final_delta. }
  split.
  { rewrite emitted_built by (assumption || lia). reflexivity. }
  split.
  { intros s' t' c Hs' Ht' Hc.
    rewrite emitted_built in Hc by (assumption || lia).
    cbn [timeslotConstraints nth_error] in Hc. injection Hc as <-.
    now apply level_constraint_ignores_final_delta. }
  intros x. exists (exampleAssignment cfg r x).
  split; [rewrite Hm; apply example_satisfies_model |].
  split.
  - unfold timeslotVars. cbn [storageEnergyDelta].
    rewrite (example_value cfg r x s (slots cfg - 1) 1) by (unfold scenarioBase; lia).
    cbn beta iota. unfold exampleDelta.
    destruct (Nat.eqb_spec (S (slots cfg - 1)) (slots cfg)); [reflexivity | lia].
  - split.
    + intros s' t' Hs' Ht'. exists (timeslotVars (scenarioBase cfg 2 s') t').
      split; [now apply lookupSlot_built |].
      unfold timeslotVars. cbn [storageLevel].
      rewrite (example_value cfg r x s' t' 0) by (unfold scenarioBase; lia).
      reflexivity.
    + intros Hmod Hsto Hx v d Hd. rewrite Hm in Hd. cbn [builtSolver variables] in Hd.
      exact (example_respects cfg r x (scenarios cfg) v d Hmod Hsto Hx Hd).
Qed.

Lemma final_delta_only_in_balance_witness :
  (1 < scenarios small_configuration)%nat /\ (0 < slots small_configuration)%nat /\
  count (mentions 285%nat) (constraints (model small_configuration ramp)) = 1%nat /\
  exists a : Assignment,
    Forall (satisfies a) (constraints (model small_configuration ramp)) /\
    (a 285%nat == 500)%Q /\
    forall v d, nth_error (variables (model small_configuration ramp)) v = Some d ->
                respects a v d.
Proof.
  assert (Hs : (1 < scenarios small_configuration)%nat) by (vm_compute; lia).
  assert (Ht : (0 < slots small_configuration)%nat) by (vm_compute; lia).
  split; [exact Hs | split; [exact Ht |]].
  destruct (final_delta_only_in_balance small_configuration ramp 1 Hs Ht)
    as (bv & sv & final & Ho & Hfinal & Hcount & _ & _ & Hfree).
  assert (Hb : outcome small_configuration ramp
               = Ok (theBase, scenariosDict small_configuration 2
                                (scenarios small_configuration)))
    by (apply model_built; vm_compute; discriminate).
  rewrite Hb in Ho. injection Ho as <- <-.
  change (timeslotCount small_configuration - 1) with (Z.of_nat 23) in Hfinal.
  rewrite (lookupSlot_built small_configuration 1 23 Hs ltac:(vm_compute; lia)) in Hfinal.
  injection Hfinal as <-.
  split; [exact Hcount |].
  destruct (Hfree 500%Q) as (a & Hsat & Hval & _ & Hbounds).
  exists a. split; [exact Hsat | split; [exact Hval |]].
  apply Hbounds; split; vm_compute; discriminate.
Defined.

(** ** Which coefficients are sampled *)

Lemma coeff_rename (f : MPVariable -> MPVariable) (e : LinearExpr) (v : MPVariable) :
  (forall x y, f x = f y -> x = y) -> coeff (rename f e) (f v) = coeff e v.
Proof.
  intros Hinj.
  induction e as [x | c | c e IH | e IH c | e IH c | e1 IH1 e2 IH2 | e1 IH1 e2 IH2];
    cbn [rename coeff]; try congruence.
  destruct (Nat.eqb_spec (f x) (f v)) as [E | E], (Nat.eqb_spec x v) as [E' | E'];
    try reflexivity.
  - exfalso. apply E'. now apply Hinj.
  - exfalso. apply E. now rewrite E'.
Qed.

Lemma constraint_coeff_rename (f : MPVariable -> MPVariable) (c : Constraint)
    (v : MPVariable) :
  (forall x y, f x = f y -> x = y) ->
  constraint_coeff (rename_constraint f c) (f v) = constraint_coeff c v.
Proof.
  intros Hinj. destruct c as [l rh | l rh]; cbn [rename_constraint constraint_coeff];
    now rewrite !coeff_rename.
Qed.

Lemma index_of_constraint (T S i : nat) :
  (i < 5 * T * S)%nat ->
  exists s t j, (s < S)%nat /\ (t < T)%nat /\ (j < 5)%nat /\ i = (5 * (T * s + t) + j)%nat.
Proof.
  intros Hi.
  assert (HT : T <> 0%nat) by (intros ->; lia).
  exists (i / 5 / T)%nat, ((i / 5) mod T)%nat, (i mod 5)%nat.
  pose proof (Nat.div_mod_eq i 5) as H5.
  pose proof (Nat.div_mod_eq (i / 5) T) as HTq.
  pose proof (Nat.mod_upper_bound i 5 ltac:(lia)) as Hj.
  pose proof (Nat.mod_upper_bound (i / 5) T HT) as Ht.
  split; [| split; [exact Ht | split; [exact Hj | lia]]].
  apply Nat.Div0.div_lt_upper_bound. apply Nat.Div0.div_lt_upper_bound. lia.
Qed.

Section Coefficients.

Variable cfg : ProblemConfiguration.

Lemma productionLink_coeff r s t :
  (constraint_coeff (productionLink cfg theBase (scenarioBase cfg 2 s) r t)
                    (numberOfModules theBase)
   == - solarCoefficient cfg r t)%Q.
Proof.
  unfold productionLink, timeslotVars, scenarioBase, theBase.
  cbn [constraint_coeff coeff producedEnergy numberOfModules].
  settle_eqb. ring.
Qed.

(** [exchange] on a variable of scenario [s], and on a base variable. *)
Lemma exchange_own s s' v v' :
  (scenarioBase cfg 2 s <= v < scenarioBase cfg 2 (S s))%nat ->
  (v' + scenarioBase cfg 2 s = v + scenarioBase cfg 2 s')%nat ->
  exchange cfg s s' v = v'.
Proof.
  intros Hv Hv'. unfold exchange, inScenario.
  destruct (Nat.leb_spec (scenarioBase cfg 2 s) v); [| lia].
  destruct (Nat.ltb_spec v (scenarioBase cfg 2 (S s))); [| lia].
  cbn [andb]. lia.
Qed.

Lemma exchange_base s s' v : (v < 2)%nat -> exchange cfg s s' v = v.
Proof.
  intros Hv. unfold exchange, inScenario, scenarioBase.
  destruct (Nat.leb_spec (2 + 6 * slots cfg * s) v); [lia |].
  destruct (Nat.leb_spec (2 + 6 * slots cfg * s') v); [lia |].
  reflexivity.
Qed.

Lemma exchange_slot s s' t :
  (t < slots cfg)%nat ->
  exchange cfg s s' (storageLevel (timeslotVars (scenarioBase cfg 2 s) t))
  = storageLevel (timeslotVars (scenarioBase cfg 2 s') t) /\
  exchange cfg s s' (storageEnergyDelta (timeslotVars (scenarioBase cfg 2 s) t))
  = storageEnergyDelta (timeslotVars (scenarioBase cfg 2 s') t) /\
  exchange cfg s s' (producedEnergy (timeslotVars (scenarioBase cfg 2 s) t))
  = producedEnergy (timeslotVars (scenarioBase cfg 2 s') t) /\
  exchange cfg s s' (consumedEnergy (timeslotVars (scenarioBase cfg 2 s) t))
  = consumedEnergy (timeslotVars (scenarioBase cfg 2 s') t) /\
  exchange cfg s s' (boughtEnergy (timeslotVars (scenarioBase cfg 2 s) t))
  = boughtEnergy (timeslotVars (scenarioBase cfg 2 s') t) /\
  exchange cfg s s' (soldEnergy (timeslotVars (scenarioBase cfg 2 s) t))
  = soldEnergy (timeslotVars (scenarioBase cfg 2 s') t).
Proof.
  intros Ht. unfold timeslotVars.
  cbn [storageLevel storageEnergyDelta producedEnergy consumedEnergy
         boughtEnergy soldEnergy].
  repeat split; apply exchange_own; unfold scenarioBase; lia.
Qed.

Lemma exchange_fields s s' t :
  (t < slots cfg)%nat ->
  map (exchange cfg s s') (fields (timeslotVars (scenarioBase cfg 2 s) t))
  = fields (timeslotVars (scenarioBase cfg 2 s') t).
Proof.
  intros Ht. destruct (exchange_slot s s' t Ht) as (H0 & H1 & H2 & H3 & H4 & H5).
  unfold fields. cbn [map]. now rewrite H0, H1, H2, H3, H4, H5.
Qed.

Lemma exchange_involutive s s' v :
  exchange cfg s s' (exchange cfg s s' v) = v.
Proof.
  assert (Hapart : s = s' \/
                   (6 * slots cfg * s + 6 * slots cfg <= 6 * slots cfg * s'
                    \/ 6 * slots cfg * s' + 6 * slots cfg <= 6 * slots cfg * s)%nat).
  { destruct (Nat.eq_dec s s') as [E | E]; [left; exact E | right].
    apply scenarios_apart. exact E. }
  unfold exchange at 2.
  destruct (inScenario cfg s v) eqn:E1; [| destruct (inScenario cfg s' v) eqn:E2];
    unfold exchange, inScenario, scenarioBase in *;
    repeat match goal with
           | H : (_ && _)%bool = true |- _ => apply andb_true_iff in H; destruct H
           | H : (_ && _)%bool = false |- _ => apply andb_false_iff in H
           | H : Nat.leb _ _ = true |- _ => apply Nat.leb_le in H
           | H : Nat.leb _ _ = false |- _ => apply Nat.leb_gt in H
           | H : Nat.ltb _ _ = true |- _ => apply Nat.ltb_lt in H
           | H : Nat.ltb _ _ = false |- _ => apply Nat.ltb_ge in H
           end;
    repeat match goal with
           | |- context [Nat.leb ?a ?b] => destruct (Nat.leb_spec a b)
           | |- context [Nat.ltb ?a ?b] => destruct (Nat.ltb_spec a b)
           end;
    cbn [andb]; lia.
Qed.

Lemma exchange_injective s s' x y :
  exchange cfg s s' x = exchange cfg s s' y -> x = y.
Proof.
  intros H. rewrite <- (exchange_involutive s s' x), H. apply exchange_involutive.
Qed.

(** The energy balance, the storage-level constraint and the capacity
    bound of scenario [s'] are those of scenario [s] on the exchanged
    variables; the consumption link has the same coefficients. *)
Lemma energyBalance_exchange s s' t :
  (t < slots cfg)%nat ->
  rename_constraint (exchange cfg s s') (energyBalance (scenarioBase cfg 2 s) t)
  = energyBalance (scenarioBase cfg 2 s') t.
Proof.
  intros Ht. destruct (exchange_slot s s' t Ht) as (H0 & H1 & H2 & H3 & H4 & H5).
  unfold energyBalance. cbn zeta. cbn [rename_constraint rename].
  now rewrite H1, H2, H3, H4, H5.
Qed.

Lemma levelConstraint_exchange s s' t :
  (t < slots cfg)%nat ->
  rename_constraint (exchange cfg s s') (levelConstraint (scenarioBase cfg 2 s) t)
  = levelConstraint (scenarioBase cfg 2 s') t.
Proof.
  intros Ht. destruct (exchange_slot s s' t Ht) as (H0 & _).
  destruct t as [| k]; unfold levelConstraint.
  - unfold initialCondition. cbn [rename_constraint rename]. now rewrite H0.
  - destruct (exchange_slot s s' (S k - 1) ltac:(lia)) as (H0' & H1' & _).
    unfold levelRecursion. cbn [rename_constraint rename].
    now rewrite H0, H0', H1'.
Qed.

Lemma capacityBound_exchange s s' t :
  (t < slots cfg)%nat ->
  rename_constraint (exchange cfg s s') (capacityBound theBase (scenarioBase cfg 2 s) t)
  = capacityBound theBase (scenarioBase cfg 2 s') t.
Proof.
  intros Ht. destruct (exchange_slot s s' t Ht) as (H0 & _).
  unfold capacityBound. cbn [rename_constraint rename].
  rewrite H0. unfold theBase. cbn [sizeOfStorageInKwh].
  now rewrite (exchange_base s s' 1) by lia.
Qed.

Lemma consumptionLink_coeff r r' s s' t v :
  (t < slots cfg)%nat ->
  constraint_coeff (consumptionLink cfg (scenarioBase cfg 2 s') r' t)
                   (exchange cfg s s' v)
  = constraint_coeff (consumptionLink cfg (scenarioBase cfg 2 s) r t) v.
Proof.
  intros Ht. destruct (exchange_slot s s' t Ht) as (_ & _ & _ & H3 & _).
  rewrite <- (constraint_coeff_rename (exchange cfg s s') _ v (exchange_injective s s')).
  unfold consumptionLink. cbn [rename_constraint rename constraint_coeff coeff].
  now rewrite H3.
Qed.

Lemma productionLink_other_coeff r r' s s' t v :
  (t < slots cfg)%nat -> v <> numberOfModules theBase ->
  (constraint_coeff (productionLink cfg theBase (scenarioBase cfg 2 s') r' t)
                    (exchange cfg s s' v)
   == constraint_coeff (productionLink cfg theBase (scenarioBase cfg 2 s) r t) v)%Q.
Proof.
  intros Ht Hv. destruct (exchange_slot s s' t Ht) as (_ & _ & H2 & _).
  assert (Hv' : exchange cfg s s' v <> 0%nat).
  { intros E. apply Hv. apply (exchange_injective s s').
    rewrite E. unfold theBase. cbn [numberOfModules].
    now rewrite exchange_base by lia. }
  unfold productionLink, theBase in *.
  cbn [constraint_coeff coeff numberOfModules] in *.
  rewrite <- H2.
  destruct (Nat.eqb_spec (exchange cfg s s'
                            (producedEnergy (timeslotVars (scenarioBase cfg 2 s) t)))
                         (exchange cfg s s' v)) as [E | E],
           (Nat.eqb_spec (producedEnergy (timeslotVars (scenarioBase cfg 2 s) t)) v)
             as [E' | E'];
    try (exfalso; apply E'; now apply (exchange_injective s s'));
    try (exfalso; apply E; now rewrite E');
    destruct (Nat.eqb_spec 0 (exchange cfg s s' v)); try (exfalso; lia);
    destruct (Nat.eqb_spec 0 v); try (exfalso; lia); ring.
Qed.

End Coefficients.

(** C6, as the code has it. Every constraint of the model is one of the
    five emitted for some scenario and timeslot. The production link is
    the only one in which a sampled value multiplies a variable: its
    coefficient of [numberOfModules] is the solar value sampled for that
    scenario and timeslot, and its other coefficients are sampled by
    nothing. The consumption link is sampled too, in its right-hand side:
    the load drawn for that scenario and timeslot. Exchanging the
    variables of two scenarios position by position, which leaves the base
    variables alone, every coefficient of the four other constraints is
    the same in both scenarios whatever was sampled, and the energy
    balance, the storage-level constraint and the capacity bound are the
    same constraints altogether. *)
Theorem only_production_link_is_sampled (cfg : ProblemConfiguration)
    (r r' : RandomState) (s s' t : nat) :
  (s < scenarios cfg)%nat -> (s' < scenarios cfg)%nat -> (t < slots cfg)%nat ->
  let solar :=
    Qmin (Qmax (500 + 200 * stream r (cursor r + 2 * slots cfg * s + t)%nat) 0
          * area_per_module_in_m2 cfg) (max_watts_per_module cfg) in
  let load :=
    Qmax (10000 + 2000 * stream r (cursor r + 2 * slots cfg * s + slots cfg + t)%nat) 0 in
  exists bv sv this,
    outcome cfg r = Ok (bv, sv) /\
    lookupSlot sv (Z.of_nat s) (Z.of_nat t) = Some this /\
    (forall i c, nth_error (constraints (model cfg r)) i = Some c ->
       exists s0 t0 j,
         (s0 < scenarios cfg)%nat /\ (t0 < slots cfg)%nat /\ (j < 5)%nat /\
         emitted cfg r s0 t0 j = Some c) /\
    (exists p,
       emitted cfg r s t 0 = Some p /\
       p = CEq (Var (producedEnergy this)) (CMul solar (Var (numberOfModules bv))) /\
       (constraint_coeff p (numberOfModules bv) == - solar)%Q /\
       exists p',
         emitted cfg r' s' t 0 = Some p' /\
         forall v, v <> numberOfModules bv ->
           (constraint_coeff p' (exchange cfg s s' v) == constraint_coeff p v)%Q) /\
    emitted cfg r s t 1 = Some (CEq (Var (consumedEnergy this)) (Const load)) /\
    (forall v, exchange cfg s s' (exchange cfg s s' v) = v) /\
    exchange cfg s s' (numberOfModules bv) = numberOfModules bv /\
    exchange cfg s s' (sizeOfStorageInKwh bv) = sizeOfStorageInKwh bv /\
    (forall u, (u < slots cfg)%nat ->
       exists a b,
         lookupSlot sv (Z.of_nat s) (Z.of_nat u) = Some a /\
         lookupSlot sv (Z.of_nat s') (Z.of_nat u) = Some b /\
         map (exchange cfg s s') (fields a) = fields b) /\
    (forall j, (1 <= j < 5)%nat ->
       exists c c',
         emitted cfg r s t j = Some c /\
         emitted cfg r' s' t j = Some c' /\
         forall v, constraint_coeff c' (exchange cfg s s' v) = constraint_coeff c v) /\
    (forall j, (2 <= j < 5)%nat ->
       exists c,
         emitted cfg r s t j = Some c /\
         emitted cfg r' s' t j = Some (rename_constraint (exchange cfg s s') c)).
Proof.
  intros Hs Hs' Ht solar load.
  destruct (indices_run cfg s t Hs Ht) as [HT HS].
  destruct (model_built cfg r HT HS) as [Hm Ho].
  exists theBase, (scenariosDict cfg 2 (scenarios cfg)),
    (timeslotVars (scenarioBase cfg 2 s) t).
  split; [exact Ho |].
  split; [now apply lookupSlot_built |].
  split.
  { intros i c Hi.
    assert (Hlen : (i < 5 * slots cfg * scenarios cfg)%nat).
    { rewrite <- (length_modelConstraints cfg 2 theBase r (scenarios cfg)).
      apply nth_error_Some. rewrite Hm in Hi. cbn [builtSolver constraints] in Hi.
      now rewrite Hi. }
    destruct (index_of_constraint _ _ _ Hlen) as (s0 & t0 & j & Hs0 & Ht0 & Hj & ->).
    exists s0, t0, j. repeat (split; [assumption |]). exact Hi. }
  split.
  { eexists. split; [rewrite emitted_built by (assumption || lia); reflexivity |].
    split; [reflexivity |].
    split; [apply productionLink_coeff |].
    eexists. split; [rewrite emitted_built by (assumption || lia); reflexivity |].
    intros v Hv. now apply productionLink_other_coeff. }
  split; [rewrite emitted_built by (assumption || lia); reflexivity |].
  split; [apply exchange_involutive |].
  split; [apply exchange_base; cbn; lia |].
  split; [apply exchange_base; cbn; lia |].
  split.
  { intros u Hu. eexists. eexists.
    split; [now apply lookupSlot_built |].
    split; [now apply lookupSlot_built |].
    now apply exchange_fields. }
  split.
  - intros j Hj. rewrite !emitted_built by (assumption || lia).
    destruct j as [| [| [| [| [| j]]]]]; try lia;
      (eexists; eexists; split; [reflexivity | split; [reflexivity |]]); intros v.
    + now apply consumptionLink_coeff.
    + rewrite <- (energyBalance_exchange cfg s s' t Ht).
      apply constraint_coeff_rename, exchange_injective.
    + rewrite <- (levelConstraint_exchange cfg s s' t Ht).
      apply constraint_coeff_rename, exchange_injective.
    + rewrite <- (capacityBound_exchange cfg s s' t Ht).
      apply constraint_coeff_rename, exchange_injective.
  - intros j Hj. rewrite !emitted_built by (assumption || lia).
    destruct j as [| [| [| [| [| j]]]]]; try lia;
      (eexists; split; [reflexivity |]); cbn [timeslotConstraints nth_error]; f_equal;
      symmetry.
    + now apply energyBalance_exchange.
    + now apply levelConstraint_exchange.
    + now apply capacityBound_exchange.
Qed.

Lemma only_production_link_is_sampled_witness :
  (0 < scenarios small_configuration)%nat /\ (1 < scenarios small_configuration)%nat /\
  (3 < slots small_configuration)%nat /\
  (exists p, emitted small_configuration ramp 0 3 0 = Some p /\
             (constraint_coeff p 0%nat == - 0)%Q) /\
  (exists p, emitted small_configuration ramp 1 3 0 = Some p /\
             (constraint_coeff p 0%nat == - 492)%Q) /\
  (exists c c',
     emitted small_configuration ramp 0 3 2 = Some c /\
     emitted small_configuration ramp 1 3 2 = Some c' /\
     forall v, constraint_coeff c' (exchange small_configuration 0 1 v)
               = constraint_coeff c v).
Proof.
  assert (H0 : (0 < scenarios small_configuration)%nat) by (vm_compute; lia).
  assert (H1 : (1 < scenarios small_configuration)%nat) by (vm_compute; lia).
  assert (Ht : (3 < slots small_configuration)%nat) by (vm_compute; lia).
  assert (Hb : outcome small_configuration ramp
               = Ok (theBase, scenariosDict small_configuration 2
                                (scenarios small_configuration)))
    by (apply model_built; vm_compute; discriminate).
  split; [exact H0 | split; [exact H1 | split; [exact Ht |]]].
  split; [| split].
  - destruct (only_production_link_is_sampled small_configuration ramp ramp 0 1 3
                H0 H1 Ht)
      as (bv & sv & this & Ho & _ & _ & (p & Hp & _ & Hc & _) & _).
    rewrite Hb in Ho. injection Ho as <- <-.
    exists p. split; [exact Hp |]. rewrite Hc. vm_compute. reflexivity.
  - destruct (only_production_link_is_sampled small_configuration ramp ramp 1 0 3
                H1 H0 Ht)
      as (bv & sv & this & Ho & _ & _ & (p & Hp & _ & Hc & _) & _).
    rewrite Hb in Ho. injection Ho as <- <-.
    exists p. split; [exact Hp |]. rewrite Hc. vm_compute. reflexivity.
  - destruct (only_production_link_is_sampled small_configuration ramp ramp 0 1 3
                H0 H1 Ht)
      as (bv & sv & this & _ & _ & _ & _ & _ & _ & _ & _ & _ & Hsame & _).
    exact (Hsame 2%nat ltac:(lia)).
Defined.

(** C6 fails as stated: the production link is not the only constraint
    that differs from scenario to scenario. At timeslot 3 the consumption
    link fixes [consumedEnergy] to 6700 in scenario 0 and to 11500 in
    scenario 1, the loads sampled for the two scenarios. *)
Lemma consumption_link_differs_across_scenarios :
  exists load0 load1,
    emitted small_configuration ramp 0 3 1 = Some (CEq (Var 23%nat) (Const load0)) /\
    emitted small_configuration ramp 1 3 1 = Some (CEq (Var 167%nat) (Const load1)) /\
    exchange small_configuration 0 1 23%nat = 167%nat /\
    (load0 == 6700)%Q /\ (load1 == 11500)%Q /\
    ~ (constraint_rhs (CEq (Var 23%nat) (Const load0))
       == constraint_rhs (CEq (Var 167%nat) (Const load1)))%Q.
Proof.
  assert (H0 : (0 < scenarios small_configuration)%nat) by (vm_compute; lia).
  assert (H1 : (1 < scenarios small_configuration)%nat) by (vm_compute; lia).
  assert (Ht : (3 < slots small_configuration)%nat) by (vm_compute; lia).
  eexists. eexists.
  split; [rewrite emitted_built by (assumption || lia); reflexivity |].
  split; [rewrite emitted_built by (assumption || lia); reflexivity |].
  split; [reflexivity |].
  split; [vm_compute; reflexivity |].
  split; [vm_compute; reflexivity |].
  vm_compute. discriminate.
Qed.

(** ** Reproducibility *)

Lemma flat_map_ext_in {A B} (f g : A -> list B) l :
  (forall x, In x l -> f x = g x) -> flat_map f l = flat_map g l.
Proof.
  induction l as [| x l IH]; intros H; cbn; [reflexivity |].
  rewrite (H x) by (left; reflexivity).
  rewrite IH by (intros; apply H; right; assumption).
  reflexivity.
Qed.

Lemma fold_left_ext_in {A B} (f g : A -> B -> A) l :
  (forall a x, In x l -> f a x = g a x) -> forall a, fold_left f l a = fold_left g l a.
Proof.
  induction l as [| x l IH]; intros H a; cbn; [reflexivity |].
  rewrite (H a x) by (left; reflexivity).
  apply IH. intros; apply H; right; assumption.
Qed.

Section Reproducibility.

Variable cfg : ProblemConfiguration.
Variable r1 : RandomState.
Variable r2 : RandomState.

Lemma scenario_window (n s t : nat) :
  (s < n)%nat -> (t < 2 * slots cfg)%nat ->
  (2 * slots cfg * s + t < 2 * slots cfg * n)%nat.
Proof.
  intros Hs Ht.
  assert (2 * slots cfg * S s <= 2 * slots cfg * n)%nat
    by (apply Nat.mul_le_mono_l; lia).
  lia.
Qed.

Lemma modelConstraints_same n :
  same_variates r1 r2 (2 * slots cfg * n) ->
  modelConstraints cfg 2 theBase r1 n = modelConstraints cfg 2 theBase r2 n.
Proof.
  intros H. unfold modelConstraints.
  apply flat_map_ext_in. intros s Hs. apply in_seq in Hs.
  unfold scenarioConstraints.
  apply flat_map_ext_in. intros t Ht. apply in_seq in Ht.
  unfold timeslotConstraints, productionLink, consumptionLink, solarCoefficient,
    usageLoad, scenarioRandom, advance.
  cbn [stream cursor].
  assert (H1 : stream r1 (cursor r1 + 2 * slots cfg * s + t)
               = stream r2 (cursor r2 + 2 * slots cfg * s + t))
    by (rewrite <- !Nat.add_assoc; apply H; apply scenario_window; lia).
  assert (H2 : stream r1 (cursor r1 + 2 * slots cfg * s + slots cfg + t)
               = stream r2 (cursor r2 + 2 * slots cfg * s + slots cfg + t))
    by (rewrite <- !Nat.add_assoc; apply H; apply scenario_window; lia).
  rewrite H1, H2. reflexivity.
Qed.

Lemma objectiveExpr_same n :
  same_variates r1 r2 (2 * slots cfg * n + 2 * slots cfg) ->
  objectiveExpr cfg 2 theBase (scenarioRandom cfg r1 n)
  = objectiveExpr cfg 2 theBase (scenarioRandom cfg r2 n).
Proof.
  intros H. unfold objectiveExpr. do 3 f_equal.
  apply map_ext. intros s. unfold scenarioCosts.
  apply fold_left_ext_in. intros costs t Ht. apply in_seq in Ht.
  unfold costStep, purchasePrice, sellPrice, scenarioRandom, advance.
  cbn [stream cursor].
  assert (H1 : stream r1 (cursor r1 + 2 * slots cfg * n + t)
               = stream r2 (cursor r2 + 2 * slots cfg * n + t))
    by (rewrite <- !Nat.add_assoc; apply H; lia).
  assert (H2 : stream r1 (cursor r1 + 2 * slots cfg * n + slots cfg + t)
               = stream r2 (cursor r2 + 2 * slots cfg * n + slots cfg + t))
    by (rewrite <- !Nat.add_assoc; apply H; lia).
  rewrite H1, H2. reflexivity.
Qed.

Lemma same_variates_fewer n m :
  (m <= n)%nat -> same_variates r1 r2 n -> same_variates r1 r2 m.
Proof. intros Hle H i Hi. apply H. lia. Qed.

End Reproducibility.

(** C5, as the code has it: the build takes no seed and samples from the
    process-wide generator. Two builds of one configuration that find the
    generator delivering the same next variates produce the same
    variables, constraints, objective and outcome; a successful build
    leaves the generator advanced by [2 * slots * scenarios + 2 * slots]
    variates. *)
Theorem build_determined_by_generator_state (cfg : ProblemConfiguration)
    (r1 r2 : RandomState) :
  same_variates r1 r2 (variatesConsumed cfg) ->
  model cfg r1 = model cfg r2 /\
  outcome cfg r1 = outcome cfg r2 /\
  (0 <= timeslotCount cfg -> number_of_scenarios cfg <> 0 ->
   random (snd (buildModel cfg (fresh r1))) = advance r1 (variatesConsumed cfg)).
Proof.
  intros H. unfold model, outcome, variatesConsumed in *.
  rewrite !buildModel_run.
  destruct (Z.ltb_spec (timeslotCount cfg) 0) as [Hneg | Hpos].
  - split; [reflexivity | split; [reflexivity | lia]].
  - assert (Hc : modelConstraints cfg 2 theBase r1 (scenarios cfg)
                 = modelConstraints cfg 2 theBase r2 (scenarios cfg))
      by (apply modelConstraints_same;
          apply (same_variates_fewer r1 r2
                   (2 * slots cfg * scenarios cfg + 2 * slots cfg)); [lia | exact H]).
    destruct (Z.eqb_spec (number_of_scenarios cfg) 0) as [Hz | Hnz].
    + cbn [snd fst constrainedWorld solver]. rewrite Hc.
      split; [reflexivity | split; [reflexivity | contradiction]].
    + cbn [snd fst solver random]. unfold builtSolver.
      rewrite Hc, (objectiveExpr_same cfg r1 r2 _ H).
      split; [reflexivity | split; reflexivity].
Qed.

Lemma build_determined_by_generator_state_witness :
  same_variates ramp shifted_ramp (variatesConsumed small_configuration) /\
  model small_configuration ramp = model small_configuration shifted_ramp.
Proof.
  assert (H : same_variates ramp shifted_ramp (variatesConsumed small_configuration)).
  { intros i _. cbn [ramp shifted_ramp stream cursor].
    now replace (7 + i - 7)%nat with (0 + i)%nat by lia. }
  split; [exact H |].
  exact (proj1 (build_determined_by_generator_state small_configuration
                  ramp shifted_ramp H)).
Defined.

(** C5 fails as stated: a second build of the same configuration in the
    same process, which finds the generator where the first build left it,
    gets another production-link coefficient for scenario 0, timeslot 0. *)
Lemma second_build_differs :
  let left := random (snd (buildModel small_configuration (fresh ramp))) in
  exists p1 p2,
    emitted small_configuration ramp 0 0 0 = Some p1 /\
    emitted small_configuration left 0 0 0 = Some p2 /\
    ~ (constraint_coeff p1 0%nat == constraint_coeff p2 0%nat)%Q.
Proof.
  intros left.
  assert (H0 : (0 < scenarios small_configuration)%nat) by (vm_compute; lia).
  assert (Ht : (0 < slots small_configuration)%nat) by (vm_compute; lia).
  eexists. eexists.
  split; [rewrite emitted_built by (assumption || lia); reflexivity |].
  split; [rewrite emitted_built by (assumption || lia); reflexivity |].
  rewrite !productionLink_coeff.
  assert (Hleft : left = advance ramp (variatesConsumed small_configuration)).
  { unfold left. rewrite buildModel_run. reflexivity. }
  rewrite Hleft. vm_compute. discriminate.
Qed.

(** ** Configurations that are not valid *)

(** C8, as the code has it: nothing is validated. For every configuration
    the two base variables are declared with the configured bounds as
    given, then six variables per scenario and timeslot, and only then can
    the build fail: with [ValueError] when [numberOfDays] is negative, with
    [ZeroDivisionError] when [numberOfScenarios] is zero; otherwise it
    completes, whatever the bound pairs are. *)
Theorem no_configuration_validation (cfg : ProblemConfiguration) (r : RandomState) :
  variables (model cfg r)
    = [ {| var_integer := true;
           var_lb := Fin (min_number_of_modules cfg);
           var_ub := Fin (max_number_of_modules cfg);
           var_name := Literal "numberOfModules" |};
        {| var_integer := false;
           var_lb := Fin (min_storage_size_in_kwh cfg);
           var_ub := Fin (max_storage_size_in_kwh cfg);
           var_name := Literal "sizeOfStorageInKwh" |} ]
      ++ modelDecls cfg (scenarios cfg) /\
  outcome cfg r
    = if number_of_days cfg <? 0 then Raise ValueError
      else if number_of_scenarios cfg =? 0 then Raise ZeroDivisionError
           else Ok (theBase, scenariosDict cfg 2 (scenarios cfg)).
Proof.
  unfold model, outcome. rewrite buildModel_run.
  replace (number_of_days cfg <? 0) with (timeslotCount cfg <? 0)
    by (unfold timeslotCount;
        destruct (Z.ltb_spec (number_of_days cfg * 24) 0),
                 (Z.ltb_spec (number_of_days cfg) 0); (reflexivity || lia)).
  destruct (timeslotCount cfg <? 0); [split; reflexivity |].
  destruct (number_of_scenarios cfg =? 0); split; reflexivity.
Qed.

(** C8 fails as stated: with both bound pairs inverted the build succeeds
    and declares all 290 variables. *)
Lemma inverted_bounds_accepted :
  (max_number_of_modules inverted_configuration
   < min_number_of_modules inverted_configuration)%Q /\
  (max_storage_size_in_kwh inverted_configuration
   < min_storage_size_in_kwh inverted_configuration)%Q /\
  (exists built, outcome inverted_configuration ramp = Ok built) /\
  NumVariables (model inverted_configuration ramp) = 290%nat /\
  NumConstraints (model inverted_configuration ramp) = 240%nat.
Proof.
  split; [reflexivity | split; [reflexivity |]].
  assert (HT : 0 <= timeslotCount inverted_configuration) by (vm_compute; discriminate).
  assert (HS : number_of_scenarios inverted_configuration <> 0) by (vm_compute; discriminate).
  destruct (model_built inverted_configuration ramp HT HS) as [Hm Ho].
  split; [eexists; exact Ho |].
  rewrite Hm. unfold NumVariables, NumConstraints. cbn [builtSolver variables constraints].
  rewrite length_app, length_modelDecls, length_modelConstraints.
  split; reflexivity.
Qed.

(** * Further properties of the construction *)

(** ** Linearity *)

Lemma eval_bump a v d e :
  (eval (bump a v d) e == eval a e + d * coeff e v)%Q.
Proof.
  induction e as [x | c | c e IH | e IH c | e IH c | e1 IH1 e2 IH2 | e1 IH1 e2 IH2];
    cbn [eval coeff].
  - unfold bump. destruct (Nat.eqb x v); ring.
  - ring.
  - rewrite IH. ring.
  - rewrite IH. ring.
  - rewrite IH. unfold Qdiv. ring.
  - rewrite IH1, IH2. ring.
  - rewrite IH1, IH2. ring.
Qed.

Lemma satisfies_bump2 a v1 d1 v2 d2 c :
  (d1 * constraint_coeff c v1 + d2 * constraint_coeff c v2 == 0)%Q ->
  satisfies a c -> satisfies (bump (bump a v1 d1) v2 d2) c.
Proof.
  destruct c as [l rh | l rh]; cbn [satisfies constraint_coeff];
    rewrite !eval_bump; intros H Hs; lra.
Qed.

Lemma sumQ_app l1 l2 : (sumQ (l1 ++ l2) == sumQ l1 + sumQ l2)%Q.
Proof.
  unfold sumQ. induction l1 as [| x l1 IH]; cbn [app fold_right]; [ring |].
  rewrite IH. ring.
Qed.

Lemma sumQ_zero {A} (f : A -> Q) l :
  (forall x, In x l -> (f x == 0)%Q) -> (sumQ (map f l) == 0)%Q.
Proof.
  unfold sumQ. induction l as [| x l IH]; intros H; cbn [map fold_right]; [reflexivity |].
  rewrite (H x) by (left; reflexivity).
  rewrite IH by (intros; apply H; right; assumption). ring.
Qed.

Lemma sumQ_single (f : nat -> Q) n k :
  (k < n)%nat ->
  (forall i, (i < n)%nat -> i <> k -> (f i == 0)%Q) ->
  (sumQ (map f (seq 0 n)) == f k)%Q.
Proof.
  intros Hk Hz.
  replace n with (k + S (n - k - 1))%nat by lia.
  rewrite seq_app, map_app, sumQ_app. cbn [seq map Nat.add].
  change (f k :: map f (seq (S k) (n - k - 1)))
    with ([f k] ++ map f (seq (S k) (n - k - 1))).
  rewrite sumQ_app.
  rewrite !sumQ_zero.
  - unfold sumQ. cbn [fold_right]. ring.
  - intros i Hi. apply in_seq in Hi. apply Hz; lia.
  - intros i Hi. apply in_seq in Hi. apply Hz; lia.
Qed.

(** ** Moving along the energy balance *)

Section Moves.

Variable cfg : ProblemConfiguration.

Lemma bump2_preserves_model (r : RandomState) a v1 d1 v2 d2 n :
  (forall s' t', (s' < n)%nat -> (t' < slots cfg)%nat ->
     Forall (fun c => (d1 * constraint_coeff c v1 + d2 * constraint_coeff c v2 == 0)%Q)
            (timeslotConstraints cfg theBase (scenarioBase cfg 2 s')
               (scenarioRandom cfg r s') t')) ->
  Forall (satisfies a) (modelConstraints cfg 2 theBase r n) ->
  Forall (satisfies (bump (bump a v1 d1) v2 d2)) (modelConstraints cfg 2 theBase r n).
Proof.
  intros Hz Ha. unfold modelConstraints, scenarioConstraints in *.
  rewrite List.Forall_flat_map in *. rewrite List.Forall_forall in *.
  intros s' Hs'. specialize (Ha s' Hs'). apply in_seq in Hs'.
  rewrite List.Forall_flat_map in *. rewrite List.Forall_forall in *.
  intros t' Ht'. specialize (Ha t' Ht'). apply in_seq in Ht'.
  specialize (Hz s' t' ltac:(lia) ltac:(lia)).
  rewrite List.Forall_forall in *.
  intros c Hc. apply satisfies_bump2; [apply Hz | apply Ha]; exact Hc.
Qed.

(** Unfold the five constraints of a timeslot down to tests on handles. *)
Ltac open_block :=
  unfold timeslotConstraints, productionLink, consumptionLink, energyBalance,
    capacityBound, levelConstraint, initialCondition, levelRecursion,
    theBase, timeslotVars, scenarioBase;
  repeat match goal with |- Forall _ _ => constructor end;
  cbn [constraint_coeff coeff storageLevel storageEnergyDelta producedEnergy
         consumedEnergy boughtEnergy soldEnergy numberOfModules sizeOfStorageInKwh].

(** Buying and selling enter the balance of their timeslot with opposite
    signs and enter no other constraint. *)
Lemma netting_block (rs : RandomState) s t s' t' d :
  (t < slots cfg)%nat -> (t' < slots cfg)%nat ->
  Forall (fun c =>
            (d * constraint_coeff c (boughtEnergy (timeslotVars (scenarioBase cfg 2 s) t))
             + d * constraint_coeff c (soldEnergy (timeslotVars (scenarioBase cfg 2 s) t))
             == 0)%Q)
         (timeslotConstraints cfg theBase (scenarioBase cfg 2 s') rs t').
Proof.
  intros Ht Ht'.
  destruct (Nat.eq_dec s' s) as [-> | Hs].
  - destruct (Nat.eq_dec t' t) as [E | Hneq]; destruct t' as [| k];
      open_block; settle_eqb; ring.
  - destruct (scenarios_apart (slots cfg) s' s Hs); destruct t' as [| k];
      open_block; settle_eqb; ring.
Qed.

(** The storage delta of the last timeslot and the sale of that timeslot
    enter its balance with the same sign; the delta enters nothing else. *)
Lemma last_hour_block (rs : RandomState) s s' t' d :
  (0 < slots cfg)%nat -> (t' < slots cfg)%nat ->
  Forall (fun c =>
            ((- d) * constraint_coeff c
                   (storageEnergyDelta (timeslotVars (scenarioBase cfg 2 s) (slots cfg - 1)))
             + d * constraint_coeff c
                   (soldEnergy (timeslotVars (scenarioBase cfg 2 s) (slots cfg - 1)))
             == 0)%Q)
         (timeslotConstraints cfg theBase (scenarioBase cfg 2 s') rs t').
Proof.
  intros Hpos Ht'.
  destruct (Nat.eq_dec s' s) as [-> | Hs].
  - destruct (Nat.eq_dec t' (slots cfg - 1)%nat) as [E | Hneq]; destruct t' as [| k];
      open_block; settle_eqb; ring.
  - destruct (scenarios_apart (slots cfg) s' s Hs); destruct t' as [| k];
      open_block; settle_eqb; ring.
Qed.

End Moves.

(** ** Coefficients of the objective *)

Lemma coeff_fold_Plus v l e0 :
  (coeff (fold_left Plus l e0) v == coeff e0 v + sumQ (map (fun e => coeff e v) l))%Q.
Proof.
  unfold sumQ.
  revert e0. induction l as [| e l IH]; intros e0; cbn [fold_left map fold_right].
  - ring.
  - rewrite IH. cbn [coeff]. ring.
Qed.

Section ObjectiveCoefficients.

Variable cfg : ProblemConfiguration.

Lemma coeff_costSteps base rp v l e0 :
  (coeff (fold_left (costStep cfg base rp) l e0) v
   == coeff e0 v + sumQ (map (costTerm cfg base rp v) l))%Q.
Proof.
  unfold sumQ.
  revert e0. induction l as [| t l IH]; intros e0; cbn [fold_left map fold_right].
  - ring.
  - rewrite IH. unfold costStep, costTerm. cbn [coeff]. ring.
Qed.

Lemma coeff_scenarioCosts base rp v :
  (coeff (scenarioCosts cfg base rp) v == sumQ (map (costTerm cfg base rp v) (seq 0 (slots cfg))))%Q.
Proof. unfold scenarioCosts. rewrite coeff_costSteps. cbn [coeff]. ring. Qed.

Lemma coeff_objectiveExpr rp v :
  (coeff (objectiveExpr cfg 2 theBase rp) v
   == (if Nat.eqb 0 v then 1 else 0) * price_per_module_in_euro cfg
      + (if Nat.eqb 1 v then 1 else 0) * storage_price_per_kwh_in_euro cfg
      + sumQ (map (fun s => sumQ (map (costTerm cfg (scenarioBase cfg 2 s) rp v)
                                      (seq 0 (slots cfg))))
                  (seq 0 (scenarios cfg)))
        / inject_Z (number_of_scenarios cfg))%Q.
Proof.
  unfold objectiveExpr, investmentExpr. cbn [coeff theBase numberOfModules sizeOfStorageInKwh].
  rewrite coeff_fold_Plus, map_map. cbn [coeff].
  rewrite (sumQ_ext _ (fun s => sumQ (map (costTerm cfg (scenarioBase cfg 2 s) rp v)
                                           (seq 0 (slots cfg)))))
    by (intros; apply coeff_scenarioCosts).
  unfold Qdiv. ring.
Qed.

(** The contribution of the timeslots to the coefficient of field [j] of
    timeslot [t] of scenario [s]. *)
Lemma costTerms_of_handle rp s t j :
  (s < scenarios cfg)%nat -> (t < slots cfg)%nat -> (j < 6)%nat ->
  (sumQ (map (fun s' => sumQ (map (costTerm cfg (scenarioBase cfg 2 s') rp
                                     (scenarioBase cfg 2 s + 6 * t + j)%nat)
                                  (seq 0 (slots cfg))))
             (seq 0 (scenarios cfg)))
   == match j with
      | 4%nat => purchasePrice rp t / 1000
      | 5%nat => - (sellPrice cfg rp t / 1000)
      | _ => 0
      end)%Q.
Proof.
  intros Hs Ht Hj.
  rewrite (sumQ_single _ _ s Hs).
  - rewrite (sumQ_single _ _ t Ht).
    + unfold costTerm, timeslotVars, scenarioBase. cbn [boughtEnergy soldEnergy].
      destruct j as [| [| [| [| [| [| j]]]]]]; [| | | | | | lia];
        settle_eqb; unfold Qdiv; ring.
    + intros t' Ht' Hne. unfold costTerm, timeslotVars, scenarioBase.
      cbn [boughtEnergy soldEnergy]. settle_eqb. unfold Qdiv. ring.
  - intros s' Hs' Hne. apply sumQ_zero. intros t' Hin. apply in_seq in Hin.
    unfold costTerm, timeslotVars, scenarioBase. cbn [boughtEnergy soldEnergy].
    destruct (scenarios_apart (slots cfg) s' s Hne); settle_eqb; unfold Qdiv; ring.
Qed.

Lemma costTerms_of_base rp v :
  (v < 2)%nat ->
  (sumQ (map (fun s' => sumQ (map (costTerm cfg (scenarioBase cfg 2 s') rp v)
                                  (seq 0 (slots cfg))))
             (seq 0 (scenarios cfg))) == 0)%Q.
Proof.
  intros Hv. apply sumQ_zero. intros s' _. apply sumQ_zero. intros t' _.
  unfold costTerm, timeslotVars, scenarioBase. cbn [boughtEnergy soldEnergy].
  settle_eqb. unfold Qdiv. ring.
Qed.

Lemma objective_coeff_handle rp s t j :
  (s < scenarios cfg)%nat -> (t < slots cfg)%nat -> (j < 6)%nat ->
  (coeff (objectiveExpr cfg 2 theBase rp) (scenarioBase cfg 2 s + 6 * t + j)%nat
   == match j with
      | 4%nat => purchasePrice rp t / 1000
      | 5%nat => - (sellPrice cfg rp t / 1000)
      | _ => 0
      end / inject_Z (number_of_scenarios cfg))%Q.
Proof.
  intros Hs Ht Hj. rewrite coeff_objectiveExpr, costTerms_of_handle by assumption.
  unfold scenarioBase. settle_eqb. ring.
Qed.

End ObjectiveCoefficients.

(** ** Reading assignments of the built model *)

Section Assignments.

Variable cfg : ProblemConfiguration.
Variable r : RandomState.

Lemma meets_built (a : Assignment) :
  0 <= timeslotCount cfg -> number_of_scenarios cfg <> 0 ->
  meets_constraints cfg r a ->
  Forall (satisfies a) (modelConstraints cfg 2 theBase r (scenarios cfg)).
Proof.
  intros HT HS H. unfold meets_constraints in H.
  now rewrite (proj1 (model_built cfg r HT HS)) in H.
Qed.

Lemma meets_block (a : Assignment) (s t : nat) :
  (s < scenarios cfg)%nat -> (t < slots cfg)%nat ->
  meets_constraints cfg r a ->
  Forall (satisfies a)
         (timeslotConstraints cfg theBase (scenarioBase cfg 2 s)
            (scenarioRandom cfg r s) t).
Proof.
  intros Hs Ht H. destruct (indices_run cfg s t Hs Ht) as [HT HS].
  apply (meets_built a HT HS) in H.
  unfold modelConstraints, scenarioConstraints in H.
  rewrite List.Forall_flat_map, List.Forall_forall in H.
  specialize (H s ltac:(apply in_seq; lia)).
  rewrite List.Forall_flat_map, List.Forall_forall in H.
  apply H. apply in_seq. lia.
Qed.

Lemma declared_handle (s t j : nat) :
  (s < scenarios cfg)%nat -> (t < slots cfg)%nat -> (j < 6)%nat ->
  nth_error (variables (model cfg r)) (scenarioBase cfg 2 s + 6 * t + j)
  = nth_error (timeslotDecls cfg t) j.
Proof.
  intros Hs Ht Hj. destruct (indices_run cfg s t Hs Ht) as [HT HS].
  rewrite (proj1 (model_built cfg r HT HS)). cbn [builtSolver variables].
  rewrite nth_error_app2 by (cbn [baseDecls length]; unfold scenarioBase; lia).
  cbn [baseDecls length]. unfold scenarioBase.
  replace (2 + 6 * slots cfg * s + 6 * t + j - 2)%nat
    with (6 * slots cfg * s + 6 * t + j)%nat by lia.
  now apply nth_error_modelDecls.
Qed.

Lemma handle_bound (s t j : nat) :
  (s < scenarios cfg)%nat -> (t < slots cfg)%nat -> (j < 6)%nat ->
  (scenarioBase cfg 2 s + 6 * t + j < 2 + 6 * slots cfg * scenarios cfg)%nat.
Proof.
  intros Hs Ht Hj. unfold scenarioBase.
  assert (slots cfg * S s <= slots cfg * scenarios cfg)%nat
    by (apply Nat.mul_le_mono_l; lia).
  lia.
Qed.

Lemma respects_bump_other (a : Assignment) v d x decl :
  x <> v -> respects a x decl -> respects (bump a v d) x decl.
Proof.
  intros Hne H. unfold respects, bump in *.
  now destruct (Nat.eqb_spec x v); [contradiction |].
Qed.

Lemma bump_same (a : Assignment) v d : bump a v d v = (a v + d)%Q.
Proof. unfold bump. now rewrite Nat.eqb_refl. Qed.

Lemma bump_other (a : Assignment) v d x : x <> v -> bump a v d x = a x.
Proof. intros H. unfold bump. now destruct (Nat.eqb_spec x v); [contradiction |]. Qed.

End Assignments.

Lemma example_meets (cfg : ProblemConfiguration) (r : RandomState) (x : Q) :
  0 <= timeslotCount cfg -> number_of_scenarios cfg <> 0 ->
  meets_constraints cfg r (exampleAssignment cfg r x).
Proof.
  intros HT HS. unfold meets_constraints.
  rewrite (proj1 (model_built cfg r HT HS)). apply example_satisfies_model.
Qed.

Lemma example_within (cfg : ProblemConfiguration) (r : RandomState) (x : Q) :
  0 <= timeslotCount cfg -> number_of_scenarios cfg <> 0 ->
  (min_number_of_modules cfg <= 0 <= max_number_of_modules cfg)%Q ->
  (min_storage_size_in_kwh cfg <= 0 <= max_storage_size_in_kwh cfg)%Q ->
  (- max_storage_size_in_kwh cfg * 1000 <= x <= max_storage_size_in_kwh cfg * 1000)%Q ->
  within_bounds cfg r (exampleAssignment cfg r x).
Proof.
  intros HT HS Hm Hs Hx v d Hd.
  rewrite (proj1 (model_built cfg r HT HS)) in Hd. cbn [builtSolver variables] in Hd.
  exact (example_respects cfg r x (scenarios cfg) v d Hm Hs Hx Hd).
Qed.

(** ** What the constraints say about an assignment *)

(** X1: in every assignment that meets the emitted constraints, the
    storage level of timeslot [t] of a scenario is the sum of the storage
    deltas of the timeslots before [t] of that scenario (zero at [t = 0]),
    and it is at most [sizeOfStorageInKwh * 1000]. *)
Theorem level_is_sum_of_deltas (cfg : ProblemConfiguration) (r : RandomState)
    (a : Assignment) (s t : nat) :
  (s < scenarios cfg)%nat -> (t < slots cfg)%nat ->
  meets_constraints cfg r a ->
  exists sv,
    outcome cfg r = Ok (theBase, sv) /\
    (forall k, (k < slots cfg)%nat ->
       lookupSlot sv (Z.of_nat s) (Z.of_nat k)
       = Some (timeslotVars (scenarioBase cfg 2 s) k)) /\
    (a (storageLevel (timeslotVars (scenarioBase cfg 2 s) t))
     == sumQ (map (fun k => a (storageEnergyDelta (timeslotVars (scenarioBase cfg 2 s) k)))
                  (seq 0 t)))%Q /\
    (a (storageLevel (timeslotVars (scenarioBase cfg 2 s) t))
     <= a (sizeOfStorageInKwh theBase) * 1000)%Q.
Proof.
  intros Hs Ht Hmeets. destruct (indices_run cfg s t Hs Ht) as [HT HS].
  exists (scenariosDict cfg 2 (scenarios cfg)).
  split; [exact (proj2 (model_built cfg r HT HS)) |].
  split; [intros k Hk; now apply lookupSlot_built |].
  split.
  - induction t as [| k IH].
    + pose proof (meets_block cfg r a s 0 Hs Ht Hmeets) as Hb.
      unfold timeslotConstraints in Hb.
      apply Forall_inv_tail, Forall_inv_tail, Forall_inv_tail, Forall_inv in Hb.
      exact Hb.
    + pose proof (meets_block cfg r a s (S k) Hs Ht Hmeets) as Hb.
      unfold timeslotConstraints in Hb.
      apply Forall_inv_tail, Forall_inv_tail, Forall_inv_tail, Forall_inv in Hb.
      cbn [levelConstraint levelRecursion satisfies eval] in Hb.
      unfold levelRecursion in Hb. cbn [satisfies eval] in Hb.
      replace (S k - 1)%nat with k in Hb by lia.
      rewrite Hb, (IH ltac:(lia)), seq_S, map_app, sumQ_app.
      unfold sumQ at 3. cbn [map fold_right Nat.add]. ring.
  - pose proof (meets_block cfg r a s t Hs Ht Hmeets) as Hb.
    unfold timeslotConstraints in Hb.
    apply Forall_inv_tail, Forall_inv_tail, Forall_inv_tail, Forall_inv_tail, Forall_inv in Hb.
    exact Hb.
Qed.

Lemma level_is_sum_of_deltas_witness :
  (1 < scenarios small_configuration)%nat /\ (23 < slots small_configuration)%nat /\
  meets_constraints small_configuration ramp (exampleAssignment small_configuration ramp 500) /\
  (exampleAssignment small_configuration ramp 500 284%nat
   == sumQ (map (fun k => exampleAssignment small_configuration ramp 500
                            (146 + 6 * k + 1)%nat)
                (seq 0 23)))%Q.
Proof.
  assert (Hs : (1 < scenarios small_configuration)%nat) by (vm_compute; lia).
  assert (Ht : (23 < slots small_configuration)%nat) by (vm_compute; lia).
  assert (Hm : meets_constraints small_configuration ramp
                 (exampleAssignment small_configuration ramp 500))
    by (apply example_meets; vm_compute; discriminate).
  split; [exact Hs | split; [exact Ht | split; [exact Hm |]]].
  destruct (level_is_sum_of_deltas small_configuration ramp _ 1 23 Hs Ht Hm)
    as (sv & _ & _ & Hsum & _).
  exact Hsum.
Defined.

(** X2: in every assignment that meets the emitted constraints, at every
    scenario and timeslot the production is the sampled solar coefficient
    times [numberOfModules], the consumption is the sampled load, which is
    never negative, and what is bought less what is sold is the load less
    the production plus the storage delta. *)
Theorem net_purchase (cfg : ProblemConfiguration) (r : RandomState)
    (a : Assignment) (s t : nat) :
  (s < scenarios cfg)%nat -> (t < slots cfg)%nat ->
  meets_constraints cfg r a ->
  let solar := solarCoefficient cfg (scenarioRandom cfg r s) t in
  let load := usageLoad cfg (scenarioRandom cfg r s) t in
  exists sv this,
    outcome cfg r = Ok (theBase, sv) /\
    lookupSlot sv (Z.of_nat s) (Z.of_nat t) = Some this /\
    (a (producedEnergy this) == solar * a (numberOfModules theBase))%Q /\
    (a (consumedEnergy this) == load)%Q /\
    (0 <= load)%Q /\
    (a (boughtEnergy this) - a (soldEnergy this)
     == load - solar * a (numberOfModules theBase) + a (storageEnergyDelta this))%Q.
Proof.
  intros Hs Ht Hmeets solar load. destruct (indices_run cfg s t Hs Ht) as [HT HS].
  exists (scenariosDict cfg 2 (scenarios cfg)), (timeslotVars (scenarioBase cfg 2 s) t).
  split; [exact (proj2 (model_built cfg r HT HS)) |].
  split; [now apply lookupSlot_built |].
  pose proof (meets_block cfg r a s t Hs Ht Hmeets) as Hb.
  unfold timeslotConstraints in Hb.
  pose proof (Forall_inv Hb) as Hprod.
  pose proof (Forall_inv (Forall_inv_tail Hb)) as Hcons.
  pose proof (Forall_inv (Forall_inv_tail (Forall_inv_tail Hb))) as Hbal.
  unfold productionLink in Hprod. unfold consumptionLink in Hcons.
  unfold energyBalance in Hbal. cbn [satisfies eval] in Hprod, Hcons, Hbal.
  fold solar in Hprod. fold load in Hcons.
  split; [exact Hprod |]. split; [exact Hcons |].
  split; [apply Q.le_max_r |].
  rewrite <- Hprod, <- Hcons. lra.
Qed.

Lemma net_purchase_witness :
  (1 < scenarios small_configuration)%nat /\ (3 < slots small_configuration)%nat /\
  meets_constraints small_configuration ramp (exampleAssignment small_configuration ramp 0) /\
  (exampleAssignment small_configuration ramp 0 168%nat
   - exampleAssignment small_configuration ramp 0 169%nat
   == usageLoad small_configuration (scenarioRandom small_configuration ramp 1) 3
      - solarCoefficient small_configuration (scenarioRandom small_configuration ramp 1) 3
        * exampleAssignment small_configuration ramp 0 0%nat
      + exampleAssignment small_configuration ramp 0 165%nat)%Q.
Proof.
  assert (Hs : (1 < scenarios small_configuration)%nat) by (vm_compute; lia).
  assert (Ht : (3 < slots small_configuration)%nat) by (vm_compute; lia).
  assert (Hm : meets_constraints small_configuration ramp
                 (exampleAssignment small_configuration ramp 0))
    by (apply example_meets; vm_compute; discriminate).
  split; [exact Hs | split; [exact Ht | split; [exact Hm |]]].
  destruct (net_purchase small_configuration ramp _ 1 3 Hs Ht Hm)
    as (sv & this & Ho & Hthis & _ & _ & _ & Hnet).
  assert (Hb : outcome small_configuration ramp
               = Ok (theBase, scenariosDict small_configuration 2
                                (scenarios small_configuration)))
    by (apply model_built; vm_compute; discriminate).
  rewrite Hb in Ho. injection Ho as <-.
  rewrite (lookupSlot_built small_configuration 1 3 Hs Ht) in Hthis.
  injection Hthis as <-. exact Hnet.
Defined.

Lemma level_nonnegative (cfg : ProblemConfiguration) (r : RandomState)
    (a : Assignment) (s t : nat) :
  (s < scenarios cfg)%nat -> (t < slots cfg)%nat ->
  within_bounds cfg r a ->
  (0 <= a (storageLevel (timeslotVars (scenarioBase cfg 2 s) t)))%Q.
Proof.
  intros Hs Ht Hb.
  pose proof (declared_handle cfg r s t 0 Hs Ht ltac:(lia)) as Hd.
  rewrite Nat.add_0_r in Hd. cbn [timeslotDecls nth_error] in Hd.
  destruct (Hb _ _ Hd) as [[Hl _] _]. exact Hl.
Qed.

(** X3: with [sizeOfStorageInKwh] at zero, every assignment that meets the
    emitted constraints and the declared bounds has every storage level at
    zero and every storage delta at zero except that of the last timeslot
    of each scenario, which the constraints leave open. *)
Theorem storage_disabled (cfg : ProblemConfiguration) (r : RandomState)
    (a : Assignment) (s t : nat) :
  (s < scenarios cfg)%nat -> (t < slots cfg)%nat ->
  meets_constraints cfg r a -> within_bounds cfg r a ->
  (a (sizeOfStorageInKwh theBase) == 0)%Q ->
  exists sv this,
    outcome cfg r = Ok (theBase, sv) /\
    lookupSlot sv (Z.of_nat s) (Z.of_nat t) = Some this /\
    (a (storageLevel this) == 0)%Q /\
    ((S t < slots cfg)%nat -> (a (storageEnergyDelta this) == 0)%Q).
Proof.
  intros Hs Ht Hmeets Hbounds Hsize. destruct (indices_run cfg s t Hs Ht) as [HT HS].
  exists (scenariosDict cfg 2 (scenarios cfg)), (timeslotVars (scenarioBase cfg 2 s) t).
  split; [exact (proj2 (model_built cfg r HT HS)) |].
  split; [now apply lookupSlot_built |].
  assert (Hzero : forall k, (k < slots cfg)%nat ->
            (a (storageLevel (timeslotVars (scenarioBase cfg 2 s) k)) == 0)%Q).
  { intros k Hk.
    pose proof (level_nonnegative cfg r a s k Hs Hk Hbounds) as Hlow.
    pose proof (meets_block cfg r a s k Hs Hk Hmeets) as Hb.
    unfold timeslotConstraints in Hb.
    apply Forall_inv_tail, Forall_inv_tail, Forall_inv_tail, Forall_inv_tail, Forall_inv in Hb.
    unfold capacityBound in Hb. cbn [satisfies eval] in Hb.
    rewrite Hsize in Hb. lra. }
  split; [now apply Hzero |].
  intros Hnext.
  pose proof (meets_block cfg r a s (S t) Hs Hnext Hmeets) as Hb.
  unfold timeslotConstraints in Hb.
  apply Forall_inv_tail, Forall_inv_tail, Forall_inv_tail, Forall_inv in Hb.
  cbn [levelConstraint] in Hb. unfold levelRecursion in Hb. cbn [satisfies eval] in Hb.
  replace (S t - 1)%nat with t in Hb by lia.
  rewrite (Hzero (S t) Hnext), (Hzero t Ht) in Hb. lra.
Qed.

Lemma storage_disabled_witness :
  (1 < scenarios small_configuration)%nat /\ (3 < slots small_configuration)%nat /\
  meets_constraints small_configuration ramp (exampleAssignment small_configuration ramp 0) /\
  within_bounds small_configuration ramp (exampleAssignment small_configuration ramp 0) /\
  (exampleAssignment small_configuration ramp 0 1%nat == 0)%Q /\
  (exampleAssignment small_configuration ramp 0 164%nat == 0)%Q /\
  (exampleAssignment small_configuration ramp 0 165%nat == 0)%Q.
Proof.
  assert (Hs : (1 < scenarios small_configuration)%nat) by (vm_compute; lia).
  assert (Ht : (3 < slots small_configuration)%nat) by (vm_compute; lia).
  assert (Hm : meets_constraints small_configuration ramp
                 (exampleAssignment small_configuration ramp 0))
    by (apply example_meets; vm_compute; discriminate).
  assert (Hb : within_bounds small_configuration ramp
                 (exampleAssignment small_configuration ramp 0))
    by (apply example_within; try split; vm_compute; discriminate).
  assert (Hz : (exampleAssignment small_configuration ramp 0 1%nat == 0)%Q)
    by reflexivity.
  split; [exact Hs | split; [exact Ht | split; [exact Hm | split; [exact Hb |
    split; [exact Hz |]]]]].
  destruct (storage_disabled small_configuration ramp _ 1 3 Hs Ht Hm Hb Hz)
    as (sv & this & Ho & Hthis & Hlevel & Hdelta).
  assert (Hbuilt : outcome small_configuration ramp
               = Ok (theBase, scenariosDict small_configuration 2
                                (scenarios small_configuration)))
    by (apply model_built; vm_compute; discriminate).
  rewrite Hbuilt in Ho. injection Ho as <-.
  rewrite (lookupSlot_built small_configuration 1 3 Hs Ht) in Hthis.
  injection Hthis as <-.
  split; [exact Hlevel | apply Hdelta; vm_compute; lia].
Defined.

(** ** Improving moves *)

Section Improvements.

Variable cfg : ProblemConfiguration.
Variable r : RandomState.

Lemma objective_value_built (a : Assignment) :
  0 <= timeslotCount cfg -> number_of_scenarios cfg <> 0 ->
  objective_value cfg r a
  = eval a (objectiveExpr cfg 2 theBase (scenarioRandom cfg r (scenarios cfg))).
Proof.
  intros HT HS. unfold objective_value.
  now rewrite (proj1 (model_built cfg r HT HS)).
Qed.

Lemma objective_value_bump2 (a : Assignment) v1 d1 v2 d2 :
  0 <= timeslotCount cfg -> number_of_scenarios cfg <> 0 ->
  (objective_value cfg r (bump (bump a v1 d1) v2 d2)
   == objective_value cfg r a
      + d1 * coeff (objectiveExpr cfg 2 theBase (scenarioRandom cfg r (scenarios cfg))) v1
      + d2 * coeff (objectiveExpr cfg 2 theBase (scenarioRandom cfg r (scenarios cfg))) v2)%Q.
Proof.
  intros HT HS. rewrite !objective_value_built by assumption.
  rewrite !eval_bump. ring.
Qed.

Lemma meets_bump2 (a : Assignment) v1 d1 v2 d2 :
  0 <= timeslotCount cfg -> number_of_scenarios cfg <> 0 ->
  (forall s' t', (s' < scenarios cfg)%nat -> (t' < slots cfg)%nat ->
     Forall (fun c => (d1 * constraint_coeff c v1 + d2 * constraint_coeff c v2 == 0)%Q)
            (timeslotConstraints cfg theBase (scenarioBase cfg 2 s')
               (scenarioRandom cfg r s') t')) ->
  meets_constraints cfg r a ->
  meets_constraints cfg r (bump (bump a v1 d1) v2 d2).
Proof.
  intros HT HS Hz Ha. unfold meets_constraints in *.
  rewrite (proj1 (model_built cfg r HT HS)) in *. cbn [builtSolver constraints] in *.
  now apply bump2_preserves_model.
Qed.

Lemma respects_same_value (a b : Assignment) v d :
  a v = b v -> respects a v d -> respects b v d.
Proof. unfold respects. now intros ->. Qed.

Lemma within_bounds_bump2 (a : Assignment) v1 d1 v2 d2 :
  v1 <> v2 ->
  within_bounds cfg r a ->
  (forall d, nth_error (variables (model cfg r)) v1 = Some d -> respects (bump a v1 d1) v1 d) ->
  (forall d, nth_error (variables (model cfg r)) v2 = Some d -> respects (bump a v2 d2) v2 d) ->
  within_bounds cfg r (bump (bump a v1 d1) v2 d2).
Proof.
  intros Hne Ha H1 H2 v d Hd.
  destruct (Nat.eq_dec v v2) as [-> | Hv2].
  - apply (respects_same_value (bump a v2 d2)); [| now apply H2].
    rewrite !bump_same. now rewrite bump_other by congruence.
  - apply respects_bump_other; [exact Hv2 |].
    destruct (Nat.eq_dec v v1) as [-> | Hv1].
    + now apply H1.
    + apply respects_bump_other; [exact Hv1 | now apply Ha].
Qed.

Lemma scenario_weight_positive (s : nat) :
  (s < scenarios cfg)%nat -> (0 < / inject_Z (number_of_scenarios cfg))%Q.
Proof.
  intros Hs. apply Qinv_lt_0_compat.
  change 0%Q with (inject_Z 0). rewrite <- Zlt_Qlt. unfold scenarios in Hs. lia.
Qed.

End Improvements.

(** X4: buying and selling in the same timeslot is never worth it. Taking
    the same amount [m >= 0] off [boughtEnergy[s,t]] and [soldEnergy[s,t]]
    keeps every emitted constraint met, lowers the objective by
    [m * (0.5 - 0.12) / 1000 / numberOfScenarios], and keeps the declared
    bounds when [m] is at most both values. *)
Theorem netting_lowers_cost (cfg : ProblemConfiguration) (r : RandomState)
    (a : Assignment) (s t : nat) (m : Q) :
  (s < scenarios cfg)%nat -> (t < slots cfg)%nat ->
  meets_constraints cfg r a ->
  exists sv this,
    outcome cfg r = Ok (theBase, sv) /\
    lookupSlot sv (Z.of_nat s) (Z.of_nat t) = Some this /\
    let a' := bump (bump a (boughtEnergy this) (- m)) (soldEnergy this) (- m) in
    meets_constraints cfg r a' /\
    (objective_value cfg r a'
     == objective_value cfg r a
        - m * ((5 # 10) - (12 # 100)) / 1000 / inject_Z (number_of_scenarios cfg))%Q /\
    ((0 < m)%Q -> (objective_value cfg r a' < objective_value cfg r a)%Q) /\
    (within_bounds cfg r a ->
     (m <= a (boughtEnergy this))%Q -> (m <= a (soldEnergy this))%Q ->
     within_bounds cfg r a').
Proof.
  intros Hs Ht Hmeets. destruct (indices_run cfg s t Hs Ht) as [HT HS].
  exists (scenariosDict cfg 2 (scenarios cfg)), (timeslotVars (scenarioBase cfg 2 s) t).
  split; [exact (proj2 (model_built cfg r HT HS)) |].
  split; [now apply lookupSlot_built |].
  intros a'.
  assert (Hval : (objective_value cfg r a'
                  == objective_value cfg r a
                     - m * ((5 # 10) - (12 # 100)) / 1000
                       / inject_Z (number_of_scenarios cfg))%Q).
  { unfold a'. rewrite (objective_value_bump2 cfg r a _ _ _ _ HT HS).
    unfold timeslotVars. cbn [boughtEnergy soldEnergy].
    rewrite (objective_coeff_handle cfg _ s t 4 Hs Ht ltac:(lia)).
    rewrite (objective_coeff_handle cfg _ s t 5 Hs Ht ltac:(lia)).
    unfold purchasePrice, sellPrice, Qdiv. ring. }
  split.
  { apply (meets_bump2 cfg r a _ _ _ _ HT HS); [| exact Hmeets].
    intros s' t' _ Ht'. now apply netting_block. }
  split; [exact Hval |].
  split.
  { intros Hm. rewrite Hval.
    pose proof (scenario_weight_positive cfg s Hs) as Hw.
    assert (Hpos : (0 < m * / inject_Z (number_of_scenarios cfg))%Q)
      by (apply Qmult_lt_0_compat; assumption).
    assert (Heq : (m * ((5 # 10) - (12 # 100)) / 1000 / inject_Z (number_of_scenarios cfg)
                   == (19 # 50000) * (m * / inject_Z (number_of_scenarios cfg)))%Q)
      by (unfold Qdiv; change (/ 1000)%Q with (1 # 1000)%Q; ring).
    rewrite Heq.
    lra. }
  intros Hbounds Hb Hso. unfold a'.
  apply within_bounds_bump2; [unfold timeslotVars; cbn; lia | exact Hbounds | |].
  - intros d Hd. unfold timeslotVars in Hd |- *. cbn [boughtEnergy] in Hd |- *.
    rewrite (declared_handle cfg r s t 4 Hs Ht ltac:(lia)) in Hd.
    cbn [timeslotDecls nth_error] in Hd. injection Hd as <-.
    unfold respects. cbn [var_lb var_ub var_integer within].
    rewrite bump_same. unfold timeslotVars in Hb. cbn [boughtEnergy] in Hb.
    split; [split; [lra | exact I] | discriminate].
  - intros d Hd. unfold timeslotVars in Hd |- *. cbn [soldEnergy] in Hd |- *.
    rewrite (declared_handle cfg r s t 5 Hs Ht ltac:(lia)) in Hd.
    cbn [timeslotDecls nth_error] in Hd. injection Hd as <-.
    unfold respects. cbn [var_lb var_ub var_integer within].
    rewrite bump_same. unfold timeslotVars in Hso. cbn [soldEnergy] in Hso.
    split; [split; [lra | exact I] | discriminate].
Qed.

Lemma netting_lowers_cost_witness :
  (0 < scenarios small_configuration)%nat /\ (0 < slots small_configuration)%nat /\
  meets_constraints small_configuration ramp (exampleAssignment small_configuration ramp 0) /\
  (objective_value small_configuration ramp
     (bump (bump (exampleAssignment small_configuration ramp 0) 6%nat (- (1))) 7%nat (- (1)))
   < objective_value small_configuration ramp (exampleAssignment small_configuration ramp 0))%Q.
Proof.
  assert (Hs : (0 < scenarios small_configuration)%nat) by (vm_compute; lia).
  assert (Ht : (0 < slots small_configuration)%nat) by (vm_compute; lia).
  assert (Hm : meets_constraints small_configuration ramp
                 (exampleAssignment small_configuration ramp 0))
    by (apply example_meets; vm_compute; discriminate).
  split; [exact Hs | split; [exact Ht | split; [exact Hm |]]].
  destruct (netting_lowers_cost small_configuration ramp _ 0 0 1 Hs Ht Hm)
    as (sv & this & Ho & Hthis & _ & _ & Hlt & _).
  assert (Hbuilt : outcome small_configuration ramp
               = Ok (theBase, scenariosDict small_configuration 2
                                (scenarios small_configuration)))
    by (apply model_built; vm_compute; discriminate).
  rewrite Hbuilt in Ho. injection Ho as <-.
  rewrite (lookupSlot_built small_configuration 0 0 Hs Ht) in Hthis.
  injection Hthis as <-. apply Hlt. reflexivity.
Defined.

(** X5: the storage delta of the last timeslot of a scenario is free
    energy. Lowering [storageEnergyDelta[s, T-1]] by [x] and raising
    [soldEnergy[s, T-1]] by [x] keeps every emitted constraint met and
    lowers the objective by [x * 0.12 / 1000 / numberOfScenarios]; the
    declared bounds stay met as long as the delta stays above
    [- max_storage_size_in_kwh * 1000]. *)
Theorem last_hour_withdrawal_pays (cfg : ProblemConfiguration) (r : RandomState)
    (a : Assignment) (s : nat) (x : Q) :
  (s < scenarios cfg)%nat -> (0 < slots cfg)%nat ->
  meets_constraints cfg r a ->
  exists sv final,
    outcome cfg r = Ok (theBase, sv) /\
    lookupSlot sv (Z.of_nat s) (timeslotCount cfg - 1) = Some final /\
    let a' := bump (bump a (storageEnergyDelta final) (- x)) (soldEnergy final) x in
    meets_constraints cfg r a' /\
    (objective_value cfg r a'
     == objective_value cfg r a
        - x * (12 # 100) / 1000 / inject_Z (number_of_scenarios cfg))%Q /\
    ((0 < x)%Q -> (objective_value cfg r a' < objective_value cfg r a)%Q) /\
    (within_bounds cfg r a -> (0 <= x)%Q ->
     (- max_storage_size_in_kwh cfg * 1000 <= a (storageEnergyDelta final) - x)%Q ->
     within_bounds cfg r a').
Proof.
  intros Hs Hpos Hmeets.
  assert (Ht : (slots cfg - 1 < slots cfg)%nat) by lia.
  destruct (indices_run cfg s _ Hs Ht) as [HT HS].
  exists (scenariosDict cfg 2 (scenarios cfg)),
    (timeslotVars (scenarioBase cfg 2 s) (slots cfg - 1)).
  split; [exact (proj2 (model_built cfg r HT HS)) |].
  split.
  { replace (timeslotCount cfg - 1) with (Z.of_nat (slots cfg - 1))
      by (unfold slots in *; lia).
    now apply lookupSlot_built. }
  intros a'.
  assert (Hval : (objective_value cfg r a'
                  == objective_value cfg r a
                     - x * (12 # 100) / 1000 / inject_Z (number_of_scenarios cfg))%Q).
  { unfold a'. rewrite (objective_value_bump2 cfg r a _ _ _ _ HT HS).
    unfold timeslotVars. cbn [storageEnergyDelta soldEnergy].
    rewrite (objective_coeff_handle cfg _ s _ 1 Hs Ht ltac:(lia)).
    rewrite (objective_coeff_handle cfg _ s _ 5 Hs Ht ltac:(lia)).
    unfold sellPrice, Qdiv. ring. }
  split.
  { apply (meets_bump2 cfg r a _ _ _ _ HT HS); [| exact Hmeets].
    intros s' t' _ Ht'. now apply last_hour_block. }
  split; [exact Hval |].
  split.
  { intros Hx. rewrite Hval.
    pose proof (scenario_weight_positive cfg s Hs) as Hw.
    assert (Hp : (0 < x * / inject_Z (number_of_scenarios cfg))%Q)
      by (apply Qmult_lt_0_compat; assumption).
    assert (Heq : (x * (12 # 100) / 1000 / inject_Z (number_of_scenarios cfg)
                   == (3 # 25000) * (x * / inject_Z (number_of_scenarios cfg)))%Q)
      by (unfold Qdiv; change (/ 1000)%Q with (1 # 1000)%Q; ring).
    rewrite Heq. lra. }
  intros Hbounds Hx Hlow. unfold a'.
  apply within_bounds_bump2; [unfold timeslotVars; cbn; lia | exact Hbounds | |].
  - intros d Hd. unfold timeslotVars in Hd, Hlow |- *.
    cbn [storageEnergyDelta] in Hd, Hlow |- *.
    pose proof (declared_handle cfg r s (slots cfg - 1) 1 Hs Ht ltac:(lia)) as Hdecl.
    destruct (Hbounds _ _ Hdecl) as [[_ Hup] _].
    rewrite Hdecl in Hd. cbn [timeslotDecls nth_error] in Hd, Hup. injection Hd as <-.
    cbn [var_ub] in Hup.
    unfold respects. cbn [var_lb var_ub var_integer within].
    rewrite bump_same.
    split; [split; lra | discriminate].
  - intros d Hd. unfold timeslotVars in Hd |- *. cbn [soldEnergy] in Hd |- *.
    pose proof (declared_handle cfg r s (slots cfg - 1) 5 Hs Ht ltac:(lia)) as Hdecl.
    destruct (Hbounds _ _ Hdecl) as [[Hl _] _].
    rewrite Hdecl in Hd. cbn [timeslotDecls nth_error] in Hd, Hl. injection Hd as <-.
    cbn [var_lb] in Hl.
    unfold respects. cbn [var_lb var_ub var_integer within].
    rewrite bump_same.
    split; [split; [lra | exact I] | discriminate].
Qed.

Lemma last_hour_withdrawal_pays_witness :
  (1 < scenarios small_configuration)%nat /\ (0 < slots small_configuration)%nat /\
  meets_constraints small_configuration ramp (exampleAssignment small_configuration ramp 0) /\
  (objective_value small_configuration ramp
     (bump (bump (exampleAssignment small_configuration ramp 0) 285%nat (- (1000)))
           289%nat 1000)
   < objective_value small_configuration ramp (exampleAssignment small_configuration ramp 0))%Q.
Proof.
  assert (Hs : (1 < scenarios small_configuration)%nat) by (vm_compute; lia).
  assert (Ht : (0 < slots small_configuration)%nat) by (vm_compute; lia).
  assert (Hm : meets_constraints small_configuration ramp
                 (exampleAssignment small_configuration ramp 0))
    by (apply example_meets; vm_compute; discriminate).
  split; [exact Hs | split; [exact Ht | split; [exact Hm |]]].
  destruct (last_hour_withdrawal_pays small_configuration ramp _ 1 1000 Hs Ht Hm)
    as (sv & final & Ho & Hfinal & _ & _ & Hlt & _).
  assert (Hbuilt : outcome small_configuration ramp
               = Ok (theBase, scenariosDict small_configuration 2
                                (scenarios small_configuration)))
    by (apply model_built; vm_compute; discriminate).
  rewrite Hbuilt in Ho. injection Ho as <-.
  change (timeslotCount small_configuration - 1) with (Z.of_nat 23) in Hfinal.
  rewrite (lookupSlot_built small_configuration 1 23 Hs ltac:(vm_compute; lia)) in Hfinal.
  injection Hfinal as <-. apply Hlt. reflexivity.
Defined.

(** X6: the objective prices four kinds of variables and no other. The
    coefficient of [numberOfModules] is [price_per_module_in_euro], that of
    [sizeOfStorageInKwh] is [storage_price_per_kwh_in_euro], that of
    [boughtEnergy[s,t]] is [0.5 / 1000 / numberOfScenarios], that of
    [soldEnergy[s,t]] is [- 0.12 / 1000 / numberOfScenarios]; the storage
    level, the storage delta, the production and the consumption have
    coefficient zero. *)
Theorem objective_coefficients (cfg : ProblemConfiguration) (r : RandomState)
    (s t : nat) :
  (s < scenarios cfg)%nat -> (t < slots cfg)%nat ->
  exists sv this e,
    outcome cfg r = Ok (theBase, sv) /\
    lookupSlot sv (Z.of_nat s) (Z.of_nat t) = Some this /\
    objective (model cfg r) = Some e /\
    (coeff e (numberOfModules theBase) == price_per_module_in_euro cfg)%Q /\
    (coeff e (sizeOfStorageInKwh theBase) == storage_price_per_kwh_in_euro cfg)%Q /\
    (coeff e (storageLevel this) == 0)%Q /\
    (coeff e (storageEnergyDelta this) == 0)%Q /\
    (coeff e (producedEnergy this) == 0)%Q /\
    (coeff e (consumedEnergy this) == 0)%Q /\
    (coeff e (boughtEnergy this)
     == (5 # 10) / 1000 / inject_Z (number_of_scenarios cfg))%Q /\
    (coeff e (soldEnergy this)
     == - ((12 # 100) / 1000 / inject_Z (number_of_scenarios cfg)))%Q.
Proof.
  intros Hs Ht. destruct (indices_run cfg s t Hs Ht) as [HT HS].
  destruct (model_built cfg r HT HS) as [Hm Ho].
  exists (scenariosDict cfg 2 (scenarios cfg)), (timeslotVars (scenarioBase cfg 2 s) t),
    (objectiveExpr cfg 2 theBase (scenarioRandom cfg r (scenarios cfg))).
  split; [exact Ho |].
  split; [now apply lookupSlot_built |].
  split; [rewrite Hm; reflexivity |].
  unfold timeslotVars.
  cbn [storageLevel storageEnergyDelta producedEnergy consumedEnergy boughtEnergy
         soldEnergy theBase numberOfModules sizeOfStorageInKwh].
  pose proof (fun j Hj => objective_coeff_handle cfg (scenarioRandom cfg r (scenarios cfg))
                            s t j Hs Ht Hj) as H.
  pose proof (H 0%nat ltac:(lia)) as H0. rewrite Nat.add_0_r in H0.
  pose proof (H 1%nat ltac:(lia)) as H1. pose proof (H 2%nat ltac:(lia)) as H2.
  pose proof (H 3%nat ltac:(lia)) as H3. pose proof (H 4%nat ltac:(lia)) as H4.
  pose proof (H 5%nat ltac:(lia)) as H5.
  cbn beta iota in H0, H1, H2, H3, H4, H5.
  rewrite H0, H1, H2, H3, H4, H5.
  rewrite !coeff_objectiveExpr, !costTerms_of_base by lia.
  cbn [Nat.eqb]. unfold purchasePrice, sellPrice, Qdiv.
  repeat split; ring.
Qed.

Lemma objective_coefficients_witness :
  (1 < scenarios small_configuration)%nat /\ (3 < slots small_configuration)%nat /\
  exists e, objective (model small_configuration ramp) = Some e /\
            (coeff e 168%nat == 1 # 4000)%Q /\ (coeff e 169%nat == - (3 # 50000))%Q /\
            (coeff e 164%nat == 0)%Q.
Proof.
  assert (Hs : (1 < scenarios small_configuration)%nat) by (vm_compute; lia).
  assert (Ht : (3 < slots small_configuration)%nat) by (vm_compute; lia).
  split; [exact Hs | split; [exact Ht |]].
  destruct (objective_coefficients small_configuration ramp 1 3 Hs Ht)
    as (sv & this & e & Ho & Hthis & He & _ & _ & Hl & _ & _ & _ & Hb & Hso).
  assert (Hbuilt : outcome small_configuration ramp
               = Ok (theBase, scenariosDict small_configuration 2
                                (scenarios small_configuration)))
    by (apply model_built; vm_compute; discriminate).
  rewrite Hbuilt in Ho. injection Ho as <-.
  rewrite (lookupSlot_built small_configuration 1 3 Hs Ht) in Hthis.
  injection Hthis as <-.
  exists e. split; [exact He |].
  split; [rewrite Hb; reflexivity | split; [rewrite Hso; reflexivity | exact Hl]].
Defined.

(** X7: the right-hand side of the consumption link of scenario [s],
    timeslot [t] is [max(10000 + 2000 * z, 0)] for the standard variate [z]
    drawn at position [2 * T * s + T + t] of the build, after the [T] solar
    draws of the scenario; it is never negative. *)
Theorem consumption_load_clamped (cfg : ProblemConfiguration) (r : RandomState)
    (s t : nat) :
  (s < scenarios cfg)%nat -> (t < slots cfg)%nat ->
  let raw := (10000 + 2000 * stream r (cursor r + 2 * slots cfg * s + slots cfg + t)%nat)%Q in
  exists bv sv this,
    outcome cfg r = Ok (bv, sv) /\
    lookupSlot sv (Z.of_nat s) (Z.of_nat t) = Some this /\
    emitted cfg r s t 1 = Some (CEq (Var (consumedEnergy this)) (Const (Qmax raw 0))) /\
    (0 <= Qmax raw 0)%Q.
Proof.
  intros Hs Ht raw. destruct (indices_run cfg s t Hs Ht) as [HT HS].
  exists theBase, (scenariosDict cfg 2 (scenarios cfg)),
    (timeslotVars (scenarioBase cfg 2 s) t).
  split; [exact (proj2 (model_built cfg r HT HS)) |].
  split; [now apply lookupSlot_built |].
  split; [rewrite emitted_built by (assumption || lia); reflexivity |].
  apply Q.le_max_r.
Qed.

Lemma consumption_load_clamped_witness :
  (1 < scenarios small_configuration)%nat /\ (3 < slots small_configuration)%nat /\
  emitted small_configuration ramp 1 3 1
  = Some (CEq (Var 167%nat)
              (Const (Qmax (10000 + 2000 * ((inject_Z 75 - 60) / 20)) 0))).
Proof.
  assert (Hs : (1 < scenarios small_configuration)%nat) by (vm_compute; lia).
  assert (Ht : (3 < slots small_configuration)%nat) by (vm_compute; lia).
  split; [exact Hs | split; [exact Ht |]].
  destruct (consumption_load_clamped small_configuration ramp 1 3 Hs Ht)
    as (bv & sv & this & Ho & Hthis & Hem & _).
  rewrite Hem.
  assert (Hbuilt : outcome small_configuration ramp
               = Ok (theBase, scenariosDict small_configuration 2
                                (scenarios small_configuration)))
    by (apply model_built; vm_compute; discriminate).
  rewrite Hbuilt in Ho. injection Ho as <- <-.
  rewrite (lookupSlot_built small_configuration 1 3 Hs Ht) in Hthis.
  injection Hthis as <-. reflexivity.
Defined.

(** ** Well-formedness *)

Lemma expr_vars_fold_Plus (P : MPVariable -> Prop) l e0 :
  Forall P (expr_vars e0) ->
  (forall e, In e l -> Forall P (expr_vars e)) ->
  Forall P (expr_vars (fold_left Plus l e0)).
Proof.
  revert e0. induction l as [| e l IH]; intros e0 H0 Hl; cbn [fold_left]; [exact H0 |].
  apply IH.
  - cbn [expr_vars]. apply Forall_app. split; [exact H0 | apply Hl; left; reflexivity].
  - intros e' He'. apply Hl. right. exact He'.
Qed.

Section WellFormed.

Variable cfg : ProblemConfiguration.

Lemma expr_vars_costSteps (P : MPVariable -> Prop) base rp l e0 :
  Forall P (expr_vars e0) ->
  (forall t, In t l -> P (boughtEnergy (timeslotVars base t)) /\
                       P (soldEnergy (timeslotVars base t))) ->
  Forall P (expr_vars (fold_left (costStep cfg base rp) l e0)).
Proof.
  revert e0. induction l as [| t l IH]; intros e0 H0 Hl; cbn [fold_left]; [exact H0 |].
  apply IH.
  - unfold costStep. cbn [expr_vars]. destruct (Hl t ltac:(left; reflexivity)) as [Hb Hs].
    repeat (apply Forall_app; split); try exact H0;
      repeat match goal with |- Forall _ _ => constructor end; assumption.
  - intros t' Ht'. apply Hl. right. exact Ht'.
Qed.

Lemma timeslot_constraints_declared rs s t :
  (s < scenarios cfg)%nat -> (t < slots cfg)%nat ->
  Forall (fun c => Forall (fun v => (v < 2 + 6 * slots cfg * scenarios cfg)%nat)
                          (constraint_vars c))
         (timeslotConstraints cfg theBase (scenarioBase cfg 2 s) rs t).
Proof.
  intros Hs Ht.
  pose proof (fun j Hj => handle_bound cfg s t j Hs Ht Hj) as H.
  pose proof (H 0%nat ltac:(lia)) as H0. rewrite Nat.add_0_r in H0.
  pose proof (H 1%nat ltac:(lia)) as H1. pose proof (H 2%nat ltac:(lia)) as H2.
  pose proof (H 3%nat ltac:(lia)) as H3. pose proof (H 4%nat ltac:(lia)) as H4.
  pose proof (H 5%nat ltac:(lia)) as H5.
  unfold timeslotConstraints, productionLink, consumptionLink, energyBalance,
    capacityBound, theBase.
  destruct t as [| k].
  - unfold levelConstraint, initialCondition, timeslotVars in *.
    cbn [constraint_vars expr_vars app storageLevel storageEnergyDelta producedEnergy
           consumedEnergy boughtEnergy soldEnergy numberOfModules sizeOfStorageInKwh].
    repeat match goal with |- Forall _ _ => constructor end; lia.
  - pose proof (handle_bound cfg s k 0 Hs ltac:(lia) ltac:(lia)) as Hp0.
    pose proof (handle_bound cfg s k 1 Hs ltac:(lia) ltac:(lia)) as Hp1.
    unfold levelConstraint, levelRecursion, timeslotVars in *.
    replace (S k - 1)%nat with k by lia.
    cbn [constraint_vars expr_vars app storageLevel storageEnergyDelta producedEnergy
           consumedEnergy boughtEnergy soldEnergy numberOfModules sizeOfStorageInKwh].
    repeat match goal with |- Forall _ _ => constructor end; lia.
Qed.

Lemma model_constraints_declared r :
  Forall (fun c => Forall (fun v => (v < 2 + 6 * slots cfg * scenarios cfg)%nat)
                          (constraint_vars c))
         (modelConstraints cfg 2 theBase r (scenarios cfg)).
Proof.
  unfold modelConstraints, scenarioConstraints.
  apply List.Forall_flat_map, List.Forall_forall. intros s Hs. apply in_seq in Hs.
  apply List.Forall_flat_map, List.Forall_forall. intros t Ht. apply in_seq in Ht.
  apply timeslot_constraints_declared; lia.
Qed.

Lemma objective_declared rp :
  number_of_scenarios cfg <> 0 -> 0 <= timeslotCount cfg ->
  Forall (fun v => (v < 2 + 6 * slots cfg * scenarios cfg)%nat)
         (expr_vars (objectiveExpr cfg 2 theBase rp)).
Proof.
  intros HS HT. unfold objectiveExpr, investmentExpr.
  cbn [expr_vars theBase numberOfModules sizeOfStorageInKwh app].
  constructor; [lia |]. constructor; [lia |].
  apply expr_vars_fold_Plus; [constructor |].
  intros e He. apply in_map_iff in He. destruct He as (s & <- & Hs).
  apply in_seq in Hs. unfold scenarioCosts.
  apply expr_vars_costSteps; [constructor |].
  intros t Ht. apply in_seq in Ht. unfold timeslotVars. cbn [boughtEnergy soldEnergy].
  split; apply handle_bound; lia.
Qed.

End WellFormed.

(** X8: whatever the configuration and however the build ends, every
    variable that occurs in a constraint added to the solver or in the
    objective handed to it is a variable declared in that solver. *)
Theorem mentioned_variables_declared (cfg : ProblemConfiguration) (r : RandomState) :
  Forall (fun c => Forall (fun v => (v < NumVariables (model cfg r))%nat)
                          (constraint_vars c))
         (constraints (model cfg r)) /\
  (forall e, objective (model cfg r) = Some e ->
             Forall (fun v => (v < NumVariables (model cfg r))%nat) (expr_vars e)).
Proof.
  unfold model, NumVariables. rewrite buildModel_run.
  destruct (Z.ltb_spec (timeslotCount cfg) 0) as [Hneg | HT].
  - cbn [snd declaredWorld solver constraints objective].
    split; [constructor | discriminate].
  - destruct (Z.eqb_spec (number_of_scenarios cfg) 0) as [Hz | HS].
    + cbn [snd constrainedWorld solver constraints objective variables].
      rewrite length_app, length_modelDecls. cbn [baseDecls length].
      split; [apply model_constraints_declared | discriminate].
    + cbn [snd solver builtSolver constraints objective variables].
      rewrite length_app, length_modelDecls. cbn [baseDecls length].
      split; [apply model_constraints_declared |].
      intros e He. injection He as <-. now apply objective_declared.
Qed.

(** ** Names *)

Lemma map_head_eq {A B} (f : A -> B) x l y l' :
  map f (x :: l) = map f (y :: l') -> f x = f y.
Proof. cbn [map]. intros H. now injection H. Qed.

(** X9: the name given to a variable does not contain its scenario. The
    six variables of timeslot [t] are named
    [timeslotNr_<t>_storagLevel], [..._storageEnergyDelta],
    [..._producedEnergy], [..._consumedEnergy], [..._boughtEnergy] and
    [..._soldEnergy] in every scenario, so two different scenarios hold
    different variables with identical declarations, name included. *)
Theorem names_repeat_across_scenarios (cfg : ProblemConfiguration) (r : RandomState)
    (s s' t : nat) :
  (s < scenarios cfg)%nat -> (s' < scenarios cfg)%nat -> s <> s' ->
  (t < slots cfg)%nat ->
  exists sv this this',
    outcome cfg r = Ok (theBase, sv) /\
    lookupSlot sv (Z.of_nat s) (Z.of_nat t) = Some this /\
    lookupSlot sv (Z.of_nat s') (Z.of_nat t) = Some this' /\
    (forall v, In v (fields this) -> ~ In v (fields this')) /\
    map (nth_error (variables (model cfg r))) (fields this)
      = map (nth_error (variables (model cfg r))) (fields this') /\
    map (fun v => option_map var_name (nth_error (variables (model cfg r)) v))
        (fields this)
      = [ Some (TimeslotField (Z.of_nat t) "storagLevel");
          Some (TimeslotField (Z.of_nat t) "storageEnergyDelta");
          Some (TimeslotField (Z.of_nat t) "producedEnergy");
          Some (TimeslotField (Z.of_nat t) "consumedEnergy");
          Some (TimeslotField (Z.of_nat t) "boughtEnergy");
          Some (TimeslotField (Z.of_nat t) "soldEnergy") ].
Proof.
  intros Hs Hs' Hne Ht. destruct (indices_run cfg s t Hs Ht) as [HT HS].
  destruct (model_built cfg r HT HS) as [Hm Ho].
  exists (scenariosDict cfg 2 (scenarios cfg)),
    (timeslotVars (scenarioBase cfg 2 s) t), (timeslotVars (scenarioBase cfg 2 s') t).
  split; [exact Ho |].
  split; [now apply lookupSlot_built |].
  split; [now apply lookupSlot_built |].
  split.
  { intros v Hin Hin'. destruct (fields_apart cfg s t s' t v Ht Ht Hin Hin'). contradiction. }
  rewrite Hm. cbn [builtSolver variables].
  split.
  - now rewrite !declared_fields.
  - rewrite <- (map_map (nth_error (baseDecls cfg ++ modelDecls cfg (scenarios cfg)))
                        (option_map var_name)).
    rewrite declared_fields by assumption. reflexivity.
Qed.

Lemma names_repeat_across_scenarios_witness :
  (0 < scenarios small_configuration)%nat /\ (1 < scenarios small_configuration)%nat /\
  0%nat <> 1%nat /\ (3 < slots small_configuration)%nat /\
  nth_error (variables (model small_configuration ramp)) 20
  = nth_error (variables (model small_configuration ramp)) 164.
Proof.
  assert (H0 : (0 < scenarios small_configuration)%nat) by (vm_compute; lia).
  assert (H1 : (1 < scenarios small_configuration)%nat) by (vm_compute; lia).
  assert (Hne : 0%nat <> 1%nat) by lia.
  assert (Ht : (3 < slots small_configuration)%nat) by (vm_compute; lia).
  split; [exact H0 | split; [exact H1 | split; [exact Hne | split; [exact Ht |]]]].
  destruct (names_repeat_across_scenarios small_configuration ramp 0 1 3 H0 H1 Hne Ht)
    as (sv & this & this' & Ho & Hthis & Hthis' & _ & Hsame & _).
  assert (Hbuilt : outcome small_configuration ramp
               = Ok (theBase, scenariosDict small_configuration 2
                                (scenarios small_configuration)))
    by (apply model_built; vm_compute; discriminate).
  rewrite Hbuilt in Ho. injection Ho as <-.
  rewrite (lookupSlot_built small_configuration 0 3 H0 Ht) in Hthis.
  rewrite (lookupSlot_built small_configuration 1 3 H1 Ht) in Hthis'.
  injection Hthis as <-. injection Hthis' as <-.
  exact (map_head_eq (nth_error (variables (model small_configuration ramp)))
           _ _ _ _ Hsame).
Defined.

(** ** More scenarios *)

Section MoreScenarios.

Variable cfg : ProblemConfiguration.

Lemma modelDecls_more n k :
  modelDecls cfg (n + k) = modelDecls cfg n ++ flat_map (fun _ : nat => scenarioDecls cfg) (seq n k).
Proof. unfold modelDecls. now rewrite seq_app, flat_map_app. Qed.

Lemma modelConstraints_more first bv r n k :
  modelConstraints cfg first bv r (n + k)
  = modelConstraints cfg first bv r n ++
    flat_map (fun s => scenarioConstraints cfg bv (scenarioBase cfg first s)
                         (scenarioRandom cfg r s))
             (seq n k).
Proof. unfold modelConstraints. now rewrite seq_app, flat_map_app. Qed.

End MoreScenarios.

(** X10: raising [number_of_scenarios] only appends. Built from the same
    generator state, the model for [m >= n] scenarios starts with exactly
    the variables and constraints of the model for [n] scenarios, and the
    handles of the first [n] scenarios are the same. *)
Theorem more_scenarios_append (cfg : ProblemConfiguration) (r : RandomState) (n m : Z) :
  0 <= number_of_days cfg -> 1 <= n <= m ->
  exists svn svm dv dc,
    outcome (with_scenarios cfg n) r = Ok (theBase, svn) /\
    outcome (with_scenarios cfg m) r = Ok (theBase, svm) /\
    variables (model (with_scenarios cfg m) r)
      = variables (model (with_scenarios cfg n) r) ++ dv /\
    constraints (model (with_scenarios cfg m) r)
      = constraints (model (with_scenarios cfg n) r) ++ dc /\
    length dv = (6 * slots cfg * Z.to_nat (m - n))%nat /\
    length dc = (5 * slots cfg * Z.to_nat (m - n))%nat /\
    (forall s t, 0 <= s < n -> 0 <= t < timeslotCount cfg ->
       lookupSlot svm s t = lookupSlot svn s t /\ lookupSlot svn s t <> None).
Proof.
  intros HD Hnm.
  assert (HTn : 0 <= timeslotCount (with_scenarios cfg n)) by (unfold timeslotCount; cbn; lia).
  assert (HTm : 0 <= timeslotCount (with_scenarios cfg m)) by (unfold timeslotCount; cbn; lia).
  assert (HSn : number_of_scenarios (with_scenarios cfg n) <> 0) by (cbn; lia).
  assert (HSm : number_of_scenarios (with_scenarios cfg m) <> 0) by (cbn; lia).
  destruct (model_built _ r HTn HSn) as [Hmn Hon].
  destruct (model_built _ r HTm HSm) as [Hmm Hom].
  set (k := Z.to_nat (m - n)).
  assert (Hk : scenarios (with_scenarios cfg m) = (scenarios (with_scenarios cfg n) + k)%nat)
    by (unfold scenarios, k; cbn; lia).
  exists (scenariosDict (with_scenarios cfg n) 2 (scenarios (with_scenarios cfg n))),
    (scenariosDict (with_scenarios cfg m) 2 (scenarios (with_scenarios cfg m))),
    (flat_map (fun _ : nat => scenarioDecls cfg) (seq (scenarios (with_scenarios cfg n)) k)),
    (flat_map (fun s => scenarioConstraints cfg theBase (scenarioBase cfg 2 s)
                          (scenarioRandom cfg r s))
              (seq (scenarios (with_scenarios cfg n)) k)).
  split; [exact Hon |]. split; [exact Hom |].
  rewrite Hmn, Hmm. cbn [builtSolver variables constraints]. rewrite Hk.
  split.
  { change (modelDecls (with_scenarios cfg m)) with (modelDecls cfg).
    change (modelDecls (with_scenarios cfg n)) with (modelDecls cfg).
    change (baseDecls (with_scenarios cfg m)) with (baseDecls cfg).
    change (baseDecls (with_scenarios cfg n)) with (baseDecls cfg).
    now rewrite modelDecls_more, app_assoc. }
  split.
  { change (modelConstraints (with_scenarios cfg m)) with (modelConstraints cfg).
    change (modelConstraints (with_scenarios cfg n)) with (modelConstraints cfg).
    now rewrite modelConstraints_more. }
  split.
  { rewrite (length_flat_map_const _ _ (6 * slots cfg))
      by (intros; apply length_scenarioDecls).
    now rewrite length_seq. }
  split.
  { rewrite (length_flat_map_const _ _ (5 * slots cfg))
      by (intros; apply length_scenarioConstraints).
    now rewrite length_seq. }
  intros s t Hs Ht.
  assert (Hsn : (Z.to_nat s < scenarios (with_scenarios cfg n))%nat)
    by (unfold scenarios; cbn; lia).
  assert (Hsm : (Z.to_nat s < scenarios (with_scenarios cfg m))%nat)
    by (unfold scenarios; cbn; lia).
  assert (Htn : (Z.to_nat t < slots (with_scenarios cfg n))%nat)
    by (unfold slots, timeslotCount in *; cbn; lia).
  pose proof (lookupSlot_built (with_scenarios cfg n) _ _ Hsn Htn) as Ln.
  pose proof (lookupSlot_built (with_scenarios cfg m) _ _ Hsm Htn) as Lm.
  rewrite !Z2Nat.id in Ln, Lm by lia.
  rewrite <- Hk. rewrite Ln, Lm. split; [reflexivity | discriminate].
Qed.

Lemma more_scenarios_append_witness :
  0 <= number_of_days small_configuration /\ 1 <= 1 <= 2 /\
  exists dc,
    constraints (model (with_scenarios small_configuration 2) ramp)
    = constraints (model (with_scenarios small_configuration 1) ramp) ++ dc /\
    length dc = 120%nat.
Proof.
  assert (HD : 0 <= number_of_days small_configuration) by (vm_compute; discriminate).
  assert (Hnm : 1 <= 1 <= 2) by lia.
  split; [exact HD | split; [exact Hnm |]].
  destruct (more_scenarios_append small_configuration ramp 1 2 HD Hnm)
    as (svn & svm & dv & dc & _ & _ & _ & Hc & _ & Hlen & _).
  exists dc. split; [exact Hc | exact Hlen].
Defined.

(** ** Builds that fail, and models nothing can satisfy *)

Lemma variables_always (cfg : ProblemConfiguration) (r : RandomState) :
  variables (model cfg r) = baseDecls cfg ++ modelDecls cfg (scenarios cfg).
Proof.
  unfold model. rewrite buildModel_run.
  destruct (timeslotCount cfg <? 0); [reflexivity |].
  destruct (number_of_scenarios cfg =? 0); reflexivity.
Qed.

(** X11: a build that fails leaves a partial model behind. With a
    negative [number_of_days] it raises [ValueError] having declared only
    the two base variables, added no constraint, set no objective and
    drawn nothing from the generator. With [number_of_scenarios = 0] (and
    [number_of_days >= 0]) it raises [ZeroDivisionError] having declared
    the two base variables, added no constraint, set no objective, and
    drawn the [2 * T] variates of the two price profiles. *)
Theorem failed_build_leaves_partial_model (cfg : ProblemConfiguration) (r : RandomState) :
  (number_of_days cfg < 0 ->
   outcome cfg r = Raise ValueError /\
   NumVariables (model cfg r) = 2%nat /\
   constraints (model cfg r) = [] /\
   objective (model cfg r) = None /\
   random (snd (buildModel cfg (fresh r))) = r) /\
  (0 <= number_of_days cfg -> number_of_scenarios cfg = 0 ->
   outcome cfg r = Raise ZeroDivisionError /\
   NumVariables (model cfg r) = 2%nat /\
   constraints (model cfg r) = [] /\
   objective (model cfg r) = None /\
   random (snd (buildModel cfg (fresh r))) = advance r (2 * slots cfg)).
Proof.
  unfold outcome, model, NumVariables. rewrite buildModel_run. split.
  - intros HD.
    destruct (Z.ltb_spec (timeslotCount cfg) 0) as [_ | Hge];
      [| unfold timeslotCount in Hge; lia].
    cbn [fst snd declaredWorld solver variables constraints objective random].
    rewrite length_app, length_modelDecls.
    replace (slots cfg) with 0%nat by (unfold slots, timeslotCount; lia).
    repeat split; reflexivity.
  - intros HD HS.
    destruct (Z.ltb_spec (timeslotCount cfg) 0) as [Hlt | _];
      [unfold timeslotCount in Hlt; lia |].
    destruct (Z.eqb_spec (number_of_scenarios cfg) 0) as [_ | Hne]; [| contradiction].
    cbn [fst snd constrainedWorld solver variables constraints objective random].
    rewrite length_app, length_modelDecls.
    replace (scenarios cfg) with 0%nat by (unfold scenarios; lia).
    rewrite !Nat.mul_0_r. repeat split; reflexivity.
Qed.

Lemma failed_build_leaves_partial_model_witness :
  number_of_days (with_days small_configuration (-1)) < 0 /\
  0 <= number_of_days (with_scenarios small_configuration 0) /\
  number_of_scenarios (with_scenarios small_configuration 0) = 0 /\
  outcome (with_days small_configuration (-1)) ramp = Raise ValueError /\
  outcome (with_scenarios small_configuration 0) ramp = Raise ZeroDivisionError.
Proof.
  assert (H1 : number_of_days (with_days small_configuration (-1)) < 0) by reflexivity.
  assert (H2 : 0 <= number_of_days (with_scenarios small_configuration 0))
    by (vm_compute; discriminate).
  assert (H3 : number_of_scenarios (with_scenarios small_configuration 0) = 0)
    by reflexivity.
  split; [exact H1 | split; [exact H2 | split; [exact H3 |]]].
  split.
  - exact (proj1 (proj1 (failed_build_leaves_partial_model
                           (with_days small_configuration (-1)) ramp) H1)).
  - exact (proj1 (proj2 (failed_build_leaves_partial_model
                           (with_scenarios small_configuration 0) ramp) H2 H3)).
Defined.

(** X12: a model built from inconsistent bounds cannot be satisfied. When
    [max_number_of_modules < min_number_of_modules], or
    [max_storage_size_in_kwh < min_storage_size_in_kwh], or
    [max_storage_size_in_kwh < 0] with at least one scenario and one day,
    no assignment lies within the declared bounds of all variables. *)
Theorem inconsistent_bounds_infeasible (cfg : ProblemConfiguration) (r : RandomState)
    (a : Assignment) :
  (max_number_of_modules cfg < min_number_of_modules cfg)%Q \/
  (max_storage_size_in_kwh cfg < min_storage_size_in_kwh cfg)%Q \/
  ((max_storage_size_in_kwh cfg < 0)%Q /\
   1 <= number_of_scenarios cfg /\ 1 <= number_of_days cfg) ->
  ~ within_bounds cfg r a.
Proof.
  intros H Hb. unfold within_bounds in Hb.
  destruct H as [Hmod | [Hsto | (Hneg & HS & HD)]].
  - assert (Hd : nth_error (variables (model cfg r)) 0
                 = Some {| var_integer := true;
                           var_lb := Fin (min_number_of_modules cfg);
                           var_ub := Fin (max_number_of_modules cfg);
                           var_name := Literal "numberOfModules" |})
      by (rewrite variables_always; reflexivity).
    destruct (Hb _ _ Hd) as [[Hl Hu] _].
    cbn [var_lb var_ub] in Hl, Hu. lra.
  - assert (Hd : nth_error (variables (model cfg r)) 1
                 = Some {| var_integer := false;
                           var_lb := Fin (min_storage_size_in_kwh cfg);
                           var_ub := Fin (max_storage_size_in_kwh cfg);
                           var_name := Literal "sizeOfStorageInKwh" |})
      by (rewrite variables_always; reflexivity).
    destruct (Hb _ _ Hd) as [[Hl Hu] _].
    cbn [var_lb var_ub] in Hl, Hu. lra.
  - assert (Hs : (0 < scenarios cfg)%nat) by (unfold scenarios; lia).
    assert (Ht : (0 < slots cfg)%nat) by (unfold slots, timeslotCount; lia).
    pose proof (declared_handle cfg r 0 0 0 Hs Ht ltac:(lia)) as Hd.
    cbn [timeslotDecls nth_error] in Hd.
    destruct (Hb _ _ Hd) as [[Hl Hu] _].
    cbn [var_lb var_ub] in Hl, Hu. lra.
Qed.

Lemma inconsistent_bounds_infeasible_witness :
  ((max_number_of_modules inverted_configuration
    < min_number_of_modules inverted_configuration)%Q \/
   (max_storage_size_in_kwh inverted_configuration
    < min_storage_size_in_kwh inverted_configuration)%Q \/
   ((max_storage_size_in_kwh inverted_configuration < 0)%Q /\
    1 <= number_of_scenarios inverted_configuration /\
    1 <= number_of_days inverted_configuration)) /\
  ~ within_bounds inverted_configuration ramp (fun _ => 3%Q).
Proof.
  assert (H : (max_number_of_modules inverted_configuration
               < min_number_of_modules inverted_configuration)%Q \/
              (max_storage_size_in_kwh inverted_configuration
               < min_storage_size_in_kwh inverted_configuration)%Q \/
              ((max_storage_size_in_kwh inverted_configuration < 0)%Q /\
               1 <= number_of_scenarios inverted_configuration /\
               1 <= number_of_days inverted_configuration))
    by (left; reflexivity).
  split; [exact H |].
  exact (inconsistent_bounds_infeasible inverted_configuration ramp _ H).
Defined.

(** ** The driver's model *)

(** X13: the configuration [main.py] assembles is valid, its build
    succeeds whatever the generator holds, and the two counts the driver
    prints are 262802 variables and 219000 constraints. *)
Theorem main_builds_and_reports (r : RandomState) :
  valid_configuration main_configuration /\
  (exists built, outcome main_configuration r = Ok built) /\
  main_report r = (262802, 219000).
Proof.
  assert (Hv : valid_configuration main_configuration)
    by (repeat split; vm_compute; discriminate).
  destruct (valid_runs _ Hv) as [HT HS].
  destruct (model_built main_configuration r HT HS) as [Hm Ho].
  split; [exact Hv |]. split; [eexists; exact Ho |].
  unfold main_report, NumVariables, NumConstraints. rewrite Hm.
  cbn [builtSolver variables constraints].
  rewrite length_app, length_modelDecls, length_modelConstraints.
  cbn [baseDecls length].
  rewrite Nat2Z.inj_add, !Nat2Z.inj_mul.
  unfold slots, scenarios, timeslotCount.
  rewrite !Z2Nat.id by (cbn; lia).
  reflexivity.
Qed.

(** ** Building twice on one problem *)

Lemma map_over_flat_map {A B C} (f : B -> C) (g : A -> list B) (l : list A) :
  map f (flat_map g l) = flat_map (fun x => map f (g x)) l.
Proof.
  induction l as [| x l IH]; cbn [flat_map map]; [reflexivity |].
  now rewrite map_app, IH.
Qed.

Lemma rename_fold_Plus (f : MPVariable -> MPVariable) (l : list LinearExpr)
    (acc : LinearExpr) :
  rename f (fold_left Plus l acc) = fold_left Plus (map (rename f) l) (rename f acc).
Proof.
  revert acc. induction l as [| e l IH]; intros acc; cbn [fold_left map]; [reflexivity |].
  now rewrite IH.
Qed.

(** Congruence through the constructors of lists, constraints and
    expressions, down to the variables. *)
Ltac same_shape :=
  repeat match goal with
         | |- _ :: _ = _ :: _ => f_equal
         | |- CEq _ _ = CEq _ _ => f_equal
         | |- CLe _ _ = CLe _ _ => f_equal
         | |- Var _ = Var _ => f_equal
         | |- CMul _ _ = CMul _ _ => f_equal
         | |- MulC _ _ = MulC _ _ => f_equal
         | |- DivC _ _ = DivC _ _ => f_equal
         | |- Plus _ _ = Plus _ _ => f_equal
         | |- Minus _ _ = Minus _ _ => f_equal
         end.

Section Rebuild.

Variable cfg : ProblemConfiguration.

Lemma random_extend w dv dc : random (extend w dv dc 0) = random w.
Proof. destruct w as [sol [st cu]]. unfold extend. cbn. now rewrite Nat.add_0_r. Qed.

(** [buildModel] on a problem whose solver already holds a model. *)
Lemma buildModel_run_from (w : World) :
  0 <= timeslotCount cfg -> number_of_scenarios cfg <> 0 ->
  let n0 := length (variables (solver w)) in
  let bv := {| numberOfModules := n0; sizeOfStorageInKwh := S n0 |} in
  buildModel cfg w =
  (Ok (bv, scenariosDict cfg (n0 + 2) (scenarios cfg)),
   withObjective
     (extend w (baseDecls cfg ++ modelDecls cfg (scenarios cfg))
        (modelConstraints cfg (n0 + 2) bv (random w) (scenarios cfg))
        (2 * slots cfg * scenarios cfg + 2 * slots cfg))
     (objectiveExpr cfg (n0 + 2) bv (scenarioRandom cfg (random w) (scenarios cfg)))).
Proof.
  intros HT HS n0 bv. unfold buildModel.
  rewrite (bind_ok _ _ _ _ _ (buildBaseVariables_run cfg _)).
  rewrite (bind_ok _ _ _ _ _ (buildScenarioVariables_run cfg _)).
  rewrite extend_extend.
  cbn [extend solver variables app Nat.add].
  rewrite length_app. cbn [baseDecls length]. fold n0. fold bv.
  rewrite (bind_ok _ _ _ _ _ (buildConstraints_run cfg _ _ _ HT)).
  rewrite extend_extend.
  unfold bind at 1. rewrite (buildObjective_run cfg _ _ _ HT).
  destruct (Z.eqb_spec (number_of_scenarios cfg) 0) as [E | _]; [contradiction |].
  unfold ret. rewrite extend_extend.
  rewrite !random_extend. cbn [app Nat.add]. rewrite !app_nil_r.
  unfold scenarioRandom, advance.
  replace (cursor (random w) + 0 + 2 * slots cfg * scenarios cfg)%nat
    with (cursor (random w) + 2 * slots cfg * scenarios cfg)%nat by lia.
  reflexivity.
Qed.

(** The constraints and the objective over variables that start [n]
    places later are those over the first variables, renamed. *)
Lemma timeslotConstraints_shift (n : nat) bv bv' base r t :
  numberOfModules bv' = (n + numberOfModules bv)%nat ->
  sizeOfStorageInKwh bv' = (n + sizeOfStorageInKwh bv)%nat ->
  timeslotConstraints cfg bv' (n + base) r t
  = map (rename_constraint (Nat.add n)) (timeslotConstraints cfg bv base r t).
Proof.
  intros Hm Hs.
  unfold timeslotConstraints, productionLink, consumptionLink, energyBalance,
    levelConstraint, initialCondition, levelRecursion, capacityBound, timeslotVars.
  destruct t as [| k];
    cbn [map rename_constraint rename storageLevel storageEnergyDelta producedEnergy
           consumedEnergy boughtEnergy soldEnergy];
    rewrite Hm, Hs; same_shape; lia.
Qed.

Lemma modelConstraints_shift (n : nat) bv bv' first r k :
  numberOfModules bv' = (n + numberOfModules bv)%nat ->
  sizeOfStorageInKwh bv' = (n + sizeOfStorageInKwh bv)%nat ->
  modelConstraints cfg (n + first) bv' r k
  = map (rename_constraint (Nat.add n)) (modelConstraints cfg first bv r k).
Proof.
  intros Hm Hs. unfold modelConstraints. rewrite map_over_flat_map.
  apply flat_map_ext_in. intros s _.
  unfold scenarioConstraints. rewrite map_over_flat_map.
  apply flat_map_ext_in. intros t _.
  replace (scenarioBase cfg (n + first) s) with (n + scenarioBase cfg first s)%nat
    by (unfold scenarioBase; lia).
  now apply timeslotConstraints_shift.
Qed.

Lemma scenarioCosts_shift (n base : nat) rp :
  scenarioCosts cfg (n + base) rp = rename (Nat.add n) (scenarioCosts cfg base rp).
Proof.
  unfold scenarioCosts.
  change (Const 0) with (rename (Nat.add n) (Const 0)) at 1.
  generalize (Const 0). generalize (seq 0 (slots cfg)).
  intros l. induction l as [| t l IH]; intros acc; cbn [fold_left]; [reflexivity |].
  rewrite <- IH. f_equal.
  unfold costStep, timeslotVars. cbn [rename boughtEnergy soldEnergy].
  same_shape; lia.
Qed.

Lemma objectiveExpr_shift (n : nat) bv bv' first rp :
  numberOfModules bv' = (n + numberOfModules bv)%nat ->
  sizeOfStorageInKwh bv' = (n + sizeOfStorageInKwh bv)%nat ->
  objectiveExpr cfg (n + first) bv' rp
  = rename (Nat.add n) (objectiveExpr cfg first bv rp).
Proof.
  intros Hm Hs. unfold objectiveExpr, investmentExpr. cbn [rename].
  rewrite Hm, Hs, rename_fold_Plus, map_map. cbn [rename].
  do 3 f_equal. apply map_ext. intros s.
  replace (scenarioBase cfg (n + first) s) with (n + scenarioBase cfg first s)%nat
    by (unfold scenarioBase; lia).
  apply scenarioCosts_shift.
Qed.

Lemma lookupSlot_from (first s t : nat) :
  (s < scenarios cfg)%nat -> (t < slots cfg)%nat ->
  lookupSlot (scenariosDict cfg first (scenarios cfg)) (Z.of_nat s) (Z.of_nat t)
  = Some (timeslotVars (scenarioBase cfg first s) t).
Proof.
  intros Hs Ht. unfold lookupSlot.
  rewrite (scenariosDict_lookup cfg first _ s Hs).
  now apply scenarioDict_lookup.
Qed.

Lemma objective_vars_from first bv rp (n0 : nat) :
  (n0 <= numberOfModules bv)%nat -> (n0 <= sizeOfStorageInKwh bv)%nat ->
  (n0 <= first)%nat ->
  Forall (fun v => (n0 <= v)%nat) (expr_vars (objectiveExpr cfg first bv rp)).
Proof.
  intros Hnm Hsz Hf. unfold objectiveExpr, investmentExpr. cbn [expr_vars app].
  constructor; [exact Hnm |]. constructor; [exact Hsz |].
  apply expr_vars_fold_Plus; [constructor |].
  intros e He. apply in_map_iff in He. destruct He as (s & <- & _).
  unfold scenarioCosts. apply expr_vars_costSteps; [constructor |].
  intros t _. unfold timeslotVars, scenarioBase. cbn [boughtEnergy soldEnergy].
  split; lia.
Qed.

End Rebuild.

(** X14: [buildModel] is not idempotent. Called a second time on the same
    problem it keeps the first model and appends a second one behind it.
    Every variable is declared once more, with the same name, bounds and
    integrality and in the same order. The constraints added are the
    constraints a fresh problem would get from the generator state the
    first build left, written over the new variables: every handle is
    moved up by the number of variables of the first build. The handles
    returned are those of the new variables, and the objective is replaced
    by the objective of that second model, over the new variables only. *)
Theorem second_build_appends (cfg : ProblemConfiguration) (r : RandomState) :
  valid_configuration cfg ->
  let w1 := snd (buildModel cfg (fresh r)) in
  let n := NumVariables (solver w1) in
  let again := model cfg (random w1) in
  exists bv1 sv1 bv2 sv2 w2,
    outcome cfg r = Ok (bv1, sv1) /\
    random w1 = advance r (variatesConsumed cfg) /\
    buildModel cfg w1 = (Ok (bv2, sv2), w2) /\
    variables (solver w2) = variables (solver w1) ++ variables (solver w1) /\
    constraints (solver w2)
    = constraints (solver w1) ++ map (rename_constraint (Nat.add n)) (constraints again) /\
    objective (solver w2) = option_map (rename (Nat.add n)) (objective again) /\
    (forall e2, objective (solver w2) = Some e2 ->
                Forall (fun v => (n <= v)%nat) (expr_vars e2)) /\
    numberOfModules bv2 = (n + numberOfModules bv1)%nat /\
    sizeOfStorageInKwh bv2 = (n + sizeOfStorageInKwh bv1)%nat /\
    (forall s t, (s < scenarios cfg)%nat -> (t < slots cfg)%nat ->
       exists this1 this2,
         lookupSlot sv1 (Z.of_nat s) (Z.of_nat t) = Some this1 /\
         lookupSlot sv2 (Z.of_nat s) (Z.of_nat t) = Some this2 /\
         fields this2 = map (Nat.add n) (fields this1)) /\
    random w2 = advance (random w1) (variatesConsumed cfg).
Proof.
  intros Hv w1 n again. destruct (valid_runs cfg Hv) as [HT HS].
  pose proof (buildModel_run_from cfg w1 HT HS) as Hrun. cbn zeta in Hrun.
  destruct (model_built cfg r HT HS) as [Hw1 Ho].
  change (model cfg r) with (solver w1) in Hw1.
  assert (Hn : n = (2 + 6 * slots cfg * scenarios cfg)%nat).
  { unfold n, NumVariables. rewrite Hw1. cbn [builtSolver variables].
    now rewrite length_app, length_modelDecls. }
  assert (Hr1 : random w1 = advance r (variatesConsumed cfg)).
  { unfold w1. rewrite buildModel_run.
    destruct (Z.ltb_spec (timeslotCount cfg) 0); [lia |].
    destruct (Z.eqb_spec (number_of_scenarios cfg) 0); [lia |].
    reflexivity. }
  assert (Hagain : again = builtSolver cfg (random w1))
    by (exact (proj1 (model_built cfg (random w1) HT HS))).
  change (length (variables (solver w1))) with n in Hrun.
  do 5 eexists.
  split; [exact Ho |]. split; [exact Hr1 |]. split; [exact Hrun |].
  cbn [withObjective extend solver variables constraints objective random
         numberOfModules sizeOfStorageInKwh theBase].
  split; [now rewrite Hw1 |].
  split.
  { f_equal. rewrite Hagain. cbn [builtSolver constraints].
    apply (modelConstraints_shift cfg n theBase); cbn [numberOfModules sizeOfStorageInKwh theBase]; lia. }
  split.
  { rewrite Hagain. cbn [builtSolver objective option_map]. f_equal.
    apply (objectiveExpr_shift cfg n theBase);
      cbn [numberOfModules sizeOfStorageInKwh theBase]; lia. }
  split.
  { intros e2 He2. injection He2 as <-.
    apply objective_vars_from; cbn [numberOfModules sizeOfStorageInKwh]; lia. }
  split; [lia |]. split; [lia |].
  split.
  { intros s t Hs Ht. eexists. eexists.
    split; [now apply lookupSlot_built |].
    split; [now apply lookupSlot_from |].
    unfold fields, timeslotVars, scenarioBase.
    cbn [map storageLevel storageEnergyDelta producedEnergy consumedEnergy
           boughtEnergy soldEnergy].
    same_shape; lia. }
  unfold advance, variatesConsumed. reflexivity.
Qed.

Lemma second_build_appends_witness :
  valid_configuration small_configuration /\
  exists built2 w2,
    buildModel small_configuration (snd (buildModel small_configuration (fresh ramp)))
    = (Ok built2, w2) /\
    variables (solver w2)
    = variables (model small_configuration ramp)
      ++ variables (model small_configuration ramp) /\
    random w2 = advance (advance ramp (variatesConsumed small_configuration))
                        (variatesConsumed small_configuration).
Proof.
  assert (Hv : valid_configuration small_configuration)
    by (repeat split; vm_compute; discriminate).
  split; [exact Hv |].
  destruct (second_build_appends small_configuration ramp Hv)
    as (bv1 & sv1 & bv2 & sv2 & w2 & _ & Hr1 & Hrun & Hvars & _ & _ & _ & _ & _ & _ & Hr2).
  exists (bv2, sv2), w2.
  split; [exact Hrun | split; [exact Hvars |]].
  rewrite Hr2, Hr1. reflexivity.
Defined.
